(** * Sidewalk segmentization notebook (graph-gen/nyc/segmentize.ipynb)

    A shallow embedding of the notebook's cells and of the geopandas / pandas
    operations they call, together with the properties of the derived point
    table.

    Coordinates are rationals ([Qc]): a float64 is a rational, and the values
    stored in a file are taken as the reader delivers them.  Everything that
    the libraries compute in floating point or leave to an index structure
    (lengths and cut points of segmentize, projection between reference
    systems, line simplification, spatial predicates, the order in which a
    spatial index returns its hits, the aspect ratio of a plot) is a field of
    the interface [GeoLib], so that the theorems hold for every library that
    fits the interface; an instance in exact arithmetic serves to run the
    notebook on examples.  The operations that build the point table
    (removal of repeated vertices, unique points, explode, reset_index,
    merge, drop, column assignment, to_crs, clip, to_csv) are defined here
    following their documented behaviour, with the exceptions they raise. *)

From Stdlib Require Import ZArith QArith Qcanon Qround Lia Lqa.
From stdpp Require Import base decidable option list numbers strings pretty.

Local Open Scope Z_scope.
Local Open Scope Qc_scope.

(** ** Coordinate reference systems and geometries *)

Inductive CRS := EPSG (code : N).

Definition EPSG2263 : CRS := EPSG 2263.

(** WGS 84, the reference system of a GeoJSON file that names none. *)
Definition EPSG4326 : CRS := EPSG 4326.

Global Instance CRS_eq_dec : EqDecision CRS.
Proof. solve_decision. Defined.

Record point := mkPoint { px : Qc; py : Qc }.

Global Instance point_eq_dec : EqDecision point.
Proof. solve_decision. Defined.

Definition pt (x y : Z) : point := mkPoint (Qc_of_Z x) (Qc_of_Z y).

Inductive geometry :=
| Point (p : point)
| LineString (cs : list point)
| MultiPoint (ps : list point)
| Polygon (shell : list point)
| MultiPolygon (shells : list (list point)).

Global Instance geometry_eq_dec : EqDecision geometry.
Proof. solve_decision. Defined.

Definition coords (g : geometry) : list point :=
  match g with
  | Point p => [p]
  | LineString cs => cs
  | MultiPoint ps => ps
  | Polygon shell => shell
  | MultiPolygon shells => concat shells
  end.

Definition is_point (g : geometry) : bool :=
  match g with Point _ => true | _ => false end.

(** Squared Euclidean distance; the length of a segment is its square root. *)
Definition dist2 (a b : point) : Qc :=
  (px b - px a) * (px b - px a) + (py b - py a) * (py b - py a).

(** Consecutive pairs of a list: the segments of a line, the edges of a ring. *)
Fixpoint adjacent {A} (l : list A) : list (A * A) :=
  match l with
  | [] => []
  | a :: rest =>
      match rest with
      | [] => []
      | b :: _ => (a, b) :: adjacent rest
      end
  end.

(** ** Segmentize in exact arithmetic

    "Additional vertices will be added to every line segment in an input
    geometry so that segments are no longer than the provided maximum segment
    length.  New vertices will evenly subdivide each segment."  A segment of
    length [len] is cut into [ceil (len / max_segment_length)] equal parts;
    with [len = sqrt (dist2 a b)] that count is the least [n] with
    [dist2 a b <= n^2 * max^2].  GEOS evaluates the same formulas in float64;
    the two definitions below are what it would compute without rounding. *)
Definition segment_count (max_segment_length : Qc) (a b : point) : Z :=
  Z.sqrt_up (Qceiling (dist2 a b / (max_segment_length * max_segment_length))%Qc).

Definition point_along (a b : point) (t : Qc) : point :=
  mkPoint (px a + t * (px b - px a)) (py a + t * (py b - py a)).

(** The cut points of the segment from [a] to [b] into [n] equal parts. *)
Definition exact_interior (a b : point) (n : Z) : list point :=
  (λ j, point_along a b (Qc_of_Z j / Qc_of_Z n)) <$> seqZ 1 (n - 1).

(** [p] lies on the segment from [a] to [b]. *)
Definition on_segment (a b p : point) : Prop :=
  ∃ t : Qc, 0 ≤ t ∧ t ≤ 1 ∧ p = point_along a b t.

(** [p] lies on the line with vertices [cs]. *)
Definition on_line (cs : list point) (p : point) : Prop :=
  p ∈ cs ∨ ∃ e, e ∈ adjacent cs ∧ on_segment e.1 e.2 p.



(** ** The vertex list that GEOS builds

    Densifier::densifyPoints appends to a coordinate list, never allowing a
    point equal to the one appended last: for every segment its start, then
    the cut points [1 .. n-1] of its [n] parts, and finally the last vertex
    of the line. *)
Fixpoint densify_with (parts : point → point → Z) (along : point → point → Z → Z → point)
    (cs : list point) : list point :=
  match cs with
  | [] => []
  | a :: rest =>
      match rest with
      | [] => [a]
      | b :: _ =>
          a :: ((λ j, along a b j (parts a b)) <$> seqZ 1 (parts a b - 1))
            ++ densify_with parts along rest
      end
  end.

(** A list without the elements that repeat their predecessor. *)
Fixpoint remove_repeated (l : list point) : list point :=
  match l with
  | [] => []
  | a :: rest =>
      match rest with
      | [] => [a]
      | b :: _ => if decide (a = b) then remove_repeated rest else a :: remove_repeated rest
      end
  end.

(** ** shapely.extract_unique_points

    The distinct coordinates of a geometry, as a MultiPoint, in order of first
    occurrence. *)
Fixpoint unique_from (seen : list point) (l : list point) : list point :=
  match l with
  | [] => []
  | p :: l' =>
      if decide (p ∈ seen) then unique_from seen l'
      else p :: unique_from (p :: seen) l'
  end.

Definition unique (l : list point) : list point := unique_from [] l.

Definition extract_unique_points_geometry (g : geometry) : geometry :=
  MultiPoint (unique (coords g)).

(** ** shapely.get_parts, the basis of explode

    A multi-part geometry yields its parts, any other geometry yields itself. *)
Definition get_parts (g : geometry) : list geometry :=
  match g with
  | MultiPoint ps => Point <$> ps
  | MultiPolygon shells => Polygon <$> shells
  | _ => [g]
  end.

Definition map_coords (f : point → point) (g : geometry) : geometry :=
  match g with
  | Point p => Point (f p)
  | LineString cs => LineString (f <$> cs)
  | MultiPoint ps => MultiPoint (f <$> ps)
  | Polygon shell => Polygon (f <$> shell)
  | MultiPolygon shells => MultiPolygon ((λ shell : list point, f <$> shell) <$> shells)
  end.

(** ** The external geospatial libraries

    pyproj, GEOS, the STRtree index and matplotlib are opaque collaborators
    of the notebook.  The fields are what they compute; the laws are the part
    of their contract that the notebook relies on. *)
Class GeoLib := {
  (** pyproj: whether it knows a reference system, the coordinates of a
      point in another reference system, and whether a reference system is
      geographic (degrees). *)
  crs_known : CRS → bool;
  transform : CRS → CRS → point → point;
  is_geographic : CRS → bool;
  (** GEOS simplify. *)
  simplify_geometry : Qc → geometry → geometry;
  (** GEOS densify: the number of parts a segment is cut into,
      [ceil (length / max_segment_length)] in float64, and the [j]-th of the
      [n] cut points of a segment. *)
  segment_parts : Qc → point → point → Z;
  vertex_along : point → point → Z → Z → point;
  (** GEOS densify of an area, which repairs the rings it has cut; [None]
      when GEOS raises. *)
  segmentize_area : Qc → geometry → option geometry;
  (** GEOS validity, predicates and overlay; the predicates and the overlay
      are used on valid geometries only. *)
  is_valid : geometry → bool;
  within : geometry → geometry → bool;
  intersects : geometry → geometry → bool;
  intersection : geometry → geometry → geometry;
  unary_union : list geometry → geometry;
  (** STRtree: the positions of the geometries that intersect a query
      geometry, and the pairs of positions of two lists that are within one
      another, in the order of the index. *)
  sindex_query : list geometry → geometry → list nat;
  sindex_within : list geometry → list geometry → list (nat * nat);
  (** matplotlib: whether the aspect ratio [1 / cos (mean latitude)] of a
      non-empty geographic layer is finite and positive. *)
  aspect_ok : list geometry → bool;
  crs_known_2263 : crs_known EPSG2263 = true;
  crs_known_4326 : crs_known EPSG4326 = true;
  is_geographic_2263 : is_geographic EPSG2263 = false;
  segment_parts_same : ∀ S a, (segment_parts S a a ≤ 1)%Z;
  sindex_query_spec : ∀ gs q,
    sindex_query gs q
    ≡ₚ filter (λ i, from_option (λ g, intersects g q) false (gs !! i)) (seq 0 (length gs));
  sindex_within_spec : ∀ ls rs,
    sindex_within ls rs
    ≡ₚ filter (λ ik : nat * nat,
                 from_option (λ l, from_option (within l) false (rs !! ik.2)) false (ls !! ik.1))
              (i ← seq 0 (length ls); (λ k, (i, k)) <$> seq 0 (length rs))
}.

(** ** Errors raised by the library calls *)

Inductive colname := Name (s : string) | Num (n : Z).

Global Instance colname_eq_dec : EqDecision colname.
Proof. solve_decision. Defined.

Inductive error :=
| AttributeError (attr : string)
| KeyError (c : colname)
| ValueError (msg : string)
| TypeError (msg : string)
| IndexError
| GEOSException (msg : string).

Inductive result (A : Type) :=
| Ok (a : A)
| Raise (e : error).

Arguments Ok {A} a.
Arguments Raise {A} e.

Global Instance result_ret : MRet result := @Ok.
Global Instance result_bind : MBind result := λ A B f m,
  match m with
  | Ok a => f a
  | Raise e => Raise e
  end.

Fixpoint traverse {A B} (f : A → result B) (l : list A) : result (list B) :=
  match l with
  | [] => Ok []
  | a :: l' => b ← f a; bs ← traverse f l'; Ok (b :: bs)
  end.

(** ** shapely.segmentize *)

Section Segmentize.
Context `{GeoLib}.

(** The cut points of the segment from [a] to [b]. *)
Definition interior (max_segment_length : Qc) (a b : point) : list point :=
  (λ j, vertex_along a b j (segment_parts max_segment_length a b))
    <$> seqZ 1 (segment_parts max_segment_length a b - 1).

Definition densify (max_segment_length : Qc) (cs : list point) : list point :=
  remove_repeated (densify_with (segment_parts max_segment_length) vertex_along cs).


(** The library cuts a segment into as many parts as exact arithmetic does,
    at points that differ from each other and from the ends. *)
Definition cut_as_exact (max_segment_length : Qc) (a b : point) : Prop :=
  segment_parts max_segment_length a b = segment_count max_segment_length a b
  ∧ NoDup (a :: interior max_segment_length a b ++ [b]).

(** A line that is left with a single point cannot be built: GEOS raises
    IllegalArgumentException, shapely GEOSException. *)
Definition segmentize_geometry (max_segment_length : Qc) (g : geometry) : result geometry :=
  match g with
  | LineString cs =>
      match densify max_segment_length cs with
      | [_] => Raise (GEOSException "point array must contain 0 or >1 elements")
      | vertices => Ok (LineString vertices)
      end
  | Polygon _ | MultiPolygon _ =>
      match segmentize_area max_segment_length g with
      | Some g' => Ok g'
      | None => Raise (GEOSException "Invalid number of points in LinearRing")
      end
  | Point _ | MultiPoint _ => Ok g
  end.

(** The points the notebook derives from one line geometry at line 136:
    [segmentize(50).extract_unique_points().explode()]; none when segmentize
    raises. *)
Definition derived_points (max_segment_length : Qc) (g : geometry) : list geometry :=
  match segmentize_geometry max_segment_length g with
  | Ok g' => get_parts (extract_unique_points_geometry g')
  | Raise _ => []
  end.
End Segmentize.

(** ** Tables *)

Inductive cell :=
| VInt (z : Z)
| VStr (s : string)
| VNum (q : Qc)
| VGeom (g : geometry).

Global Instance cell_eq_dec : EqDecision cell.
Proof. solve_decision. Defined.

(** A (Geo)DataFrame: the reference system of its geometry, the column labels
    in order, and the rows, each an index label with one cell per column. *)
Record DataFrame := mkDataFrame {
  crs : option CRS;
  columns : list colname;
  rows : list (Z * list cell)
}.

(** A GeoSeries indexed by labels of type [I] ([Z], or [Z * Z] for the
    two-level index that explode produces). *)
Record GeoSeries (I : Type) := mkGeoSeries {
  series_crs : option CRS;
  items : list (I * geometry)
}.

Arguments mkGeoSeries {I} _ _.
Arguments series_crs {I} _.
Arguments items {I} _.

Definition geometry_col : colname := Name "geometry".

Fixpoint get_col (c : colname) (cols : list colname) (cells : list cell) : option cell :=
  match cols, cells with
  | k :: cols', v :: cells' => if decide (k = c) then Some v else get_col c cols' cells'
  | _, _ => None
  end.

Fixpoint set_col (c : colname) (v : cell) (cols : list colname) (cells : list cell) : list cell :=
  match cols, cells with
  | k :: cols', w :: cells' =>
      if decide (k = c) then v :: cells' else w :: set_col c v cols' cells'
  | _, _ => cells
  end.

(** [df.geometry]: the active geometry column, which every frame of the
    notebook keeps under the label 'geometry'. *)
Definition row_geometry (cols : list colname) (r : Z * list cell) : result (Z * geometry) :=
  match get_col geometry_col cols r.2 with
  | Some (VGeom g) => Ok (r.1, g)
  | _ => Raise (TypeError "geometry column holds a non-geometry value")
  end.

Definition geometry_series (df : DataFrame) : result (GeoSeries Z) :=
  if decide (geometry_col ∈ columns df) then
    gs ← traverse (row_geometry (columns df)) (rows df);
    Ok (mkGeoSeries (crs df) gs)
  else Raise (AttributeError "geometry").

Definition map_series {I} (f : geometry → geometry) (s : GeoSeries I) : GeoSeries I :=
  mkGeoSeries (series_crs s) (prod_map id f <$> items s).

(** ** geopandas.read_file

    A geometry file: its declared reference system (if any), the attribute
    column names, and one record of attribute values plus a geometry per
    feature.  [read_file] installs the default integer index 0..n-1 and puts
    the geometry column last. *)
Record GeoFile := mkGeoFile {
  file_crs : option CRS;
  file_columns : list string;
  features : list (list cell * geometry)
}.

(** [gpd.read_file] of a shapefile (line 42): without a .prj the table has
    no reference system; the fields of the attribute table are typed and
    bounded by their width, and are copied as they are. *)
Definition read_file (f : GeoFile) : DataFrame :=
  {| crs := file_crs f;
     columns := (Name <$> file_columns f) ++ [geometry_col];
     rows := imap (λ i ft, (Z.of_nat i, ft.1 ++ [VGeom ft.2])) (features f) |}.

(** An integer of a GeoJSON file is stored as int64, the nearest one when it
    is out of range. *)
Definition int64 (z : Z) : Z := Z.max (- 2 ^ 63) (Z.min (2 ^ 63 - 1) z).

Definition read_cell (v : cell) : cell :=
  match v with
  | VInt z => VInt (int64 z)
  | _ => v
  end.

(** [gpd.read_file] of a GeoJSON file (lines 56 and 58): a file without a
    crs member is in EPSG:4326. *)
Definition read_file_geojson (f : GeoFile) : DataFrame :=
  {| crs := Some (default EPSG4326 (file_crs f));
     columns := (Name <$> file_columns f) ++ [geometry_col];
     rows := imap (λ i ft, (Z.of_nat i, (read_cell <$> ft.1) ++ [VGeom ft.2])) (features f) |}.

(** [df.crs = c]: assignment of the attribute; no coordinate is touched. *)
Definition assign_crs (c : CRS) (df : DataFrame) : DataFrame :=
  {| crs := Some c; columns := columns df; rows := rows df |}.

(** ** Column operations of pandas *)

Fixpoint drop_cells (labels cols : list colname) (cells : list cell) : list cell :=
  match cols, cells with
  | k :: cols', v :: cells' =>
      if decide (k ∈ labels) then drop_cells labels cols' cells'
      else v :: drop_cells labels cols' cells'
  | _, _ => []
  end.

(** [df.drop(columns=labels)]: KeyError on the first label that is absent. *)
Definition drop (labels : list colname) (df : DataFrame) : result DataFrame :=
  match filter (λ c, c ∉ columns df) labels with
  | c :: _ => Raise (KeyError c)
  | [] =>
      Ok {| crs := crs df;
            columns := filter (λ c, c ∉ labels) (columns df);
            rows := (λ r, (r.1, drop_cells labels (columns df) r.2)) <$> rows df |}
  end.

(** [df.iloc[:, 0]]: the values of the first column. *)
Definition iloc_col0 (df : DataFrame) : result (list cell) :=
  match columns df with
  | [] => Raise IndexError
  | _ :: _ =>
      traverse (λ r : Z * list cell,
                  match r.2 with v :: _ => Ok v | [] => Raise IndexError end)
               (rows df)
  end.

(** [df[c] = values] with values aligned to the rows: overwrite the column
    when it exists, append it as the last column otherwise. *)
Definition setitem (c : colname) (values : list cell) (df : DataFrame) : DataFrame :=
  if decide (c ∈ columns df) then
    {| crs := crs df; columns := columns df;
       rows := zip_with (λ r v, (r.1, set_col c v (columns df) r.2)) (rows df) values |}
  else
    {| crs := crs df; columns := columns df ++ [c];
       rows := zip_with (λ r v, (r.1, r.2 ++ [v])) (rows df) values |}.

(** [df.drop(df.columns[0], axis=1)]. *)
Definition drop_first_column (df : DataFrame) : result DataFrame :=
  match columns df with
  | [] => Raise IndexError
  | c :: _ => drop [c] df
  end.

(** [df[df[c] == v]]: the rows whose cell in column [c] equals [v];
    [on_missing] is the exception of the accessor used ([df.c] or [df[c]]). *)
Definition select_eq (on_missing : error) (c : colname) (v : cell) (df : DataFrame)
  : result DataFrame :=
  if decide (c ∈ columns df) then
    Ok {| crs := crs df; columns := columns df;
          rows := filter (λ r, get_col c (columns df) r.2 = Some v) (rows df) |}
  else Raise on_missing.

(** Overlapping column labels of the two sides of a merge receive the
    suffixes "_x" and "_y". *)
Definition suffixed (sfx : string) (others : list colname) (c : colname) : colname :=
  if decide (c ∈ others) then
    match c with
    | Name s => Name (s +:+ sfx)
    | Num n => Name (pretty n +:+ sfx)
    end
  else c.

(** [left.merge(right, left_on=key, right_index=True)]: inner join of the
    left key column against the right index, in the order of the left rows;
    the result keeps the left index labels and the left columns followed by
    the right columns. *)
Definition merge (left right : DataFrame) (left_on : colname) : result DataFrame :=
  if decide (left_on ∈ columns left) then
    Ok {| crs := crs left;
          columns := (suffixed "_x" (columns right) <$> columns left)
                       ++ (suffixed "_y" (columns left) <$> columns right);
          rows := l ← rows left;
                  match get_col left_on (columns left) l.2 with
                  | Some (VInt key) =>
                      (λ r, (l.1, l.2 ++ r.2)) <$> filter (λ r, r.1 = key) (rows right)
                  | _ => []
                  end |}
  else Raise (KeyError left_on).

(** ** GeoSeries methods *)

Definition extract_unique_points {I} (s : GeoSeries I) : GeoSeries I :=
  map_series extract_unique_points_geometry s.

(** [explode(index_parts=True)]: one row per part, labelled by the source
    label and the position of the part. *)
Definition explode (s : GeoSeries Z) : GeoSeries (Z * Z) :=
  mkGeoSeries (series_crs s)
    (ig ← items s; imap (λ j part, ((ig.1, Z.of_nat j), part)) (get_parts ig.2)).

(** [gpd.GeoDataFrame(s).reset_index()] for an exploded series without a
    name: the geometry becomes column 0, the two index levels become the
    columns level_0 and level_1, and the index is 0..m-1. *)
Definition reset_index (s : GeoSeries (Z * Z)) : DataFrame :=
  {| crs := series_crs s;
     columns := [Name "level_0"; Name "level_1"; Num 0];
     rows := imap (λ k it, (Z.of_nat k, [VInt it.1.1; VInt it.1.2; VGeom it.2])) (items s) |}.

Definition values {I} (s : GeoSeries I) : list cell := (λ it, VGeom it.2) <$> items s.

(** ** to_csv *)

Record csv_file := mkCsv {
  header : list (option colname);
  records : list (list cell)
}.

(** [df.to_csv(path)]: the index is written as the first, unnamed field. *)
Definition to_csv (df : DataFrame) : csv_file :=
  {| header := None :: (Some <$> columns df);
     records := (λ r, VInt r.1 :: r.2) <$> rows df |}.

(** ** Methods that call the libraries *)

Section WithLibrary.
Context `{GeoLib}.

(** [s.segmentize(max_segment_length)]: geometry by geometry; the first
    exception ends the call. *)
Definition segmentize (max_segment_length : Qc) (df : DataFrame) : result (GeoSeries Z) :=
  s ← geometry_series df;
  gs ← traverse (λ it : Z * geometry,
                   g ← segmentize_geometry max_segment_length it.2; Ok (it.1, g))
                (items s);
  Ok (mkGeoSeries (series_crs s) gs).

Definition simplify (tolerance : Qc) (df : DataFrame) : result (GeoSeries Z) :=
  s ← geometry_series df; Ok (map_series (simplify_geometry tolerance) s).

(** [df.to_crs(target)]: needs a geometry column and a reference system;
    returns the frame unchanged when it is already in [target]. *)
Definition to_crs (target : CRS) (df : DataFrame) : result DataFrame :=
  s ← geometry_series df;
  match crs df with
  | None => Raise (ValueError "Cannot transform naive geometries")
  | Some c =>
      if decide (c = target) then Ok df
      else Ok (setitem geometry_col
                 (values (map_series (map_coords (transform c target)) s))
                 {| crs := Some target; columns := columns df; rows := rows df |})
  end.

(** [s.plot(ax=ax)] and [df.plot(ax=ax)]: the layer that is drawn.  With a
    geographic reference system the aspect of the axes is set from the mean
    latitude of the bounds before anything is drawn, and matplotlib raises
    when it is not a positive number, as for the bounds of an empty layer. *)
Definition plot {I} (s : GeoSeries I) : result (list geometry) :=
  let layer := snd <$> items s in
  if from_option is_geographic false (series_crs s) then
    if bool_decide (layer = []) then Raise (ValueError "aspect must be finite and positive")
    else if aspect_ok layer then Ok layer
    else Raise (ValueError "aspect must be finite and positive")
  else Ok layer.

Definition plot_frame (df : DataFrame) : result (list geometry) :=
  s ← geometry_series df; plot s.

(** [gpd.sjoin(left, right, op='within')]: one row per pair of a left and a
    right row with the left geometry within the right one, in the order the
    spatial index returns the pairs; the row has the left index label and
    cells, then the right index label in the column index_right, then the
    right cells other than the geometry.  Column names that the two sides
    share receive the suffixes "_left" and "_right". *)
Definition sjoin_within (left right : DataFrame) : result DataFrame :=
  if bool_decide (Exists (λ c, c ∈ [Name "index_left"; Name "index_right"])
                    (columns left ++ columns right)) then
    Raise (ValueError "'index_left' and 'index_right' cannot be names in the frames being joined")
  else
    ls ← geometry_series left;
    rs ← geometry_series right;
    let rcols := filter (λ c, c ≠ geometry_col) (columns right) in
    Ok {| crs := crs left;
          columns := (suffixed "_left" rcols <$> columns left)
                       ++ [Name "index_right"]
                       ++ (suffixed "_right" (columns left) <$> rcols);
          rows := omap (λ ik : nat * nat,
                          l ← rows left !! ik.1;
                          r ← rows right !! ik.2;
                          Some (l.1, l.2 ++ [VInt r.1]
                                       ++ drop_cells [geometry_col] (columns right) r.2))
                       (sindex_within (snd <$> items ls) (snd <$> items rs)) |}.

(** [gpd.clip(gdf, mask)]: nothing when the mask is empty; otherwise the rows
    whose geometry intersects the union of the mask geometries, in the order
    the spatial index returns them; a point is kept as it is, any other
    geometry is replaced by its intersection with the mask. *)
Definition clip (gdf mask : DataFrame) : result DataFrame :=
  gs ← geometry_series gdf;
  ms ← geometry_series mask;
  if bool_decide (items ms = []) then
    Ok {| crs := crs gdf; columns := columns gdf; rows := [] |}
  else
    let region := unary_union (snd <$> items ms) in
    Ok {| crs := crs gdf; columns := columns gdf;
          rows := omap (λ i : nat,
                          rg ← zip (rows gdf) (items gs) !! i;
                          Some (if is_point rg.2.2 then rg.1
                                else (rg.1.1, set_col geometry_col
                                                (VGeom (intersection rg.2.2 region))
                                                (columns gdf) rg.1.2)))
                       (sindex_query (snd <$> items gs) region) |}.
End WithLibrary.

(** ** The notebook *)

Definition NOI : string := "Greenpoint".

(** The three files the notebook reads. *)
Record inputs := mkInputs {
  nynta2020 : GeoFile;
  Sidewalk : GeoFile;
  sidewalkwidths_nyc : GeoFile
}.

(** A figure: the layers drawn on it, in order. *)
Definition figure := list (list geometry).

(** The variables of a completed run.  [nyc_streets] and [segmentized] are
    rebound by several cells; each binding has a field of its own, the plain
    name being the last one. *)
Record run := mkRun {
  nyc_ntas : DataFrame;
  nyc_streets_loaded : DataFrame;
  nyc_streets_crop : DataFrame;
  nyc_streets_crop_simplified : GeoSeries Z;
  nyc_streets : DataFrame;
  segmentized_exploded : GeoSeries (Z * Z);
  segmentized_indexed : DataFrame;
  segmentized_rejoined : DataFrame;
  segmentized : DataFrame;
  nta_crop : DataFrame;
  segmentized_crop : DataFrame;
  greenpoint_sidewalks_png : figure;
  greenpoint_sidewalks_segmentized_png : figure;
  sidewalk_segmentization_png : figure;
  segmentized_nyc_sidewalks_csv : csv_file
}.

Section Notebook.
Context `{GeoLib}.

(** Lines 42-43. *)
Definition load_ntas (fs : inputs) : DataFrame :=
  assign_crs EPSG2263 (read_file (nynta2020 fs)).

(** Lines 55-58. *)
Definition load_streets (USE_SIDEWALK_WIDTHS : bool) (fs : inputs) : result DataFrame :=
  if negb USE_SIDEWALK_WIDTHS then to_crs EPSG2263 (read_file_geojson (Sidewalk fs))
  else Ok (read_file_geojson (sidewalkwidths_nyc fs)).

(** Lines 117-118. *)
Definition apply_simplification (USE_SIDEWALK_WIDTHS : bool) (nyc_streets : DataFrame)
  : result DataFrame :=
  if negb USE_SIDEWALK_WIDTHS then
    s ← simplify (Qc_of_Z 10) nyc_streets;
    Ok (setitem geometry_col (values s) nyc_streets)
  else Ok nyc_streets.

(** Line 136. *)
Definition segmentize_explode (nyc_streets : DataFrame) : result (GeoSeries (Z * Z)) :=
  s ← segmentize (Qc_of_Z 50) nyc_streets;
  Ok (explode (extract_unique_points s)).

(** Lines 164-166. *)
Definition rejoin (segmentized nyc_streets : DataFrame) : result DataFrame :=
  merged ← merge segmentized nyc_streets (Name "level_0");
  segmentized ← drop [Name "level_0"; Name "level_1"; geometry_col] merged;
  first ← iloc_col0 segmentized;
  drop_first_column (setitem geometry_col first segmentized).

Definition notebook (USE_SIDEWALK_WIDTHS : bool) (fs : inputs) : result run :=
  let nyc_ntas := load_ntas fs in
  nyc_streets_loaded ← load_streets USE_SIDEWALK_WIDTHS fs;
  (* line 77 *)
  noi ← select_eq (AttributeError "NTAName") (Name "NTAName") (VStr NOI) nyc_ntas;
  nyc_streets_crop ← sjoin_within nyc_streets_loaded noi;
  (* line 87 *)
  nyc_streets_crop_simplified ← simplify (Qc_of_Z 10) nyc_streets_crop;
  (* lines 96-106 *)
  crop10 ← segmentize (Qc_of_Z 10) nyc_streets_crop;
  crop10_layer ← plot crop10;
  let greenpoint_sidewalks_png := [crop10_layer] in
  (* lines 117-118 *)
  nyc_streets ← apply_simplification USE_SIDEWALK_WIDTHS nyc_streets_loaded;
  (* line 136 *)
  segmentized_exploded ← segmentize_explode nyc_streets;
  (* line 146 *)
  let segmentized_indexed := reset_index segmentized_exploded in
  (* lines 164-166 *)
  segmentized_rejoined ← rejoin segmentized_indexed nyc_streets;
  (* line 175 *)
  segmentized ← to_crs EPSG2263 segmentized_rejoined;
  (* lines 185-186 *)
  nta_crop ← select_eq (KeyError (Name "NTAName")) (Name "NTAName") (VStr NOI) nyc_ntas;
  segmentized_crop ← clip segmentized nta_crop;
  (* lines 196-205 *)
  nta_layer ← plot_frame nta_crop;
  crop_layer ← plot_frame segmentized_crop;
  let greenpoint_sidewalks_segmentized_png := [nta_layer; crop_layer] in
  (* lines 215-235 *)
  nta_left ← plot_frame nta_crop;
  streets_layer ← plot_frame nyc_streets_crop;
  simplified_layer ← plot nyc_streets_crop_simplified;
  nta_right ← plot_frame nta_crop;
  crop_right ← plot_frame segmentized_crop;
  let sidewalk_segmentization_png :=
    [nta_left; streets_layer; simplified_layer; nta_right; crop_right] in
  (* line 244 *)
  let segmentized_nyc_sidewalks_csv := to_csv segmentized in
  Ok {| nyc_ntas := nyc_ntas;
        nyc_streets_loaded := nyc_streets_loaded;
        nyc_streets_crop := nyc_streets_crop;
        nyc_streets_crop_simplified := nyc_streets_crop_simplified;
        nyc_streets := nyc_streets;
        segmentized_exploded := segmentized_exploded;
        segmentized_indexed := segmentized_indexed;
        segmentized_rejoined := segmentized_rejoined;
        segmentized := segmentized;
        nta_crop := nta_crop;
        segmentized_crop := segmentized_crop;
        greenpoint_sidewalks_png := greenpoint_sidewalks_png;
        greenpoint_sidewalks_segmentized_png := greenpoint_sidewalks_segmentized_png;
        sidewalk_segmentization_png := sidewalk_segmentization_png;
        segmentized_nyc_sidewalks_csv := segmentized_nyc_sidewalks_csv |}.
End Notebook.

(** ** An instance of the libraries in exact arithmetic, for running the
    notebook on examples

    - Segments are cut by the exact formulas [segment_count] and
      [point_along].
    - Simplification is Douglas-Peucker on LineStrings: the vertex farthest
      from the chord is kept when it lies beyond the tolerance, the section
      is replaced by its chord otherwise.
    - EPSG:32118 and EPSG:2263 are the same projection (NAD83 / New York Long
      Island) in metres and in US survey feet, so the transformation between
      them is the exact scaling by 3937/1200; coordinates of any other pair
      of distinct systems are passed through.
    - The spatial predicates are exact for points and lines against convex
      polygons; the union of polygons is the collection of their shells.
    - A ring is valid when it is closed and has at least four vertices.
    - The spatial index returns its hits in the order of the table.
    - Every aspect is taken to be a positive number. *)

(** Squared distance from [p] to the segment [a b]. *)
Definition seg_dist2 (a b p : point) : Qc :=
  let l2 := dist2 a b in
  if decide (l2 = 0) then dist2 a p
  else
    let r := ((px p - px a) * (px b - px a) + (py p - py a) * (py b - py a)) / l2 in
    if decide (r ≤ 0) then dist2 a p
    else if decide (1 ≤ r) then dist2 b p
    else
      let c := (px b - px a) * (py p - py a) - (py b - py a) * (px p - px a) in
      c * c / l2.

(** Position and squared distance of the first vertex farthest from [a b]. *)
Fixpoint farthest (a b : point) (mid : list point) : option (nat * Qc) :=
  match mid with
  | [] => None
  | p :: mid' =>
      let d := seg_dist2 a b p in
      match farthest a b mid' with
      | Some (k, d') => if decide (d' ≤ d) then Some (O, d) else Some (S k, d')
      | None => Some (O, d)
      end
  end.

(** The vertices kept after [a], up to and including [b]. *)
Fixpoint dp_section (fuel : nat) (tol2 : Qc) (a : point) (mid : list point) (b : point)
  : list point :=
  match fuel with
  | O => mid ++ [b]
  | S fuel' =>
      match farthest a b mid with
      | None => [b]
      | Some (k, d) =>
          if decide (d ≤ tol2) then [b]
          else
            match mid !! k with
            | Some p =>
                dp_section fuel' tol2 a (take k mid) p
                  ++ dp_section fuel' tol2 p (skipn (S k) mid) b
            | None => [b]
            end
      end
  end.

Definition douglas_peucker (tolerance : Qc) (cs : list point) : list point :=
  match cs with
  | [] => []
  | a :: rest =>
      match reverse rest with
      | [] => [a]
      | b :: rmid =>
          a :: dp_section (length rest) (tolerance * tolerance) a (reverse rmid) b
      end
  end.

Definition ref_simplify (tolerance : Qc) (g : geometry) : geometry :=
  match g with
  | LineString cs => LineString (douglas_peucker tolerance cs)
  | _ => g
  end.

Definition feet_per_metre : Qc := Qc_of_Z 3937 / Qc_of_Z 1200.

Definition scale (k : Qc) (p : point) : point := mkPoint (k * px p) (k * py p).

Definition ref_transform (src dst : CRS) (p : point) : point :=
  match src, dst with
  | EPSG 32118, EPSG 2263 => scale feet_per_metre p
  | EPSG 2263, EPSG 32118 => scale (/ feet_per_metre) p
  | _, _ => p
  end.

Definition cross (a b p : point) : Qc :=
  (px b - px a) * (py p - py a) - (py b - py a) * (px p - px a).

(** [p] is inside or on a convex ring: on the same side of every edge. *)
Definition covers_convex (ring : list point) (p : point) : bool :=
  forallb (λ e, bool_decide (0 ≤ cross e.1 e.2 p)) (adjacent ring)
  || forallb (λ e, bool_decide (cross e.1 e.2 p ≤ 0)) (adjacent ring).

Definition ref_within (g m : geometry) : bool :=
  match m with
  | Polygon ring => forallb (covers_convex ring) (coords g)
  | MultiPolygon rings => existsb (λ ring, forallb (covers_convex ring) (coords g)) rings
  | _ => false
  end.

Definition ref_intersects (g m : geometry) : bool :=
  match m with
  | Polygon ring => existsb (covers_convex ring) (coords g)
  | MultiPolygon rings => existsb (λ ring, existsb (covers_convex ring) (coords g)) rings
  | _ => false
  end.

Definition ref_union (gs : list geometry) : geometry :=
  MultiPolygon (g ← gs;
                match g with
                | Polygon ring => [ring]
                | MultiPolygon rings => rings
                | _ => []
                end).

Definition ref_vertex_along (a b : point) (j n : Z) : point :=
  point_along a b (Qc_of_Z j / Qc_of_Z n).

Definition ref_segmentize_area (max_segment_length : Qc) (g : geometry) : option geometry :=
  let ring shell :=
    remove_repeated (densify_with (segment_count max_segment_length) ref_vertex_along shell) in
  match g with
  | Polygon shell => Some (Polygon (ring shell))
  | MultiPolygon shells => Some (MultiPolygon (ring <$> shells))
  | _ => Some g
  end.

Definition ref_is_geographic (c : CRS) : bool :=
  match c with EPSG code => bool_decide (code ∈ [4326; 4269; 4267]%N) end.

Definition ref_crs_known (c : CRS) : bool :=
  match c with EPSG code => bool_decide (code ∈ [2263; 32118; 4326; 4269; 4267]%N) end.

(** A ring is closed and has at least four vertices; a line has two
    vertices that differ. *)
Definition ref_is_valid (g : geometry) : bool :=
  let ring_ok (ring : list point) :=
    bool_decide (4 ≤ length ring)%nat && bool_decide (head ring = last ring) in
  match g with
  | Polygon ring => ring_ok ring
  | MultiPolygon rings => forallb ring_ok rings
  | LineString cs => bool_decide (2 ≤ length (remove_repeated cs))%nat
  | Point _ | MultiPoint _ => true
  end.

Definition reference_library : GeoLib.
Proof.
  refine
    {| crs_known := ref_crs_known;
       transform := ref_transform;
       is_geographic := ref_is_geographic;
       simplify_geometry := ref_simplify;
       segment_parts := segment_count;
       vertex_along := ref_vertex_along;
       segmentize_area := ref_segmentize_area;
       is_valid := ref_is_valid;
       within := ref_within;
       intersects := ref_intersects;
       intersection := λ g _, g;
       unary_union := ref_union;
       sindex_query := λ gs q,
         filter (λ i, from_option (λ g, ref_intersects g q) false (gs !! i))
                (seq 0 (length gs));
       sindex_within := λ ls rs,
         filter (λ ik : nat * nat,
                   from_option (λ l, from_option (ref_within l) false (rs !! ik.2)) false
                               (ls !! ik.1))
                (i ← seq 0 (length ls); (λ k, (i, k)) <$> seq 0 (length rs));
       aspect_ok := λ _, true |}.
  - reflexivity.
  - reflexivity.
  - reflexivity.
  - intros S a. unfold segment_count.
    assert (dist2 a a = 0) as -> by (unfold dist2; ring).
    unfold Qcdiv. rewrite Qcmult_0_l. by vm_compute.
  - reflexivity.
  - reflexivity.
Defined.

(** ** Sample inputs *)

Definition square (x0 y0 x1 y1 : Z) : geometry :=
  Polygon [pt x0 y0; pt x1 y0; pt x1 y1; pt x0 y1; pt x0 y0].

Definition sample_ntas : GeoFile :=
  {| file_crs := None;
     file_columns := ["NTAName"];
     features := [([VStr "Greenpoint"], square 0 0 100 100);
                  ([VStr "Williamsburg"], square 100 0 300 100)] |}.

(** Three straight lines of lengths 10, 60 and 120. *)
Definition three_lines (c : CRS) : GeoFile :=
  {| file_crs := Some c;
     file_columns := ["width"; "street"];
     features := [([VInt 8; VStr "Java St"], LineString [pt 0 0; pt 10 0]);
                  ([VInt 12; VStr "Kent St"], LineString [pt 0 10; pt 60 10]);
                  ([VInt 15; VStr "India St"], LineString [pt 0 20; pt 120 20])] |}.

(** One line with a slight bend: lengths of about 20 on either side. *)
Definition bent_line : GeoFile :=
  {| file_crs := Some EPSG2263;
     file_columns := ["width"];
     features := [([VInt 8], LineString [pt 0 0; pt 20 1; pt 40 0])] |}.

(** One straight line of 40 metres in the metric twin of EPSG:2263. *)
Definition metric_line : GeoFile :=
  {| file_crs := Some (EPSG 32118);
     file_columns := ["width"];
     features := [([VInt 8], LineString [pt 0 0; pt 40 0])] |}.


(** A streets file without a crs member. *)
Definition undeclared_line : GeoFile :=
  {| file_crs := None;
     file_columns := ["width"];
     features := [([VInt 8], LineString [pt 0 0; pt 40 0])] |}.

(** A streets file with an attribute column named level_1. *)
Definition level_1_line : GeoFile :=
  {| file_crs := Some EPSG2263;
     file_columns := ["level_1"];
     features := [([VInt 8], LineString [pt 0 0; pt 40 0])] |}.

(** A streets file whose second line has length zero. *)
Definition zero_length_line : GeoFile :=
  {| file_crs := Some EPSG2263;
     file_columns := ["width"];
     features := [([VInt 8], LineString [pt 0 0; pt 40 0]);
                  ([VInt 9], LineString [pt 5 5; pt 5 5])] |}.

(** A boundary file without the column NTAName. *)
Definition unnamed_ntas : GeoFile :=
  {| file_crs := None;
     file_columns := ["BoroName"];
     features := [([VStr "Brooklyn"], square 0 0 100 100)] |}.

(** A boundary file without the neighborhood of interest. *)
Definition other_ntas : GeoFile :=
  {| file_crs := None;
     file_columns := ["NTAName"];
     features := [([VStr "Williamsburg"], square 100 0 300 100)] |}.

Definition sample_inputs (streets : GeoFile) : inputs :=
  {| nynta2020 := sample_ntas; Sidewalk := streets; sidewalkwidths_nyc := streets |}.

(** ** Vocabulary of the statements *)

Global Instance DataFrame_eq_dec : EqDecision DataFrame.
Proof. solve_decision. Defined.

Global Instance result_fmap : FMap result := λ A B f m,
  match m with
  | Ok a => Ok (f a)
  | Raise e => Raise e
  end.

Global Instance error_eq_dec : EqDecision error.
Proof. solve_decision. Defined.

Global Instance result_eq_dec {A} `{EqDecision A} : EqDecision (result A).
Proof. solve_decision. Defined.

(** A frame in the shape [read_file] produces and every step of the data
    path keeps: attribute columns [cols] followed by the geometry column,
    one record of attribute cells and a geometry per row. *)
Definition geo_frame (c : option CRS) (cols : list colname)
    (l : list (Z * (list cell * geometry))) : DataFrame :=
  {| crs := c;
     columns := cols ++ [geometry_col];
     rows := (λ r, (r.1, r.2.1 ++ [VGeom r.2.2])) <$> l |}.

Definition map_geometry (f : geometry → geometry)
    (l : list (Z * (list cell * geometry))) : list (Z * (list cell * geometry)) :=
  (λ r, (r.1, (r.2.1, f r.2.2))) <$> l.

Definition geometries (l : list (Z * (list cell * geometry))) : list geometry :=
  (λ r, r.2.2) <$> l.

(** The cells of a row outside the geometry column. *)
Definition non_geometry (df : DataFrame) (r : Z * list cell) : list cell :=
  drop_cells [geometry_col] (columns df) r.2.

(** The file that [USE_SIDEWALK_WIDTHS] selects. *)
Definition streets_file (USE_SIDEWALK_WIDTHS : bool) (fs : inputs) : GeoFile :=
  if USE_SIDEWALK_WIDTHS then sidewalkwidths_nyc fs else Sidewalk fs.

(** The reference system in which a GeoJSON file is read. *)
Definition declared_crs (f : GeoFile) : CRS := default EPSG4326 (file_crs f).

(** The type of the value in a cell. *)
Definition cell_kind (v : cell) : nat :=
  match v with
  | VInt _ => 0
  | VStr _ => 1
  | VNum _ => 2
  | VGeom _ => 3
  end.

(** Every attribute column holds values of one type, none of them a
    geometry: the reader gives a column one dtype. *)
Definition typed_columns (f : GeoFile) : bool :=
  match features f with
  | [] => true
  | ft0 :: rest =>
      forallb (λ v, negb (cell_kind v =? 3)%nat) ft0.1
      && forallb (λ ft : list cell * geometry,
                    bool_decide (cell_kind <$> ft.1 = cell_kind <$> ft0.1)) rest
  end.

(** A file is well formed when no attribute column has a reserved name, the
    column names differ from each other, every feature has one value per
    attribute column, and every column holds values of one type. *)
Definition file_ok (reserved : list string) (f : GeoFile) : bool :=
  forallb (λ s, bool_decide (s ∉ file_columns f)) reserved
  && forallb (λ ft : list cell * geometry,
                bool_decide (length ft.1 = length (file_columns f))) (features f)
  && bool_decide (NoDup (file_columns f))
  && typed_columns f.

(** A line that segmentize accepts: at least two vertices that differ. *)
Definition segmentizable (g : geometry) : bool :=
  match g with
  | LineString cs => bool_decide (2 ≤ length (remove_repeated cs))%nat
  | _ => false
  end.

(** A line string, and a line string with at least one vertex whose vertices
    are all at one location. *)
Definition is_line (g : geometry) : bool :=
  match g with
  | LineString _ => true
  | _ => false
  end.

Definition zero_length (g : geometry) : bool :=
  match g with
  | LineString cs => bool_decide (length (remove_repeated cs) = 1%nat)
  | _ => false
  end.

(** The rows that explode derives from the line labelled [i]. *)
Definition points_of_line (s : GeoSeries (Z * Z)) (i : Z) : list geometry :=
  snd <$> filter (λ it, it.1.1 = i) (items s).

(** The default index of a table of [n] rows. *)
Definition default_index (df : DataFrame) : Prop :=
  fst <$> rows df = Z.of_nat <$> seq 0 (length (rows df)).

(** ** Normal forms of the frames along the data path

    The definitions below name the value of each variable of a run in terms
    of the rows of the input files; the theorems show that the notebook
    computes exactly these values. *)

(** Attribute columns [cols] and rows [l] that fit each other. *)
Definition shaped (cols : list colname) (l : list (Z * (list cell * geometry))) : Prop :=
  (geometry_col ∉ cols) ∧ Forall (λ r, length r.2.1 = length cols) l.

Definition level_0 : colname := Name "level_0".

Definition level_1 : colname := Name "level_1".

(** Attribute columns that do not collide with the columns of the rejoin. *)
Definition cols_ok (cols : list colname) : Prop :=
  Forall (λ k, k ∉ [level_0; level_1; geometry_col; Num 0]) cols.

(** The frame after the merge of line 164. *)
Definition merged_frame (c : option CRS) (cols : list colname)
    (J : list (((Z * Z) * geometry) * (Z * (list cell * geometry)))) : DataFrame :=
  {| crs := c;
     columns := [level_0; level_1; Num 0] ++ (cols ++ [geometry_col]);
     rows := imap (λ k x, (Z.of_nat k,
               [VInt x.1.1.1; VInt x.1.1.2; VGeom x.1.2]
                 ++ (x.2.2.1 ++ [VGeom x.2.2.2]))) J |}.

(** The frame after the drop of line 164. *)
Definition dropped_frame (c : option CRS) (cols : list colname)
    (J : list (((Z * Z) * geometry) * (Z * (list cell * geometry)))) : DataFrame :=
  {| crs := c;
     columns := Num 0 :: cols;
     rows := imap (λ k x, (Z.of_nat k, VGeom x.1.2 :: x.2.2.1)) J |}.

(** The frame after the assignment of line 165. *)
Definition assigned_frame (c : option CRS) (cols : list colname)
    (J : list (((Z * Z) * geometry) * (Z * (list cell * geometry)))) : DataFrame :=
  {| crs := c;
     columns := (Num 0 :: cols) ++ [geometry_col];
     rows := imap (λ k x, (Z.of_nat k, (VGeom x.1.2 :: x.2.2.1) ++ [VGeom x.1.2])) J |}.

(** The frame after the drop of line 166: the parent's attributes followed by
    the point. *)
Definition rejoined_frame (c : option CRS) (cols : list colname)
    (J : list (((Z * Z) * geometry) * (Z * (list cell * geometry)))) : DataFrame :=
  geo_frame c cols (imap (λ k x, (Z.of_nat k, (x.2.2.1, x.1.2))) J).

(** The rows of a shapefile and of a GeoJSON file as they are read. *)
Definition file_rows (f : GeoFile) : list (Z * (list cell * geometry)) :=
  imap (λ i ft, (Z.of_nat i, ft)) (features f).

Definition geojson_rows (f : GeoFile) : list (Z * (list cell * geometry)) :=
  imap (λ i ft, (Z.of_nat i, (read_cell <$> ft.1, ft.2))) (features f).

Definition file_cols (f : GeoFile) : list colname := Name <$> file_columns f.

Definition noi_rows (ncols : list colname) (nl : list (Z * (list cell * geometry)))
  : list (Z * (list cell * geometry)) :=
  filter (λ r, get_col (Name "NTAName") (ncols ++ [geometry_col]) (r.2.1 ++ [VGeom r.2.2])
               = Some (VStr NOI)) nl.

(** The frame after the spatial join of line 77, from the matched pairs of a
    street row and a boundary row. *)
Definition crop_frame (c : option CRS) (cols ncols : list colname)
    (P : list ((Z * (list cell * geometry)) * (Z * (list cell * geometry)))) : DataFrame :=
  {| crs := c;
     columns := (cols ++ [geometry_col]) ++ [Name "index_right"] ++ ncols;
     rows := (λ x, (x.1.1, (x.1.2.1 ++ [VGeom x.1.2.2]) ++ [VInt x.2.1] ++ x.2.2.1)) <$> P |}.

Definition loaded_crs (flag : bool) (c : CRS) : CRS :=
  if flag then c else EPSG2263.

Section NormalForms.
Context `{GeoLib}.

(** Every exploded item together with the row of the line it comes from. *)
Definition joined (d : Qc) (l : list (Z * (list cell * geometry)))
  : list (((Z * Z) * geometry) * (Z * (list cell * geometry))) :=
  r ← l; imap (λ j part, (((r.1, Z.of_nat j), part), r)) (derived_points d r.2.2).

Definition point_rows (d : Qc) (l : list (Z * (list cell * geometry)))
  : list (Z * (list cell * geometry)) :=
  imap (λ k x, (Z.of_nat k, (x.2.2.1, x.1.2))) (joined d l).

(** A geometry as segmentize returns it. *)
Definition segmented (d : Qc) (g : geometry) : geometry :=
  match segmentize_geometry d g with
  | Ok g' => g'
  | Raise _ => g
  end.

Definition sjoin_pairs (l m : list (Z * (list cell * geometry)))
  : list ((Z * (list cell * geometry)) * (Z * (list cell * geometry))) :=
  omap (λ ik : nat * nat, a ← l !! ik.1; b ← m !! ik.2; Some (a, b))
       (sindex_within (geometries l) (geometries m)).

Definition clip_rows (l m : list (Z * (list cell * geometry)))
  : list (Z * (list cell * geometry)) :=
  if bool_decide (m = []) then []
  else omap (λ i : nat, l !! i) (sindex_query (geometries l) (unary_union (geometries m))).

(** What [to_crs] does to a geometry of a table in [c]. *)
Definition reprojection (c t : CRS) : geometry → geometry :=
  if decide (c = t) then id else map_coords (transform c t).

(** What [to_crs] does to a point of a table in [c]. *)
Definition reproject_point (c t : CRS) (p : point) : point :=
  if decide (c = t) then p else transform c t p.

Definition reproject (c target : CRS) (l : list (Z * (list cell * geometry)))
  : list (Z * (list cell * geometry)) :=
  if decide (c = target) then l
  else map_geometry (map_coords (transform c target)) l.

Definition prepared (flag : bool) (l : list (Z * (list cell * geometry)))
  : list (Z * (list cell * geometry)) :=
  if flag then l else map_geometry (simplify_geometry (Qc_of_Z 10)) l.

Definition loaded_rows (flag : bool) (c : CRS) (f : GeoFile)
  : list (Z * (list cell * geometry)) :=
  if flag then geojson_rows f else reproject c EPSG2263 (geojson_rows f).

(** A layer of a table in the reference system [c] can be drawn: [c] is
    not geographic, or the layer is not empty and its aspect is a positive
    number. *)
Definition drawable (c : CRS) (layer : list geometry) : bool :=
  negb (is_geographic c) || (negb (bool_decide (layer = [])) && aspect_ok layer).

(** The layers that the notebook draws in the reference system of the
    streets: the crop segmentized at spacing 10 (line 99), the crop and its
    simplification (lines 218 and 219). *)
Definition street_layers (l m : list (Z * (list cell * geometry))) : list (list geometry) :=
  [(λ x : (Z * (list cell * geometry)) * (Z * (list cell * geometry)),
      segmented (Qc_of_Z 10) x.1.2.2) <$> sjoin_pairs l m;
   (λ x : (Z * (list cell * geometry)) * (Z * (list cell * geometry)),
      x.1.2.2) <$> sjoin_pairs l m;
   (λ x : (Z * (list cell * geometry)) * (Z * (list cell * geometry)),
      simplify_geometry (Qc_of_Z 10) x.1.2.2) <$> sjoin_pairs l m].

Definition run_of (flag : bool) (c : CRS) (cols : list colname)
    (l : list (Z * (list cell * geometry)))
    (ncols : list colname) (nl : list (Z * (list cell * geometry))) : run :=
  let noi := noi_rows ncols nl in
  let pairs := sjoin_pairs l noi in
  let crop_layer := (λ x : (Z * (list cell * geometry)) * (Z * (list cell * geometry)),
                       x.1.2.2) <$> pairs in
  let streets := prepared flag l in
  let exploded := mkGeoSeries (Some c) (fst <$> joined (Qc_of_Z 50) streets) in
  let final := reproject c EPSG2263 (point_rows (Qc_of_Z 50) streets) in
  let clipped := clip_rows final noi in
  {| nyc_ntas := geo_frame (Some EPSG2263) ncols nl;
     nyc_streets_loaded := geo_frame (Some c) cols l;
     nyc_streets_crop := crop_frame (Some c) cols ncols pairs;
     nyc_streets_crop_simplified :=
       mkGeoSeries (Some c)
         ((λ x : (Z * (list cell * geometry)) * (Z * (list cell * geometry)),
             (x.1.1, simplify_geometry (Qc_of_Z 10) x.1.2.2)) <$> pairs);
     nyc_streets := geo_frame (Some c) cols streets;
     segmentized_exploded := exploded;
     segmentized_indexed := reset_index exploded;
     segmentized_rejoined := geo_frame (Some c) cols (point_rows (Qc_of_Z 50) streets);
     segmentized := geo_frame (Some EPSG2263) cols final;
     nta_crop := geo_frame (Some EPSG2263) ncols noi;
     segmentized_crop := geo_frame (Some EPSG2263) cols clipped;
     greenpoint_sidewalks_png :=
       [(λ x : (Z * (list cell * geometry)) * (Z * (list cell * geometry)),
           segmented (Qc_of_Z 10) x.1.2.2) <$> pairs];
     greenpoint_sidewalks_segmentized_png := [geometries noi; geometries clipped];
     sidewalk_segmentization_png :=
       [geometries noi; crop_layer;
        (λ x : (Z * (list cell * geometry)) * (Z * (list cell * geometry)),
           simplify_geometry (Qc_of_Z 10) x.1.2.2) <$> pairs;
        geometries noi; geometries clipped];
     segmentized_nyc_sidewalks_csv := to_csv (geo_frame (Some EPSG2263) cols final) |}.

(** The run of the notebook on the inputs [fs]. *)
Definition expected (flag : bool) (fs : inputs) : run :=
  run_of flag (loaded_crs flag (declared_crs (streets_file flag fs)))
    (file_cols (streets_file flag fs))
    (loaded_rows flag (declared_crs (streets_file flag fs)) (streets_file flag fs))
    (file_cols (nynta2020 fs)) (file_rows (nynta2020 fs)).

(** The files can be read and joined:
    - both files are well formed ([file_ok]) and have no column named after
      the geometry column or the index columns of the spatial join;
    - the boundary file has the column NTAName, shares no column name with
      the selected streets file, and holds valid geometries;
    - pyproj knows the reference system of the selected streets file, which
      has at least one feature. *)
Definition files_ok (USE_SIDEWALK_WIDTHS : bool) (fs : inputs) : bool :=
  let f := streets_file USE_SIDEWALK_WIDTHS fs in
  file_ok ["geometry"; "index_left"; "index_right"] f
  && file_ok ["geometry"; "index_left"; "index_right"] (nynta2020 fs)
  && bool_decide ("NTAName" ∈ file_columns (nynta2020 fs))
  && forallb (λ s, bool_decide (s ∉ file_columns (nynta2020 fs))) (file_columns f)
  && crs_known (declared_crs f)
  && forallb (λ ft : list cell * geometry, is_valid ft.2) (features (nynta2020 fs))
  && bool_decide (features f ≠ []).

(** A sufficient condition for the notebook to pass every cell:
    - the files can be read and joined ([files_ok]);
    - the selected streets file has no attribute column named after the
      index levels of the rejoin;
    - the layers in the reference system of the streets can be drawn: that
      system is not geographic, or the crop is not empty and the aspects are
      positive numbers (an empty layer in a geographic system makes the plot
      of line 99 raise);
    - every street geometry is a line with two vertices that differ, as it
      is loaded (line 99) and as it reaches line 136 (segmentize raises on a
      line whose vertices are all at one location). *)
Definition inputs_ok (USE_SIDEWALK_WIDTHS : bool) (fs : inputs) : bool :=
  let f := streets_file USE_SIDEWALK_WIDTHS fs in
  let c := declared_crs f in
  files_ok USE_SIDEWALK_WIDTHS fs
  && file_ok ["geometry"; "level_0"; "level_1"; "index_left"; "index_right"] f
  && forallb (drawable (loaded_crs USE_SIDEWALK_WIDTHS c))
       (street_layers (loaded_rows USE_SIDEWALK_WIDTHS c f)
          (noi_rows (file_cols (nynta2020 fs)) (file_rows (nynta2020 fs))))
  && forallb (λ r : Z * (list cell * geometry), segmentizable r.2.2)
       (loaded_rows USE_SIDEWALK_WIDTHS c f)
  && forallb (λ r : Z * (list cell * geometry), segmentizable r.2.2)
       (prepared USE_SIDEWALK_WIDTHS (loaded_rows USE_SIDEWALK_WIDTHS c f)).
End NormalForms.


(** Closed equalities of rationals are decided by evaluation. *)
Ltac by_compute := apply (bool_decide_eq_true_1 _); vm_compute; reflexivity.

(** * Properties *)

(** ** Exact arithmetic *)

Lemma Qc_square_nonneg (x : Qc) : 0 ≤ x * x.
Proof.
  destruct (Qclt_le_dec x 0) as [Hx|Hx].
  - replace (x * x) with ((-x) * (-x)) by ring.
    assert (0 ≤ -x) as Hn.
    { apply Qclt_le_weak in Hx. apply Qcopp_le_compat in Hx.
      by replace (-0) with 0 in Hx by ring. }
    rewrite <-(Qcmult_0_l (-x)). by apply Qcmult_le_compat_r.
  - rewrite <-(Qcmult_0_l x). by apply Qcmult_le_compat_r.
Qed.

Lemma dist2_nonneg a b : 0 ≤ dist2 a b.
Proof. unfold dist2. apply Qcplus_nonneg_nonneg; apply Qc_square_nonneg. Qed.

Lemma Qc_le_Q (x y : Qc) : x ≤ y ↔ (x <= y)%Q.
Proof. reflexivity. Qed.

Lemma Qceiling_bounds (q : Qc) :
  q ≤ Qc_of_Z (Qceiling q) ∧ Qc_of_Z (Qceiling q - 1) < q.
Proof.
  split.
  - unfold Qcle. simpl. apply Qle_ceiling.
  - unfold Qclt. simpl. apply Qceiling_lt.
Qed.

Lemma segment_count_nonneg S a b : (0 ≤ segment_count S a b)%Z.
Proof. apply Z.sqrt_up_nonneg. Qed.

Lemma Qcdiv_le_mult (x y z : Qc) : 0 < y → x / y ≤ z ↔ x ≤ z * y.
Proof.
  intros Hy. assert (y ≠ 0) as Hy0 by (by apply not_symmetry, Qclt_not_eq).
  split; intros Hle.
  - replace x with (x / y * y) by (field; done).
    apply Qcmult_le_compat_r; [done|by apply Qclt_le_weak].
  - apply (Qcmult_lt_0_le_reg_r _ _ y); [done|].
    by replace (x / y * y) with x by (field; done).
Qed.

Lemma Qcdiv_lt_mult (x y z : Qc) : 0 < y → z < x / y ↔ z * y < x.
Proof.
  intros Hy. rewrite !Qclt_nge. by rewrite Qcdiv_le_mult.
Qed.

Lemma Qc_square_pos (x : Qc) : 0 < x → 0 < x * x.
Proof.
  intros Hx. rewrite <-(Qcmult_0_l x). by apply Qcmult_lt_compat_r.
Qed.

Lemma segment_count_spec S a b :
  0 < S →
  let n := segment_count S a b in
  dist2 a b ≤ Qc_of_Z n * Qc_of_Z n * (S * S)
  ∧ ((0 < n)%Z → Qc_of_Z (n - 1) * Qc_of_Z (n - 1) * (S * S) < dist2 a b).
Proof.
  intros HS n. assert (0 < S * S) as HSS by (by apply Qc_square_pos).
  destruct (Qceiling_bounds (dist2 a b / (S * S))) as [Hup Hlo].
  set (m := Qceiling (dist2 a b / (S * S))%Qc) in *.
  assert (n = Z.sqrt_up m) as Hn by done.
  destruct (decide (0 < m)%Z) as [Hm|Hm].
  - destruct (Z.sqrt_up_spec m Hm) as [Hpred Hsq]. rewrite <-Hn in *.
    split.
    + apply Qcdiv_le_mult; [done|]. etrans; [done|].
      rewrite <-Z2Qc_inj_mul, <-Z2Qc_inj_le. done.
    + intros _. apply Qcdiv_lt_mult; [done|].
      eapply Qcle_lt_trans; [|done].
      rewrite <-Z2Qc_inj_mul, <-Z2Qc_inj_le.
      unfold Z.pred in Hpred. lia.
  - assert (n = 0%Z) as -> by (rewrite Hn; apply Z.sqrt_up_eqn0; lia).
    split; [|lia].
    apply Qcdiv_le_mult; [done|]. etrans; [done|].
    rewrite <-Z2Qc_inj_mul, <-Z2Qc_inj_le. lia.
Qed.



Lemma Qc_of_Z_ne_0 (n : Z) : n ≠ 0%Z → Qc_of_Z n ≠ 0.
Proof. intros Hn. by rewrite <-Z2Qc_inj_0, Z2Qc_inj_iff. Qed.


Lemma point_along_0 a b : point_along a b 0 = a.
Proof. destruct a as [ax ay]. unfold point_along; simpl. f_equal; ring. Qed.

Lemma point_along_1 a b : point_along a b 1 = b.
Proof. destruct b as [bx by']. unfold point_along; simpl. f_equal; ring. Qed.





Lemma exact_interior_nil a b n : (n ≤ 1)%Z → exact_interior a b n = [].
Proof. intros Hn. unfold exact_interior. by rewrite seqZ_nil by lia. Qed.

Lemma seqZ_one (m : Z) : seqZ m 1 = [m].
Proof. by rewrite seqZ_cons, seqZ_nil by lia. Qed.

Lemma segment_points a b (n : Z) :
  (1 ≤ n)%Z →
  a :: exact_interior a b n ++ [b]
  = (λ j, point_along a b (Qc_of_Z j / Qc_of_Z n)) <$> seqZ 0 (n + 1).
Proof.
  intros Hn. unfold exact_interior.
  replace (n + 1)%Z with (1 + ((n - 1) + 1))%Z by lia.
  rewrite (seqZ_app 0 1), (seqZ_app (0 + 1) (n - 1) 1), !seqZ_one by lia.
  rewrite !fmap_app, !list_fmap_singleton.
  change ([?x] ++ ?l) with (x :: l). f_equal; [|f_equal; f_equal].
  - rewrite Z2Qc_inj_0. unfold Qcdiv. by rewrite Qcmult_0_l, point_along_0.
  - replace (0 + 1 + (n - 1))%Z with n by lia.
    unfold Qcdiv. rewrite Qcmult_inv_r by (apply Qc_of_Z_ne_0; lia).
    by rewrite point_along_1.
Qed.






Lemma on_line_cons a cs p : cs ≠ [] → on_line cs p → on_line (a :: cs) p.
Proof.
  intros Hcs [Hp|(e&He&Hp)]; [left; by right|].
  right. exists e. split; [|done]. destruct cs; [done|]. by right.
Qed.





Lemma unique_from_id seen l :
  NoDup l → (∀ p, p ∈ l → p ∉ seen) → unique_from seen l = l.
Proof.
  revert seen. induction l as [|q l IH]; intros seen Hnd Hseen; simpl; [done|].
  apply NoDup_cons in Hnd as [Hq Hnd].
  rewrite decide_False by (apply Hseen; by left). f_equal.
  apply IH; [done|]. intros p Hp [->|Hps]%elem_of_cons; [done|].
  by apply (Hseen p); [right|].
Qed.

Lemma unique_id l : NoDup l → unique l = l.
Proof. intros Hnd. apply unique_from_id; [done|]. intros p _. apply not_elem_of_nil. Qed.

Lemma segment_count_short S a b :
  0 < S → dist2 a b ≤ S * S → (segment_count S a b ≤ 1)%Z.
Proof.
  intros HS Hd. destruct (segment_count_spec S a b HS) as [_ Hmin].
  pose proof (segment_count_nonneg S a b) as Hn0.
  set (n := segment_count S a b) in *.
  destruct (decide (n ≤ 1)%Z) as [|Hn]; [done|exfalso].
  assert (0 < n)%Z as Hpos by lia. specialize (Hmin Hpos).
  apply (Qclt_not_le _ _ Hmin). etrans; [exact Hd|].
  rewrite <-(Qcmult_1_l (S * S)) at 1.
  apply Qcmult_le_compat_r; [|apply Qc_square_nonneg].
  rewrite <-Z2Qc_inj_mul, <-Z2Qc_inj_1, <-Z2Qc_inj_le. nia.
Qed.

Lemma point_eq a b : px a = px b → py a = py b → a = b.
Proof. destruct a as [ax ay], b as [bx by']. cbn [px py]. by intros -> ->. Qed.

Lemma Qc_sub_eq_0 (s t : Qc) : s - t = 0 → s = t.
Proof. intros Hst. replace s with ((s - t) + t) by ring. rewrite Hst. ring. Qed.

Lemma point_along_inj a b s t :
  a ≠ b → point_along a b s = point_along a b t → s = t.
Proof.
  intros Hab Heq. pose proof (f_equal px Heq) as Hx. pose proof (f_equal py Heq) as Hy.
  unfold point_along in Hx, Hy. cbn [px py] in Hx, Hy.
  assert ((s - t) * (px b - px a) = 0) as Hx'.
  { replace ((s - t) * (px b - px a))
      with ((px a + s * (px b - px a)) - (px a + t * (px b - px a))) by ring.
    rewrite Hx. ring. }
  assert ((s - t) * (py b - py a) = 0) as Hy'.
  { replace ((s - t) * (py b - py a))
      with ((py a + s * (py b - py a)) - (py a + t * (py b - py a))) by ring.
    rewrite Hy. ring. }
  apply Qcmult_integral in Hx' as [?|Hdx]; [by apply Qc_sub_eq_0|].
  apply Qcmult_integral in Hy' as [?|Hdy]; [by apply Qc_sub_eq_0|].
  destruct Hab. apply point_eq; symmetry; by apply Qc_sub_eq_0.
Qed.

Lemma fraction_inj (j k n : Z) :
  n ≠ 0%Z → Qc_of_Z j / Qc_of_Z n = Qc_of_Z k / Qc_of_Z n → j = k.
Proof.
  intros Hn Heq. apply Qc_of_Z_ne_0 in Hn. apply Z2Qc_inj.
  replace (Qc_of_Z j) with (Qc_of_Z j / Qc_of_Z n * Qc_of_Z n) by (field; done).
  rewrite Heq. field. done.
Qed.

Lemma segment_NoDup a b (n : Z) : a ≠ b → NoDup (a :: exact_interior a b n ++ [b]).
Proof.
  intros Hab. destruct (decide (n ≤ 1)%Z) as [Hn|Hn].
  - rewrite exact_interior_nil by done. apply NoDup_cons. split.
    + by intros ->%list_elem_of_singleton.
    + apply NoDup_singleton.
  - rewrite segment_points by lia. apply NoDup_fmap_2_strong; [|apply NoDup_seqZ].
    intros j k _ _ Heq. apply point_along_inj in Heq; [|done].
    apply (fraction_inj j k n); [lia|done].
Qed.

Lemma dist2_diag a : dist2 a a = 0.
Proof. unfold dist2. ring. Qed.

Lemma dist2_pos_ne a b (d : Z) : (0 < d)%Z → dist2 a b = Qc_of_Z d → a ≠ b.
Proof.
  intros Hd Hab ->. rewrite dist2_diag in Hab.
  rewrite <-Z2Qc_inj_0 in Hab. apply Z2Qc_inj in Hab. lia.
Qed.

Lemma segment_count_of_dist2 S a b (d : Z) :
  dist2 a b = Qc_of_Z d →
  segment_count S a b = Z.sqrt_up (Qceiling (Qc_of_Z d / (S * S))%Qc).
Proof. intros Hd. unfold segment_count. by rewrite Hd. Qed.

(** ** Repeated vertices *)

Lemma remove_repeated_cons a b rest :
  remove_repeated (a :: b :: rest)
  = if decide (a = b) then remove_repeated (b :: rest) else a :: remove_repeated (b :: rest).
Proof. done. Qed.

Lemma remove_repeated_head b rest : ∃ l, remove_repeated (b :: rest) = b :: l.
Proof.
  revert b. induction rest as [|c rest IH]; intros b; [by exists []|].
  rewrite remove_repeated_cons. destruct (decide (b = c)) as [->|Hne]; [apply IH|].
  by eexists.
Qed.

Lemma elem_of_remove_repeated l p : p ∈ remove_repeated l ↔ p ∈ l.
Proof.
  induction l as [|a [|b rest] IH]; [done..|].
  rewrite remove_repeated_cons. destruct (decide (a = b)) as [->|Hne].
  - rewrite IH. split; [by right|]. by intros [->|?]%elem_of_cons; [left|].
  - by rewrite !(elem_of_cons _ p a), IH.
Qed.

Lemma remove_repeated_adjacent l :
  Forall (λ e : point * point, e.1 ≠ e.2) (adjacent (remove_repeated l)).
Proof.
  induction l as [|a [|b rest] IH]; [constructor..|].
  rewrite remove_repeated_cons. destruct (decide (a = b)) as [->|Hne]; [done|].
  destruct (remove_repeated_head b rest) as [l Hl]. rewrite Hl in *.
  change (adjacent (a :: b :: l)) with ((a, b) :: adjacent (b :: l)).
  by apply Forall_cons.
Qed.


Lemma remove_repeated_id l :
  Forall (λ e : point * point, e.1 ≠ e.2) (adjacent l) → remove_repeated l = l.
Proof.
  induction l as [|a [|b rest] IH]; [done..|].
  change (adjacent (a :: b :: rest)) with ((a, b) :: adjacent (b :: rest)).
  intros [Hab Hrest]%Forall_cons. rewrite remove_repeated_cons.
  rewrite decide_False by done. by rewrite IH.
Qed.

Lemma remove_repeated_sublist l : remove_repeated l `sublist_of` l.
Proof.
  induction l as [|a [|b rest] IH]; [done..|].
  rewrite remove_repeated_cons. destruct (decide (a = b)) as [->|Hne].
  - by apply sublist_cons.
  - by apply sublist_skip.
Qed.



Lemma remove_repeated_two l p q :
  p ∈ l → q ∈ l → p ≠ q → (2 ≤ length (remove_repeated l))%nat.
Proof.
  intros Hp%elem_of_remove_repeated Hq%elem_of_remove_repeated Hpq.
  destruct (remove_repeated l) as [|x [|y l']]; [by apply elem_of_nil in Hp| |cbn; lia].
  apply list_elem_of_singleton in Hp, Hq. congruence.
Qed.

Lemma adjacent_elem_of {A} (l : list A) (e : A * A) :
  e ∈ adjacent l → e.1 ∈ l ∧ e.2 ∈ l.
Proof.
  induction l as [|a [|b rest] IH]; [by intros ?%elem_of_nil..|].
  change (adjacent (a :: b :: rest)) with ((a, b) :: adjacent (b :: rest)).
  intros [->|He]%elem_of_cons.
  - split; [by left|right; by left].
  - destruct (IH He). split; by right.
Qed.

Lemma remove_repeated_length_two l :
  (2 ≤ length (remove_repeated l))%nat → ∃ p q, p ∈ l ∧ q ∈ l ∧ p ≠ q.
Proof.
  intros Hlen. pose proof (remove_repeated_adjacent l) as Hadj.
  assert (∀ p, p ∈ remove_repeated l → p ∈ l) as Hin
    by (intros p; apply elem_of_remove_repeated).
  destruct (remove_repeated l) as [|x [|y l']]; [cbn in Hlen; lia..|].
  change (adjacent (x :: y :: l')) with ((x, y) :: adjacent (y :: l')) in Hadj.
  apply Forall_cons in Hadj as [Hxy _]. exists x, y.
  split_and!; [apply Hin; by left|apply Hin; right; by left|done].
Qed.

Lemma remove_repeated_all_equal l a :
  l ≠ [] → (∀ p, p ∈ l → p = a) → remove_repeated l = [a].
Proof.
  induction l as [|x [|y rest] IH]; [done| |].
  - intros _ Hall. by rewrite (Hall x) by (by left).
  - intros _ Hall. rewrite remove_repeated_cons.
    assert (x = a) as -> by (apply Hall; by left).
    assert (y = a) as -> by (apply Hall; right; by left).
    rewrite decide_True by done. apply IH; [done|].
    intros p Hp. apply Hall. by right.
Qed.

Lemma NoDup_adjacent (l : list point) :
  NoDup l → Forall (λ e : point * point, e.1 ≠ e.2) (adjacent l).
Proof.
  induction l as [|a [|b rest] IH]; [constructor..|].
  change (adjacent (a :: b :: rest)) with ((a, b) :: adjacent (b :: rest)).
  intros [Ha Hnd]%NoDup_cons. apply Forall_cons. split; [|by apply IH].
  cbn. intros ->. apply Ha. by left.
Qed.

(** ** The vertices of a segmentized line *)

Section Densify.
Context `{GeoLib}.

Local Abbreviation raw S := (densify_with (segment_parts S) vertex_along).

Lemma raw_cons S a b rest :
  raw S (a :: b :: rest) = a :: interior S a b ++ raw S (b :: rest).
Proof. done. Qed.

Lemma raw_head S b rest : ∃ l, raw S (b :: rest) = b :: l.
Proof.
  destruct rest as [|c rest]; [by exists []|].
  rewrite raw_cons. by eexists.
Qed.


Lemma interior_same S a : interior S a a = [].
Proof.
  unfold interior. pose proof (segment_parts_same S a). by rewrite seqZ_nil by lia.
Qed.

Lemma length_interior S a b :
  length (interior S a b) = Z.to_nat (segment_parts S a b - 1).
Proof. unfold interior. by rewrite length_fmap, length_seqZ. Qed.

Lemma elem_of_raw S cs p :
  p ∈ raw S cs ↔ p ∈ cs ∨ ∃ e, e ∈ adjacent cs ∧ p ∈ interior S e.1 e.2.
Proof.
  induction cs as [|a [|b rest] IH].
  - split; [by intros ?%elem_of_nil|].
    by intros [?%elem_of_nil|(e&?%elem_of_nil&_)].
  - split; [by left|]. by intros [?|(e&?%elem_of_nil&_)].
  - rewrite raw_cons.
    change (adjacent (a :: b :: rest)) with ((a, b) :: adjacent (b :: rest)).
    rewrite elem_of_cons, elem_of_app, IH. split.
    + intros [->|[Hp|[Hp|(e&He&Hp)]]].
      * left. by left.
      * right. exists (a, b). split; [by left|done].
      * left. by right.
      * right. exists e. split; [by right|done].
    + intros [[->|Hp]%elem_of_cons|(e&[->|He]%elem_of_cons&Hp)].
      * by left.
      * right. right. by left.
      * right. by left.
      * right. right. right. eauto.
Qed.








Lemma densify_length_two S cs p q :
  p ∈ cs → q ∈ cs → p ≠ q → (2 ≤ length (densify S cs))%nat.
Proof.
  intros Hp Hq Hpq. apply (remove_repeated_two _ p q); [..|done];
    apply elem_of_raw; by left.
Qed.

Lemma segmentize_line S cs p q :
  p ∈ cs → q ∈ cs → p ≠ q →
  segmentize_geometry S (LineString cs) = Ok (LineString (densify S cs)).
Proof.
  intros Hp Hq Hpq. pose proof (densify_length_two S cs p q Hp Hq Hpq) as Hlen.
  unfold segmentize_geometry.
  destruct (densify S cs) as [|x [|y l]]; [cbn in Hlen; lia..|done].
Qed.

Lemma densify_point_line S cs a :
  cs ≠ [] → (∀ p, p ∈ cs → p = a) → densify S cs = [a].
Proof.
  intros Hcs Hall. apply remove_repeated_all_equal.
  - destruct cs as [|x rest]; [done|]. by destruct (raw_head S x rest) as [l ->].
  - intros p [Hp|(e&He&Hp)]%elem_of_raw; [by apply Hall|].
    apply adjacent_elem_of in He as [H1 H2].
    apply Hall in H1, H2. rewrite H1, H2, interior_same in Hp.
    by apply elem_of_nil in Hp.
Qed.

Lemma segmentize_point_line S cs a :
  cs ≠ [] → (∀ p, p ∈ cs → p = a) →
  segmentize_geometry S (LineString cs)
  = Raise (GEOSException "point array must contain 0 or >1 elements").
Proof.
  intros Hcs Hall. unfold segmentize_geometry.
  by rewrite (densify_point_line S cs a).
Qed.

Lemma segmentizable_spec g :
  segmentizable g = true → ∃ cs p q, g = LineString cs ∧ p ∈ cs ∧ q ∈ cs ∧ p ≠ q.
Proof.
  destruct g as [|cs| | |]; try done. cbn.
  intros Hlen%bool_decide_eq_true_1.
  destruct (remove_repeated_length_two cs Hlen) as (p&q&?&?&?). eauto 10.
Qed.

Lemma segmentizable_segmented S g :
  segmentizable g = true → segmentize_geometry S g = Ok (segmented S g).
Proof.
  intros (cs&p&q&->&Hp&Hq&Hpq)%segmentizable_spec.
  unfold segmented. by rewrite (segmentize_line S cs p q).
Qed.

Lemma derived_points_line S cs p q :
  p ∈ cs → q ∈ cs → p ≠ q →
  derived_points S (LineString cs) = Point <$> unique (densify S cs).
Proof.
  intros Hp Hq Hpq. unfold derived_points.
  by rewrite (segmentize_line S cs p q).
Qed.

Lemma derived_points_are_points d g : Forall (λ p, is_point p) (derived_points d g).
Proof.
  unfold derived_points. destruct (segmentize_geometry d g) as [g'|]; [|constructor].
  unfold extract_unique_points_geometry. cbn [get_parts].
  apply Forall_fmap, Forall_forall. by intros p _.
Qed.


(** ** A library that cuts as exact arithmetic does *)





Lemma cut_as_exact_ne S a b : cut_as_exact S a b → a ≠ b.
Proof.
  intros [_ [Ha _]%NoDup_cons] ->. apply Ha, elem_of_app. right. by left.
Qed.

Lemma densify_segment S a b :
  cut_as_exact S a b → densify S [a; b] = a :: interior S a b ++ [b].
Proof.
  intros [_ Hnd]. unfold densify. rewrite raw_cons.
  by apply remove_repeated_id, NoDup_adjacent.
Qed.

Lemma derived_points_segment S a b :
  cut_as_exact S a b →
  derived_points S (LineString [a; b]) = Point <$> (a :: interior S a b ++ [b]).
Proof.
  intros Hcut. pose proof (cut_as_exact_ne S a b Hcut) as Hab.
  rewrite (derived_points_line S [a; b] a b); [|by left|right; by left|done].
  rewrite densify_segment by done. destruct Hcut as [_ Hnd]. by rewrite unique_id.
Qed.

Lemma derived_points_segment_length S a b :
  cut_as_exact S a b →
  length (derived_points S (LineString [a; b]))
  = (2 + Z.to_nat (segment_count S a b - 1))%nat.
Proof.
  intros Hcut. rewrite derived_points_segment by done. destruct Hcut as [Hn _].
  rewrite length_fmap. cbn [length]. rewrite length_app, length_interior, Hn.
  cbn [length]. lia.
Qed.
End Densify.

(** ** Tables *)

Lemma traverse_ok {A B} (f : A → result B) (g : A → B) (l : list A) :
  Forall (λ a, f a = Ok (g a)) l → traverse f l = Ok (g <$> l).
Proof.
  induction 1 as [|a l Ha _ IH]; [done|].
  cbn [traverse]. rewrite Ha. cbn. rewrite IH. done.
Qed.


Lemma get_col_app_r c cols cols' a a' :
  c ∉ cols → length a = length cols →
  get_col c (cols ++ cols') (a ++ a') = get_col c cols' a'.
Proof.
  revert a. induction cols as [|k cols IH]; intros [|v a] Hc Hlen; try done.
  apply not_elem_of_cons in Hc as [Hck Hc]. cbn [app get_col].
  rewrite decide_False by done. apply IH; [done|]. cbn in Hlen. lia.
Qed.

Lemma set_col_app_r c v cols cols' a a' :
  c ∉ cols → length a = length cols →
  set_col c v (cols ++ cols') (a ++ a') = a ++ set_col c v cols' a'.
Proof.
  revert a. induction cols as [|k cols IH]; intros [|w a] Hc Hlen; try done.
  apply not_elem_of_cons in Hc as [Hck Hc]. cbn [app set_col].
  rewrite decide_False by done. f_equal. apply IH; [done|]. cbn in Hlen. lia.
Qed.

Lemma drop_cells_app labels cols cols' a a' :
  length a = length cols →
  drop_cells labels (cols ++ cols') (a ++ a')
  = drop_cells labels cols a ++ drop_cells labels cols' a'.
Proof.
  revert a. induction cols as [|k cols IH]; intros [|v a] Hlen; try done.
  cbn [app drop_cells]. cbn in Hlen.
  destruct (decide (k ∈ labels)); [apply IH; lia|].
  cbn [app]. f_equal. apply IH. lia.
Qed.

Lemma drop_cells_keep labels cols a :
  Forall (λ k, k ∉ labels) cols → length a = length cols →
  drop_cells labels cols a = a.
Proof.
  intros Hall. revert a. induction Hall as [|k cols Hk _ IH]; intros [|v a] Hlen; try done.
  cbn [drop_cells]. rewrite decide_False by done. f_equal. apply IH. cbn in Hlen. lia.
Qed.

Lemma filter_keep {A} (P : A → Prop) `{!∀ x, Decision (P x)} (l : list A) :
  Forall P l → filter P l = l.
Proof.
  induction 1 as [|x l Hx _ IH]; [done|].
  rewrite filter_cons_True by done. by f_equal.
Qed.

Lemma shaped_map_geometry f cols l : shaped cols l → shaped cols (map_geometry f l).
Proof.
  intros [Hg Hal]. split; [done|]. unfold map_geometry.
  apply Forall_fmap. by eapply Forall_impl.
Qed.

Lemma shaped_sub cols l l' : l' ⊆ l → shaped cols l → shaped cols l'.
Proof.
  intros Hsub [Hg Hal]. split; [done|]. rewrite Forall_forall in *. auto.
Qed.

Lemma get_geometry cols a g :
  geometry_col ∉ cols → length a = length cols →
  get_col geometry_col (cols ++ [geometry_col]) (a ++ [VGeom g]) = Some (VGeom g).
Proof.
  intros Hg Hlen. rewrite get_col_app_r by done. cbn [get_col].
  by rewrite decide_True.
Qed.

Lemma geometry_series_geo_frame c cols l :
  shaped cols l →
  geometry_series (geo_frame c cols l) = Ok (mkGeoSeries c ((λ r, (r.1, r.2.2)) <$> l)).
Proof.
  intros [Hg Hal]. unfold geometry_series, geo_frame. cbn [columns rows crs].
  rewrite decide_True by (apply elem_of_app; right; by left).
  rewrite (traverse_ok _ (λ r, (r.1, match get_col geometry_col (cols ++ [geometry_col]) r.2 with Some (VGeom g) => g | _ => Point (pt 0 0) end))).
  - cbn. do 2 f_equal. rewrite <-list_fmap_compose. apply Forall_fmap_ext.
    eapply Forall_impl; [exact Hal|]. intros [i [a g]] Hlen. cbn in *.
    by rewrite get_geometry.
  - apply Forall_fmap. eapply Forall_impl; [exact Hal|].
    intros [i [a g]] Hlen. cbn in *. unfold row_geometry. cbn.
    by rewrite get_geometry.
Qed.

Lemma geometry_in_columns cols : geometry_col ∈ cols ++ [geometry_col].
Proof. apply elem_of_app. right. by left. Qed.

Lemma setitem_geometry c cols l (f : geometry → geometry) :
  shaped cols l →
  setitem geometry_col ((λ r, VGeom (f r.2.2)) <$> l) (geo_frame c cols l)
  = geo_frame c cols (map_geometry f l).
Proof.
  intros [Hg Hal]. unfold setitem, geo_frame, map_geometry.
  cbn [columns rows crs].
  rewrite decide_True by apply geometry_in_columns. f_equal.
  rewrite zip_with_fmap_l, zip_with_fmap_r, zip_with_diag.
  rewrite <-list_fmap_compose. apply Forall_fmap_ext.
  eapply Forall_impl; [exact Hal|]. intros [i [a g]] Hlen. cbn in *.
  rewrite set_col_app_r by done. cbn [set_col]. by rewrite decide_True.
Qed.

Lemma values_fmap {I} c (h : Z * (list cell * geometry) → I * geometry) l :
  values (mkGeoSeries c (h <$> l)) = (λ r, VGeom (h r).2) <$> l.
Proof. unfold values. cbn [items]. by rewrite <-list_fmap_compose. Qed.

Lemma shaped_length cols l r : shaped cols l → r ∈ l → length r.2.1 = length cols.
Proof. intros [_ Hal] Hr. rewrite Forall_forall in Hal. by apply Hal. Qed.

Lemma rows_geo_frame c cols l :
  rows (geo_frame c cols l) = (λ r, (r.1, r.2.1 ++ [VGeom r.2.2])) <$> l.
Proof. done. Qed.

Lemma columns_geo_frame c cols l : columns (geo_frame c cols l) = cols ++ [geometry_col].
Proof. done. Qed.

Lemma geometry_series_crop_frame c cols ncols P :
  geometry_col ∉ cols →
  Forall (λ x : (Z * (list cell * geometry)) * (Z * (list cell * geometry)),
            length x.1.2.1 = length cols) P →
  geometry_series (crop_frame c cols ncols P)
  = Ok (mkGeoSeries c ((λ x, (x.1.1, x.1.2.2)) <$> P)).
Proof.
  intros Hg Hal. unfold geometry_series, crop_frame. cbn [columns rows crs].
  rewrite decide_True by (apply elem_of_app; left; apply geometry_in_columns).
  rewrite (traverse_ok _ (λ r, (r.1, match get_col geometry_col
                                         ((cols ++ [geometry_col]) ++ [Name "index_right"] ++ ncols)
                                         r.2 with
                                     | Some (VGeom g) => g | _ => Point (pt 0 0) end))).
  - cbn. do 2 f_equal. rewrite <-list_fmap_compose. apply Forall_fmap_ext.
    eapply Forall_impl; [exact Hal|]. intros [[i [a g]] mm] Hlen. cbn in *.
    rewrite <-!app_assoc, get_col_app_r by done. cbn [app get_col].
    by rewrite decide_True.
  - apply Forall_fmap. eapply Forall_impl; [exact Hal|].
    intros [[i [a g]] mm] Hlen. cbn in *. unfold row_geometry. cbn [fst snd].
    rewrite <-!app_assoc, get_col_app_r by done. cbn [app get_col].
    by rewrite decide_True.
Qed.

Section WithLibraryFacts.
Context `{GeoLib}.

Lemma simplify_series df s tol :
  geometry_series df = Ok s → simplify tol df = Ok (map_series (simplify_geometry tol) s).
Proof. intros Hs. unfold simplify. by rewrite Hs. Qed.

Lemma segmentize_series df s d :
  geometry_series df = Ok s →
  Forall (λ it : Z * geometry, segmentizable it.2) (items s) →
  segmentize d df = Ok (map_series (segmented d) s).
Proof.
  intros Hs Hseg. unfold segmentize. rewrite Hs. cbn [mbind result_bind].
  rewrite (traverse_ok _ (prod_map id (segmented d))); [done|].
  eapply Forall_impl; [exact Hseg|]. intros [i g] Hg. cbn [fst snd] in *.
  by rewrite segmentizable_segmented by (by apply Is_true_true).
Qed.

Lemma plot_projected {I} (s : GeoSeries I) :
  from_option is_geographic false (series_crs s) = false → plot s = Ok (snd <$> items s).
Proof. intros Hc. unfold plot. by rewrite Hc. Qed.

Lemma plot_frame_series df s :
  geometry_series df = Ok s →
  from_option is_geographic false (series_crs s) = false →
  plot_frame df = Ok (snd <$> items s).
Proof.
  intros Hs Hc. unfold plot_frame. rewrite Hs. cbn [mbind result_bind].
  by apply plot_projected.
Qed.

Lemma plot_empty_geographic {I} (s : GeoSeries I) c :
  series_crs s = Some c → is_geographic c = true → items s = [] →
  plot s = Raise (ValueError "aspect must be finite and positive").
Proof. intros Hc Hg Hs. unfold plot. by rewrite Hc, Hs; cbn; rewrite Hg. Qed.

Lemma simplify_geo_frame tol c cols l :
  shaped cols l →
  simplify tol (geo_frame c cols l)
  = Ok (mkGeoSeries c ((λ r, (r.1, simplify_geometry tol r.2.2)) <$> l)).
Proof.
  intros Hs. unfold simplify. rewrite geometry_series_geo_frame by done.
  cbn. unfold map_series. cbn [items series_crs]. by rewrite <-list_fmap_compose.
Qed.

Lemma to_crs_geo_frame target c cols l :
  shaped cols l →
  to_crs target (geo_frame (Some c) cols l)
  = Ok (if decide (c = target) then geo_frame (Some c) cols l
        else geo_frame (Some target) cols
               (map_geometry (map_coords (transform c target)) l)).
Proof.
  intros Hs. unfold to_crs. rewrite geometry_series_geo_frame by done.
  cbn [mbind result_bind]. change (crs (geo_frame (Some c) cols l)) with (Some c).
  cbv beta iota. destruct (decide (c = target)) as [->|Hne]; [done|]. f_equal.
  change {| crs := Some target; columns := columns (geo_frame (Some c) cols l);
            rows := rows (geo_frame (Some c) cols l) |}
    with (geo_frame (Some target) cols l).
  unfold map_series. cbn [items series_crs]. rewrite <-list_fmap_compose.
  rewrite values_fmap.
  exact (setitem_geometry (Some target) cols l (map_coords (transform c target)) Hs).
Qed.

Lemma to_crs_naive target cols l :
  shaped cols l →
  to_crs target (geo_frame None cols l)
  = Raise (ValueError "Cannot transform naive geometries").
Proof.
  intros Hs. unfold to_crs. by rewrite geometry_series_geo_frame by done.
Qed.

Lemma apply_simplification_geo_frame flag c cols l :
  shaped cols l →
  apply_simplification flag (geo_frame c cols l)
  = Ok (if flag then geo_frame c cols l
        else geo_frame c cols (map_geometry (simplify_geometry (Qc_of_Z 10)) l)).
Proof.
  intros Hs. unfold apply_simplification. destruct flag; [done|].
  cbn [negb]. rewrite simplify_geo_frame by done. cbn [mbind result_bind].
  rewrite values_fmap. f_equal.
  exact (setitem_geometry c cols l (simplify_geometry (Qc_of_Z 10)) Hs).
Qed.

Lemma segmentize_geo_frame d c cols l :
  shaped cols l → Forall (λ r : Z * (list cell * geometry), segmentizable r.2.2) l →
  segmentize d (geo_frame c cols l)
  = Ok (mkGeoSeries c ((λ r, (r.1, segmented d r.2.2)) <$> l)).
Proof.
  intros Hs Hseg.
  rewrite (segmentize_series _ _ d (geometry_series_geo_frame c cols l Hs)).
  - unfold map_series. cbn [items series_crs]. by rewrite <-list_fmap_compose.
  - cbn [items]. by apply Forall_fmap.
Qed.
End WithLibraryFacts.

Lemma read_file_geo_frame f :
  read_file f
  = geo_frame (file_crs f) (Name <$> file_columns f)
      (imap (λ i ft, (Z.of_nat i, ft)) (features f)).
Proof.
  unfold read_file, geo_frame. f_equal. rewrite fmap_imap. apply imap_ext.
  by intros i [a g] _.
Qed.

Lemma file_ok_spec reserved f :
  file_ok reserved f = true →
  Forall (λ s, s ∉ file_columns f) reserved
  ∧ Forall (λ ft : list cell * geometry, length ft.1 = length (file_columns f)) (features f).
Proof.
  unfold file_ok. intros [[[H1 H2]%andb_prop _]%andb_prop _]%andb_prop. split.
  - apply Forall_forall. intros s Hs.
    rewrite forallb_forall in H1.
    exact (bool_decide_eq_true_1 _ (H1 s (proj1 (list_elem_of_In _ _) Hs))).
  - apply Forall_forall. intros ft Hft.
    rewrite forallb_forall in H2.
    exact (bool_decide_eq_true_1 _ (H2 ft (proj1 (list_elem_of_In _ _) Hft))).
Qed.

Lemma Name_notin (s : string) (cols : list string) : s ∉ cols → Name s ∉ (Name <$> cols).
Proof. intros Hs (t&[= ->]&Ht)%list_elem_of_fmap. done. Qed.

Lemma Num_notin (n : Z) (cols : list string) : Num n ∉ (Name <$> cols).
Proof. by intros (t&?&Ht)%list_elem_of_fmap. Qed.

Lemma bind_fmap_list {A B C} (f : A → B) (g : B → list C) (l : list A) :
  (f <$> l) ≫= g = l ≫= (g ∘ f).
Proof. induction l as [|a l IH]; [done|]. cbn. by rewrite IH. Qed.

Lemma fmap_bind_list {A B C} (f : A → list B) (g : B → C) (l : list A) :
  g <$> (l ≫= f) = l ≫= (λ a, g <$> f a).
Proof.
  induction l as [|a l IH]; [done|]. cbn. by rewrite fmap_app, IH.
Qed.

Lemma bind_ext_list {A B} (f g : A → list B) (l : list A) :
  (∀ a, a ∈ l → f a = g a) → l ≫= f = l ≫= g.
Proof.
  induction l as [|a l IH]; intros Hfg; [done|]. cbn.
  rewrite Hfg by (by left). rewrite IH; [done|]. intros b Hb. apply Hfg. by right.
Qed.

Lemma read_file_geojson_geo_frame f :
  read_file_geojson f = geo_frame (Some (declared_crs f)) (file_cols f) (geojson_rows f).
Proof.
  unfold read_file_geojson, geo_frame, geojson_rows. f_equal.
  rewrite fmap_imap. apply imap_ext. by intros i [a g] _.
Qed.

Lemma filter_none {A} (P : A → Prop) `{!∀ x, Decision (P x)} (l : list A) :
  Forall (λ x, ¬ P x) l → filter P l = [].
Proof.
  induction 1 as [|x l Hx _ IH]; [done|]. by rewrite filter_cons_False.
Qed.

Lemma filter_label_rows {B} (G : Z * (list cell * geometry) → B) l r :
  NoDup (l.*1) → r ∈ l →
  filter (λ x : Z * B, x.1 = r.1) ((λ r, (r.1, G r)) <$> l) = [(r.1, G r)].
Proof.
  induction l as [|r' l IH]; [by intros _ ?%elem_of_nil|].
  rewrite !fmap_cons. intros [Hr' Hnd]%NoDup_cons [->|Hr]%elem_of_cons.
  - rewrite filter_cons_True by done. f_equal.
    apply filter_none, Forall_fmap, Forall_forall. intros x Hx Heq. cbn in Heq.
    apply Hr'. rewrite <-Heq. apply list_elem_of_fmap. eauto.
  - rewrite filter_cons_False; [by apply IH|].
    cbn. intros Heq. apply Hr'. rewrite Heq. apply list_elem_of_fmap. eauto.
Qed.

Lemma bind_imap_singleton {A B C} (F : nat → A → B) (K : B → list C)
    (R : nat → A → C) (l : list A) :
  (∀ k a, l !! k = Some a → K (F k a) = [R k a]) →
  imap F l ≫= K = imap R l.
Proof.
  revert F R. induction l as [|a l IH]; intros F R HK; [done|].
  cbn. rewrite (HK 0%nat a) by done. cbn. f_equal.
  apply IH. intros k b Hk. by apply (HK (S k)).
Qed.

Lemma cols_ok_notin cols k :
  cols_ok cols → k ∈ [level_0; level_1; geometry_col; Num 0] → k ∉ cols.
Proof.
  intros Hok Hk Hin. unfold cols_ok in Hok. rewrite Forall_forall in Hok.
  by apply (Hok k).
Qed.

Lemma suffixed_id sfx others c : c ∉ others → suffixed sfx others c = c.
Proof. intros Hc. unfold suffixed. by rewrite decide_False. Qed.

Lemma fmap_id_on {A} (f : A → A) (l : list A) :
  Forall (λ x, f x = x) l → f <$> l = l.
Proof. induction 1 as [|x l Hx _ IH]; [done|]. cbn. by rewrite Hx, IH. Qed.

Lemma drop_ok labels df :
  Forall (λ c, c ∈ columns df) labels →
  drop labels df
  = Ok {| crs := crs df;
          columns := filter (λ c, c ∉ labels) (columns df);
          rows := (λ r, (r.1, drop_cells labels (columns df) r.2)) <$> rows df |}.
Proof.
  intros Hall. unfold drop. rewrite filter_none; [done|].
  eapply Forall_impl; [exact Hall|]. by intros c Hc Hn.
Qed.

Lemma zip_with_imap_fmap {A B C D} (f : B → C → D) (F : nat → A → B) (G : A → C)
    (l : list A) :
  zip_with f (imap F l) (G <$> l) = imap (λ k x, f (F k x) (G x)) l.
Proof.
  revert F. induction l as [|a l IH]; intros F; [done|].
  cbn. f_equal. apply IH.
Qed.

Section Rejoin.
Context (c c' : option CRS) (cols : list colname)
        (l : list (Z * (list cell * geometry)))
        (J : list (((Z * Z) * geometry) * (Z * (list cell * geometry)))).
Hypothesis Hshaped : shaped cols l.
Hypothesis Hcols : cols_ok cols.
Hypothesis Hlabels : NoDup (l.*1).
Hypothesis Hparent : ∀ x, x ∈ J → x.2 ∈ l ∧ x.1.1.1 = x.2.1.

Local Abbreviation merged := (merged_frame c cols J).
Local Abbreviation dropped := (dropped_frame c cols J).
Local Abbreviation assigned := (assigned_frame c cols J).
Local Abbreviation rejoined := (rejoined_frame c cols J).

Lemma get_level_0 v1 v2 v3 :
  get_col level_0 [level_0; level_1; Num 0] [v1; v2; v3] = Some v1.
Proof. reflexivity. Qed.

Lemma parent_length x : x ∈ J → length x.2.2.1 = length cols.
Proof.
  intros [Hx _]%Hparent. destruct Hshaped as [_ Hal].
  rewrite Forall_forall in Hal. by apply Hal.
Qed.

Lemma merge_rejoin :
  merge (reset_index (mkGeoSeries c (fst <$> J))) (geo_frame c' cols l) level_0
  = Ok merged.
Proof.
  unfold merge, reset_index, merged_frame. cbn [columns rows crs series_crs items].
  rewrite decide_True by (by left). f_equal. f_equal.
  - f_equal.
    + apply fmap_id_on.
      repeat (apply Forall_cons_2;
                [apply suffixed_id;
                 intros [Hin|Hin%list_elem_of_singleton]%elem_of_app; [|done];
                 revert Hin; apply cols_ok_notin; [done|by_compute]|]).
      apply Forall_nil_2.
    + apply fmap_id_on, Forall_app. split.
      * apply Forall_forall. intros k Hk. apply suffixed_id. intros Hin.
        eapply cols_ok_notin; [done| |exact Hk].
        apply elem_of_cons in Hin as [->|Hin]; [by_compute|].
        apply elem_of_cons in Hin as [->|Hin]; [by_compute|].
        apply list_elem_of_singleton in Hin as ->. by_compute.
      * apply Forall_cons_2; [|apply Forall_nil_2]. apply suffixed_id. by_compute.
  - rewrite imap_fmap. apply bind_imap_singleton.
    intros k [[[i j] part] r] Hk. cbn [fst snd compose].
    rewrite get_level_0.
    destruct (Hparent _ (list_elem_of_lookup_2 _ _ _ Hk)) as [Hr Hi].
    cbn in Hr, Hi. subst i.
    change (rows (geo_frame c' cols l))
      with ((λ r : Z * (list cell * geometry), (r.1, r.2.1 ++ [VGeom r.2.2])) <$> l).
    by rewrite (filter_label_rows (λ r, r.2.1 ++ [VGeom r.2.2]) l r).
Qed.

Lemma drop_rejoin : drop [level_0; level_1; geometry_col] merged = Ok dropped.
Proof.
  rewrite drop_ok.
  2:{ cbn [columns merged_frame]. repeat (apply Forall_cons_2; [|]); [..|apply Forall_nil_2].
      - by left.
      - right. by left.
      - apply elem_of_app. right. apply geometry_in_columns. }
  unfold merged_frame, dropped_frame. cbn [columns rows crs]. f_equal. f_equal.
  - rewrite filter_app, filter_app.
    change (filter (λ c0, c0 ∉ [level_0; level_1; geometry_col]) [level_0; level_1; Num 0])
      with [Num 0].
    change (filter (λ c0, c0 ∉ [level_0; level_1; geometry_col]) [geometry_col])
      with (@nil colname).
    rewrite filter_keep; [by rewrite app_nil_r|].
    eapply Forall_impl; [exact Hcols|]. intros k Hk Hin. apply Hk.
    apply elem_of_cons in Hin as [->|Hin]; [by_compute|].
    apply elem_of_cons in Hin as [->|Hin]; [by_compute|].
    apply list_elem_of_singleton in Hin as ->. by_compute.
  - rewrite fmap_imap. apply imap_ext. intros k x Hk. cbn [compose fst snd]. f_equal.
    pose proof (parent_length x (list_elem_of_lookup_2 _ _ _ Hk)) as Hlen.
    rewrite (drop_cells_app _ [level_0; level_1; Num 0]) by done.
    rewrite drop_cells_app by done.
    change (drop_cells ?ls [level_0; level_1; Num 0] [?v1; ?v2; ?v3]) with [v3].
    change (drop_cells ?ls [geometry_col] [?v]) with (@nil cell).
    rewrite drop_cells_keep; [by rewrite app_nil_r| |done].
    eapply Forall_impl; [exact Hcols|]. intros c0 Hc0 Hin. apply Hc0.
    apply elem_of_cons in Hin as [->|Hin]; [by_compute|].
    apply elem_of_cons in Hin as [->|Hin]; [by_compute|].
    apply list_elem_of_singleton in Hin as ->. by_compute.
Qed.

Lemma iloc_rejoin : iloc_col0 dropped = Ok ((λ x, VGeom x.1.2) <$> J).
Proof.
  unfold iloc_col0, dropped_frame. cbn [columns rows].
  rewrite (traverse_ok _ (λ r, match r.2 with v :: _ => v | [] => VInt 0 end)).
  - f_equal. rewrite fmap_imap. by rewrite <-(imap_const (λ x, VGeom x.1.2)).
  - apply Forall_forall. by intros r (k&x&->&_)%elem_of_lookup_imap.
Qed.

Lemma setitem_rejoin :
  setitem geometry_col ((λ x, VGeom x.1.2) <$> J) dropped = assigned.
Proof.
  unfold setitem, dropped_frame, assigned_frame. cbn [columns rows crs].
  rewrite decide_False.
  - f_equal. by rewrite zip_with_imap_fmap.
  - intros [Hin|Hin]%elem_of_cons; [done|]. revert Hin.
    apply cols_ok_notin; [done|by_compute].
Qed.

Lemma drop_first_rejoin : drop_first_column assigned = Ok rejoined.
Proof.
  unfold drop_first_column. cbn [columns assigned_frame app].
  rewrite drop_ok by (apply Forall_cons_2; [by left|apply Forall_nil_2]).
  unfold assigned_frame, rejoined_frame, geo_frame. cbn [columns rows crs]. f_equal. f_equal.
  - change ((Num 0 :: cols) ++ [geometry_col]) with ([Num 0] ++ (cols ++ [geometry_col])).
    rewrite filter_app, filter_app.
    change (filter (λ c0, c0 ∉ [Num 0]) [Num 0]) with (@nil colname).
    change (filter (λ c0, c0 ∉ [Num 0]) [geometry_col]) with [geometry_col].
    rewrite filter_keep; [done|].
    eapply Forall_impl; [exact Hcols|]. intros k Hk Hin. apply Hk.
    apply list_elem_of_singleton in Hin as ->. by_compute.
  - rewrite !fmap_imap. apply imap_ext. intros k x Hk. cbn [compose fst snd]. f_equal.
    pose proof (parent_length x (list_elem_of_lookup_2 _ _ _ Hk)) as Hlen.
    change ((Num 0 :: cols) ++ [geometry_col]) with ([Num 0] ++ (cols ++ [geometry_col])).
    change ((VGeom x.1.2 :: x.2.2.1) ++ [VGeom x.1.2])
      with ([VGeom x.1.2] ++ (x.2.2.1 ++ [VGeom x.1.2])).
    rewrite (drop_cells_app _ [Num 0]) by done.
    rewrite drop_cells_app by done.
    change (drop_cells [Num 0] [Num 0] [?v]) with (@nil cell).
    change (drop_cells [Num 0] [geometry_col] [?v]) with [v].
    rewrite drop_cells_keep; [done| |done].
    eapply Forall_impl; [exact Hcols|]. intros c0 Hc0 Hin. apply Hc0.
    apply list_elem_of_singleton in Hin as ->. by_compute.
Qed.

Lemma rejoin_steps :
  rejoin (reset_index (mkGeoSeries c (fst <$> J))) (geo_frame c' cols l) = Ok rejoined.
Proof.
  unfold rejoin. change (Name "level_0") with level_0.
  change (Name "level_1") with level_1. rewrite merge_rejoin.
  cbn [mbind result_bind]. rewrite drop_rejoin. cbn [mbind result_bind].
  rewrite iloc_rejoin. cbn [mbind result_bind].
  rewrite setitem_rejoin. apply drop_first_rejoin.
Qed.
End Rejoin.

Lemma filter_fmap_list {A B} (P : B → Prop) `{!∀ x, Decision (P x)} (f : A → B) (l : list A) :
  filter P (f <$> l) = f <$> filter (λ a, P (f a)) l.
Proof.
  induction l as [|a l IH]; [done|]. rewrite fmap_cons, !filter_cons.
  destruct (decide (P (f a))); by rewrite IH.
Qed.

Lemma filter_subseteq {A} (P : A → Prop) `{!∀ x, Decision (P x)} (l : list A) :
  filter P l ⊆ l.
Proof. intros x Hx. by apply list_elem_of_filter in Hx as [_ ?]. Qed.

Lemma omap_filter {A B} (P : A → bool) (h : A → B) (l : list A) :
  omap (λ a, if P a then Some (h a) else None) l = h <$> filter (λ a, P a) l.
Proof.
  induction l as [|a l IH]; [done|]. cbn [omap list_omap]. rewrite filter_cons.
  destruct (P a) eqn:HP.
  - rewrite decide_True by exact I. cbn. by rewrite IH.
  - rewrite decide_False by (intros []). by rewrite IH.
Qed.

Lemma select_eq_geo_frame e k v c cols l :
  k ∈ cols ++ [geometry_col] →
  select_eq e k v (geo_frame c cols l)
  = Ok (geo_frame c cols
          (filter (λ r, get_col k (cols ++ [geometry_col]) (r.2.1 ++ [VGeom r.2.2]) = Some v) l)).
Proof.
  intros Hk. unfold select_eq, geo_frame. cbn [columns rows crs].
  rewrite decide_True by done. f_equal. f_equal.
  by rewrite filter_fmap_list.
Qed.

Lemma omap_fmap_list {A B C} (f : B → option C) (g : A → B) (l : list A) :
  omap f (g <$> l) = omap (f ∘ g) l.
Proof.
  induction l as [|a l IH]; [done|]. cbn. by rewrite IH.
Qed.

Lemma omap_ext_Forall {A B} (f g : A → option B) (l : list A) :
  Forall (λ a, f a = g a) l → omap f l = omap g l.
Proof.
  induction 1 as [|a l Ha _ IH]; [done|]. cbn. by rewrite Ha, IH.
Qed.

(** ** The steps of the notebook on frames in normal form *)

Lemma omap_fmap_option {A B C} (g : A → option B) (h : B → C) (l : list A) :
  omap (λ a, h <$> g a) l = h <$> omap g l.
Proof.
  induction l as [|a l IH]; [done|]. cbn. destruct (g a) as [b|]; cbn; by rewrite IH.
Qed.

Lemma length_omap_le {A B} (g : A → option B) (l : list A) :
  (length (omap g l) ≤ length l)%nat.
Proof. induction l as [|a l IH]; [done|]. cbn. destruct (g a); cbn; lia. Qed.

Lemma elem_of_omap_lookup {A} (l : list A) (ixs : list nat) x :
  x ∈ omap (λ i : nat, l !! i) ixs ↔ ∃ i, i ∈ ixs ∧ l !! i = Some x.
Proof. by rewrite list_elem_of_omap. Qed.

Lemma geometries_lookup l i :
  geometries l !! i = (λ r : Z * (list cell * geometry), r.2.2) <$> l !! i.
Proof. unfold geometries. by rewrite list_lookup_fmap. Qed.

Lemma length_geometries l : length (geometries l) = length l.
Proof. unfold geometries. by rewrite length_fmap. Qed.

Section Steps.
Context `{GeoLib}.

Lemma joined_parent d l x : x ∈ joined d l → x.2 ∈ l ∧ x.1.1.1 = x.2.1.
Proof.
  unfold joined. intros (r&Hx&Hr)%list_elem_of_bind.
  apply elem_of_lookup_imap in Hx as (j&part&->&_). done.
Qed.

Lemma derived_points_segmented d g :
  segmentizable g = true →
  get_parts (extract_unique_points_geometry (segmented d g)) = derived_points d g.
Proof.
  intros Hg. unfold derived_points. by rewrite segmentizable_segmented.
Qed.

Lemma segmentize_explode_geo_frame c cols l :
  shaped cols l → Forall (λ r : Z * (list cell * geometry), segmentizable r.2.2) l →
  segmentize_explode (geo_frame c cols l)
  = Ok (mkGeoSeries c (fst <$> joined (Qc_of_Z 50) l)).
Proof.
  intros Hs Hseg. unfold segmentize_explode. rewrite segmentize_geo_frame by done.
  cbn [mbind result_bind]. f_equal.
  unfold explode, extract_unique_points, map_series, joined.
  cbn [items series_crs]. f_equal.
  rewrite <-list_fmap_compose, bind_fmap_list, fmap_bind_list.
  apply bind_ext_list. intros [i [a g]] Hr. cbn [fst snd compose prod_map id].
  rewrite Forall_forall in Hseg. specialize (Hseg _ Hr). cbn in Hseg.
  rewrite derived_points_segmented by (by apply Is_true_true).
  rewrite fmap_imap. by apply imap_ext.
Qed.

Lemma point_rows_are_points d l :
  Forall (λ r : Z * (list cell * geometry), is_point r.2.2) (point_rows d l).
Proof.
  apply Forall_forall. intros r (k&x&->&Hk)%elem_of_lookup_imap. cbn.
  apply list_elem_of_lookup_2 in Hk. unfold joined in Hk.
  apply list_elem_of_bind in Hk as (r'&Hx&_).
  apply elem_of_lookup_imap in Hx as (j&part&->&Hj). cbn.
  pose proof (derived_points_are_points d r'.2.2) as Hall.
  rewrite Forall_forall in Hall. apply Hall. by eapply list_elem_of_lookup_2.
Qed.

Lemma shaped_point_rows d cols l : shaped cols l → shaped cols (point_rows d l).
Proof.
  intros [Hg Hal]. split; [done|].
  apply Forall_forall. intros r (k&x&->&Hk)%elem_of_lookup_imap. cbn.
  apply list_elem_of_lookup_2, joined_parent in Hk as [Hx _].
  rewrite Forall_forall in Hal. by apply Hal.
Qed.

Lemma shaped_prepared flag cols l : shaped cols l → shaped cols (prepared flag l).
Proof. destruct flag; [done|]. apply shaped_map_geometry. Qed.

Lemma shaped_reproject c t cols l : shaped cols l → shaped cols (reproject c t l).
Proof. unfold reproject. destruct (decide _); [done|]. apply shaped_map_geometry. Qed.

Lemma map_geometry_labels f l : (map_geometry f l).*1 = l.*1.
Proof. unfold map_geometry. rewrite <-list_fmap_compose. done. Qed.

Lemma prepared_labels flag l : (prepared flag l).*1 = l.*1.
Proof. destruct flag; [done|]. apply map_geometry_labels. Qed.

Lemma reproject_labels c t l : (reproject c t l).*1 = l.*1.
Proof. unfold reproject. destruct (decide _); [done|]. apply map_geometry_labels. Qed.

Lemma to_crs_reproject target c cols l :
  shaped cols l →
  to_crs target (geo_frame (Some c) cols l)
  = Ok (geo_frame (Some target) cols (reproject c target l)).
Proof.
  intros Hs. rewrite to_crs_geo_frame by done. unfold reproject.
  by destruct (decide (c = target)) as [->|].
Qed.

Lemma reproject_points c t l :
  Forall (λ r : Z * (list cell * geometry), is_point r.2.2) l →
  Forall (λ r : Z * (list cell * geometry), is_point r.2.2) (reproject c t l).
Proof.
  intros Hall. unfold reproject. destruct (decide _); [done|].
  unfold map_geometry. apply Forall_fmap. eapply Forall_impl; [exact Hall|].
  intros [i [a g]]. cbn. by destruct g.
Qed.

(** *** The spatial join of line 77 *)

Lemma sjoin_pairs_elem l m x :
  x ∈ sjoin_pairs l m
  ↔ x.1 ∈ l ∧ x.2 ∈ m ∧ within x.1.2.2 x.2.2.2 = true
    ∧ ∃ i k, l !! i = Some x.1 ∧ m !! k = Some x.2.
Proof.
  unfold sjoin_pairs. rewrite list_elem_of_omap. split.
  - intros ([i k]&Hik&Hx). rewrite sindex_within_spec in Hik.
    apply list_elem_of_filter in Hik as [Hw _]. cbn [fst snd] in *.
    unfold geometries in Hw. rewrite !list_lookup_fmap in Hw.
    destruct (l !! i) as [a|] eqn:Ha; [|done].
    destruct (m !! k) as [b|] eqn:Hb; [|done].
    cbn in Hx, Hw. injection Hx as <-. cbn [fst snd].
    split_and!; [by eapply list_elem_of_lookup_2..|by apply Is_true_true|eauto].
  - intros (_&_&Hw&i&k&Hi&Hk). exists (i, k). cbn [fst snd].
    rewrite Hi, Hk. split; [|by destruct x].
    rewrite sindex_within_spec. apply list_elem_of_filter. split.
    + cbn [fst snd]. unfold geometries. rewrite !list_lookup_fmap, Hi, Hk. cbn.
      by apply Is_true_true.
    + apply list_elem_of_bind. exists i. split.
      * apply list_elem_of_fmap. exists k. split; [done|].
        apply elem_of_seq. apply lookup_lt_Some in Hk.
        unfold geometries. rewrite length_fmap. lia.
      * apply elem_of_seq. apply lookup_lt_Some in Hi.
        unfold geometries. rewrite length_fmap. lia.
Qed.

Lemma sjoin_pairs_left l m x : x ∈ sjoin_pairs l m → x.1 ∈ l.
Proof. by intros (?&_)%sjoin_pairs_elem. Qed.

Lemma sjoin_pairs_nil l : sjoin_pairs l [] = [].
Proof.
  unfold sjoin_pairs.
  assert (sindex_within (geometries l) (geometries []) = []) as ->; [|done].
  apply Permutation_nil_r. rewrite sindex_within_spec. cbn [geometries fmap list_fmap length seq].
  induction (seq 0 (length (geometries l))) as [|i ixs IH]; [done|].
  rewrite bind_cons. cbn [fmap list_fmap app]. exact IH.
Qed.

Lemma sjoin_geo_frame c cols l c' ncols m :
  shaped cols l → shaped ncols m →
  Forall (λ k, k ∉ [Name "index_left"; Name "index_right"]) (cols ++ ncols) →
  Forall (λ k, k ∉ ncols) cols →
  sjoin_within (geo_frame c cols l) (geo_frame c' ncols m)
  = Ok (crop_frame c cols ncols (sjoin_pairs l m)).
Proof.
  intros Hl Hm Hres Hdis. unfold sjoin_within.
  rewrite bool_decide_eq_false_2.
  2:{ rewrite !columns_geo_frame, Exists_exists. intros (k&Hk&Hin).
      rewrite Forall_forall in Hres.
      apply elem_of_app in Hk as [Hk|Hk];
        apply elem_of_app in Hk as [Hk|Hk%list_elem_of_singleton].
      - apply (Hres k); [apply elem_of_app; by left|done].
      - subst k. apply elem_of_cons in Hin as [?|Hin]; [done|].
        by apply list_elem_of_singleton in Hin.
      - apply (Hres k); [apply elem_of_app; by right|done].
      - subst k. apply elem_of_cons in Hin as [?|Hin]; [done|].
        by apply list_elem_of_singleton in Hin. }
  rewrite !geometry_series_geo_frame by done. cbn [mbind result_bind].
  rewrite !columns_geo_frame. cbn [crs geo_frame items].
  destruct Hl as [Hgl Hall], Hm as [Hgm Halm].
  assert (filter (λ k, k ≠ geometry_col) (ncols ++ [geometry_col]) = ncols) as ->.
  { rewrite filter_app, filter_keep.
    - rewrite filter_cons_False by (by intros Hne). by rewrite filter_nil, app_nil_r.
    - apply Forall_forall. by intros k Hk ->. }
  rewrite (fmap_id_on (suffixed "_left" ncols)).
  2:{ apply Forall_app. split.
      - eapply Forall_impl; [exact Hdis|]. intros k Hk. by apply suffixed_id.
      - apply Forall_cons. split; [by apply suffixed_id|constructor]. }
  rewrite (fmap_id_on (suffixed "_right" (cols ++ [geometry_col]))).
  2:{ apply Forall_forall. intros k Hk. apply suffixed_id.
      rewrite Forall_forall in Hdis.
      intros [Hin|Hin%list_elem_of_singleton]%elem_of_app; [by apply (Hdis k)|].
      subst k. by destruct Hgm. }
  unfold crop_frame, sjoin_pairs. f_equal. f_equal.
  rewrite <-omap_fmap_option.
  replace (snd <$> ((λ r : Z * (list cell * geometry), (r.1, r.2.2)) <$> l))
    with (geometries l) by (unfold geometries; by rewrite <-list_fmap_compose).
  replace (snd <$> ((λ r : Z * (list cell * geometry), (r.1, r.2.2)) <$> m))
    with (geometries m) by (unfold geometries; by rewrite <-list_fmap_compose).
  apply omap_ext_Forall, Forall_forall. intros [i k] _. cbn [fst snd].
  rewrite !rows_geo_frame, !list_lookup_fmap.
  destruct (l !! i) as [a|] eqn:Ha; [|done]. cbn.
  destruct (m !! k) as [b|] eqn:Hb; [|done]. cbn.
  rewrite Forall_forall in Halm.
  rewrite drop_cells_app by (apply Halm; by eapply list_elem_of_lookup_2).
  change (drop_cells [geometry_col] [geometry_col] [VGeom b.2.2]) with (@nil cell).
  rewrite app_nil_r, drop_cells_keep; [done| |apply Halm; by eapply list_elem_of_lookup_2].
  apply Forall_forall. by intros k' Hk' ->%list_elem_of_singleton.
Qed.

Lemma geometry_series_crop c cols ncols l m :
  shaped cols l →
  geometry_series (crop_frame c cols ncols (sjoin_pairs l m))
  = Ok (mkGeoSeries c ((λ x, (x.1.1, x.1.2.2)) <$> sjoin_pairs l m)).
Proof.
  intros [Hg Hal]. apply geometry_series_crop_frame; [done|].
  apply Forall_forall. intros x Hx%sjoin_pairs_left.
  rewrite Forall_forall in Hal. by apply Hal.
Qed.

(** *** The clip of line 186 *)

Lemma clip_rows_elem l m r :
  r ∈ clip_rows l m
  ↔ r ∈ l ∧ m ≠ [] ∧ intersects r.2.2 (unary_union (geometries m)) = true.
Proof.
  unfold clip_rows. destruct (decide (m = [])) as [->|Hm].
  - rewrite bool_decide_eq_true_2 by done. split; [by intros ?%elem_of_nil|by intros (_&?&_)].
  - rewrite bool_decide_eq_false_2 by done. rewrite list_elem_of_omap. split.
    + intros (i&Hi&Hr). rewrite sindex_query_spec in Hi.
      apply list_elem_of_filter in Hi as [Hq _].
      rewrite geometries_lookup, Hr in Hq. cbn in Hq.
      split_and!; [by eapply list_elem_of_lookup_2|done|by apply Is_true_true].
    + intros (Hr&_&Hq). apply list_elem_of_lookup_1 in Hr as [i Hi].
      exists i. split; [|done]. rewrite sindex_query_spec.
      apply list_elem_of_filter. split.
      * rewrite geometries_lookup, Hi. cbn. by apply Is_true_true.
      * apply elem_of_seq. apply lookup_lt_Some in Hi.
        rewrite length_geometries. lia.
Qed.

Lemma omap_lookup_labels_NoDup (l : list (Z * (list cell * geometry))) (ixs : list nat) :
  NoDup ixs → NoDup (l.*1) → NoDup (omap (λ i : nat, l !! i) ixs).*1.
Proof.
  intros Hixs Hl. induction Hixs as [|i ixs Hi _ IH]; [constructor|].
  cbn [omap list_omap]. destruct (l !! i) as [x|] eqn:Hx; [|exact IH].
  rewrite fmap_cons. apply NoDup_cons. split; [|exact IH].
  intros (y&Hxy&Hy)%list_elem_of_fmap.
  apply elem_of_omap_lookup in Hy as (j&Hj&Hy).
  assert (i = j) as ->; [|done].
  apply (NoDup_lookup (l.*1) i j x.1); [done| |].
  - by rewrite list_lookup_fmap, Hx.
  - by rewrite list_lookup_fmap, Hy, Hxy.
Qed.

Lemma clip_rows_labels_NoDup l m : NoDup (l.*1) → NoDup (clip_rows l m).*1.
Proof.
  intros Hl. unfold clip_rows. destruct (bool_decide (m = [])); [constructor|].
  apply omap_lookup_labels_NoDup; [|done].
  rewrite sindex_query_spec. apply NoDup_filter, NoDup_seq.
Qed.

Lemma clip_rows_sub l m : clip_rows l m ⊆ l.
Proof. by intros r (?&_)%clip_rows_elem. Qed.

Lemma clip_rows_length l m : (length (clip_rows l m) ≤ length l)%nat.
Proof.
  unfold clip_rows. destruct (bool_decide (m = [])); [cbn; lia|].
  etrans; [apply length_omap_le|].
  rewrite sindex_query_spec. etrans; [apply length_filter|].
  by rewrite length_seq, length_geometries.
Qed.

Lemma clip_geo_frame c cols l c' ncols m :
  shaped cols l → shaped ncols m →
  Forall (λ r : Z * (list cell * geometry), is_point r.2.2) l →
  clip (geo_frame c cols l) (geo_frame c' ncols m)
  = Ok (geo_frame c cols (clip_rows l m)).
Proof.
  intros Hl Hm Hpts. unfold clip. rewrite !geometry_series_geo_frame by done.
  cbn [mbind result_bind items]. unfold clip_rows.
  destruct m as [|b m]; [done|].
  rewrite !bool_decide_eq_false_2 by done.
  unfold geo_frame. cbn [columns rows crs]. f_equal. f_equal.
  rewrite <-omap_fmap_option.
  replace (snd <$> ((λ r : Z * (list cell * geometry), (r.1, r.2.2)) <$> l))
    with (geometries l) by (unfold geometries; by rewrite <-list_fmap_compose).
  replace (snd <$> ((λ r : Z * (list cell * geometry), (r.1, r.2.2)) <$> (b :: m)))
    with (geometries (b :: m)) by (unfold geometries; by rewrite <-list_fmap_compose).
  apply omap_ext_Forall, Forall_forall. intros i _.
  rewrite zip_with_fmap_l, zip_with_fmap_r, zip_with_diag, list_lookup_fmap.
  destruct (l !! i) as [r|] eqn:Hr; [|done]. cbn.
  rewrite Forall_forall in Hpts.
  pose proof (Hpts r (list_elem_of_lookup_2 _ _ _ Hr)) as Hp.
  by destruct (is_point r.2.2).
Qed.
End Steps.

(** ** A run of the notebook *)

Section Run.
Context `{GeoLib}.

Lemma plot_fmap {I A} (c : CRS) (h : A → I * geometry) (L : list A) :
  is_geographic c = false →
  plot (mkGeoSeries (Some c) (h <$> L)) = Ok ((λ x, (h x).2) <$> L).
Proof.
  intros Hc. rewrite plot_projected by done. cbn [items].
  by rewrite <-list_fmap_compose.
Qed.

Lemma drawable_projected c layer : is_geographic c = false → drawable c layer = true.
Proof. unfold drawable. by intros ->. Qed.

Lemma plot_drawable {I A} (c : CRS) (h : A → I * geometry) (L : list A) :
  drawable c ((λ x, (h x).2) <$> L) = true →
  plot (mkGeoSeries (Some c) (h <$> L)) = Ok ((λ x, (h x).2) <$> L).
Proof.
  unfold plot, drawable. cbn [series_crs items from_option].
  rewrite <-list_fmap_compose.
  change (snd ∘ h) with (λ x, (h x).2).
  destruct (is_geographic c); [|done]. cbn [negb orb].
  intros [Hne Hasp]%andb_prop. apply negb_true_iff in Hne.
  by rewrite Hne, Hasp.
Qed.

Lemma street_layers_drawable c l m :
  forallb (drawable c) (street_layers l m) = true →
  drawable c ((λ x : (Z * (list cell * geometry)) * (Z * (list cell * geometry)),
                 segmented (Qc_of_Z 10) x.1.2.2) <$> sjoin_pairs l m) = true
  ∧ drawable c ((λ x : (Z * (list cell * geometry)) * (Z * (list cell * geometry)),
                   x.1.2.2) <$> sjoin_pairs l m) = true
  ∧ drawable c ((λ x : (Z * (list cell * geometry)) * (Z * (list cell * geometry)),
                   simplify_geometry (Qc_of_Z 10) x.1.2.2) <$> sjoin_pairs l m) = true.
Proof.
  unfold street_layers. cbn [forallb].
  intros [H1 [H2 [H3 _]%andb_prop]%andb_prop]%andb_prop. done.
Qed.

Lemma plot_frame_geo_frame c cols l :
  shaped cols l → is_geographic c = false →
  plot_frame (geo_frame (Some c) cols l) = Ok (geometries l).
Proof.
  intros Hs Hc. unfold plot_frame. rewrite geometry_series_geo_frame by done.
  cbn [mbind result_bind]. by rewrite plot_fmap.
Qed.

Lemma plot_frame_crop c cols ncols l m :
  shaped cols l →
  drawable c ((λ x : (Z * (list cell * geometry)) * (Z * (list cell * geometry)),
                 x.1.2.2) <$> sjoin_pairs l m) = true →
  plot_frame (crop_frame (Some c) cols ncols (sjoin_pairs l m))
  = Ok ((λ x, x.1.2.2) <$> sjoin_pairs l m).
Proof.
  intros Hs Hc. unfold plot_frame. rewrite geometry_series_crop by done.
  cbn [mbind result_bind].
  exact (plot_drawable c
           (λ x : (Z * (list cell * geometry)) * (Z * (list cell * geometry)),
              (x.1.1, x.1.2.2)) _ Hc).
Qed.

Lemma simplify_crop c cols ncols l m tol :
  shaped cols l →
  simplify tol (crop_frame c cols ncols (sjoin_pairs l m))
  = Ok (mkGeoSeries c ((λ x, (x.1.1, simplify_geometry tol x.1.2.2)) <$> sjoin_pairs l m)).
Proof.
  intros Hs. rewrite (simplify_series _ _ tol (geometry_series_crop c cols ncols l m Hs)).
  unfold map_series. cbn [items series_crs]. by rewrite <-list_fmap_compose.
Qed.

Lemma segmentize_crop c cols ncols l m d :
  shaped cols l → Forall (λ r : Z * (list cell * geometry), segmentizable r.2.2) l →
  segmentize d (crop_frame c cols ncols (sjoin_pairs l m))
  = Ok (mkGeoSeries c ((λ x, (x.1.1, segmented d x.1.2.2)) <$> sjoin_pairs l m)).
Proof.
  intros Hs Hseg.
  rewrite (segmentize_series _ _ d (geometry_series_crop c cols ncols l m Hs)).
  - unfold map_series. cbn [items series_crs]. by rewrite <-list_fmap_compose.
  - cbn [items]. apply Forall_fmap, Forall_forall. intros x Hx%sjoin_pairs_left.
    rewrite Forall_forall in Hseg. by apply Hseg.
Qed.

(** A run on inputs that pass every cell. *)
Lemma notebook_run flag fs c cols l ncols nl :
  load_streets flag fs = Ok (geo_frame (Some c) cols l) →
  load_ntas fs = geo_frame (Some EPSG2263) ncols nl →
  shaped cols l → cols_ok cols → NoDup (l.*1) →
  shaped ncols nl → Name "NTAName" ∈ ncols →
  Forall (λ k, k ∉ [Name "index_left"; Name "index_right"]) (cols ++ ncols) →
  Forall (λ k, k ∉ ncols) cols →
  forallb (drawable c) (street_layers l (noi_rows ncols nl)) = true →
  Forall (λ r : Z * (list cell * geometry), segmentizable r.2.2) l →
  Forall (λ r : Z * (list cell * geometry), segmentizable r.2.2) (prepared flag l) →
  notebook flag fs = Ok (run_of flag c cols l ncols nl).
Proof.
  intros Hload Hntas Hs Hcols Hnd Hns Hname Hres Hdis
    (Hd10&Hdcrop&Hdsimp)%street_layers_drawable Hseg Hseg'.
  assert (Name "NTAName" ∈ ncols ++ [geometry_col]) as Hname'
    by (apply elem_of_app; by left).
  assert (shaped ncols (noi_rows ncols nl)) as Hnoi
    by (eapply shaped_sub; [apply filter_subseteq|done]).
  pose proof (shaped_prepared flag cols l Hs) as Hprep.
  pose proof is_geographic_2263 as H2263.
  unfold notebook. cbv zeta. rewrite Hload, Hntas. cbn [mbind result_bind].
  rewrite !select_eq_geo_frame by done. cbn [mbind result_bind].
  fold (noi_rows ncols nl).
  rewrite sjoin_geo_frame by done. cbn [mbind result_bind].
  rewrite simplify_crop by done. cbn [mbind result_bind].
  rewrite segmentize_crop by done. cbn [mbind result_bind].
  rewrite (plot_drawable c
             (λ x : (Z * (list cell * geometry)) * (Z * (list cell * geometry)),
                (x.1.1, segmented (Qc_of_Z 10) x.1.2.2)) _ Hd10).
  cbn [mbind result_bind].
  rewrite apply_simplification_geo_frame by done. cbn [mbind result_bind].
  fold (prepared flag l).
  assert ((if flag then geo_frame (Some c) cols l
           else geo_frame (Some c) cols (map_geometry (simplify_geometry (Qc_of_Z 10)) l))
          = geo_frame (Some c) cols (prepared flag l)) as -> by (by destruct flag).
  rewrite segmentize_explode_geo_frame by done. cbn [mbind result_bind].
  assert (NoDup (prepared flag l).*1) as Hnd' by (by rewrite prepared_labels).
  rewrite (rejoin_steps (Some c) (Some c) cols (prepared flag l)
             (joined (Qc_of_Z 50) (prepared flag l)) Hprep Hcols Hnd'
             (joined_parent _ _)).
  cbn [mbind result_bind]. unfold rejoined_frame.
  fold (point_rows (Qc_of_Z 50) (prepared flag l)).
  rewrite to_crs_reproject by (by apply shaped_point_rows). cbn [mbind result_bind].
  set (final := reproject c EPSG2263 (point_rows (Qc_of_Z 50) (prepared flag l))).
  assert (shaped cols final) as Hfin by (by apply shaped_reproject, shaped_point_rows).
  assert (shaped cols (clip_rows final (noi_rows ncols nl))) as Hclip
    by (eapply shaped_sub; [apply clip_rows_sub|done]).
  rewrite clip_geo_frame; [|done..|apply reproject_points, point_rows_are_points].
  cbn [mbind result_bind].
  rewrite !(plot_frame_geo_frame EPSG2263 ncols _ Hnoi H2263). cbn [mbind result_bind].
  rewrite !(plot_frame_geo_frame EPSG2263 cols _ Hclip H2263). cbn [mbind result_bind].
  rewrite plot_frame_crop by done. cbn [mbind result_bind].
  rewrite (plot_drawable c
             (λ x : (Z * (list cell * geometry)) * (Z * (list cell * geometry)),
                (x.1.1, simplify_geometry (Qc_of_Z 10) x.1.2.2)) _ Hdsimp).
  cbn [mbind result_bind].
  reflexivity.
Qed.
End Run.

(** ** The files *)

Lemma file_rows_labels f : (file_rows f).*1 = Z.of_nat <$> seq 0 (length (features f)).
Proof.
  unfold file_rows. rewrite fmap_imap.
  rewrite (imap_ext _ (λ i _, Z.of_nat i)) by done. apply imap_seq_0.
Qed.

Lemma geojson_rows_labels f :
  (geojson_rows f).*1 = Z.of_nat <$> seq 0 (length (features f)).
Proof.
  unfold geojson_rows. rewrite fmap_imap.
  rewrite (imap_ext _ (λ i _, Z.of_nat i)) by done. apply imap_seq_0.
Qed.

Lemma labels_NoDup n : NoDup (Z.of_nat <$> seq 0 n).
Proof. apply NoDup_fmap_2; [|apply NoDup_seq]. intros i j. apply Nat2Z.inj. Qed.

Lemma geojson_rows_NoDup f : NoDup (geojson_rows f).*1.
Proof. rewrite geojson_rows_labels. apply labels_NoDup. Qed.

Lemma shaped_file_rows reserved f :
  "geometry" ∈ reserved → file_ok reserved f = true →
  shaped (file_cols f) (file_rows f).
Proof.
  intros Hin [Hres Hal]%file_ok_spec. split.
  - apply Name_notin. rewrite Forall_forall in Hres. by apply Hres.
  - apply Forall_forall. intros r (i&ft&->&Hi)%elem_of_lookup_imap. cbn.
    unfold file_cols. rewrite length_fmap. rewrite Forall_forall in Hal. apply Hal.
    by eapply list_elem_of_lookup_2.
Qed.

Lemma shaped_geojson_rows reserved f :
  "geometry" ∈ reserved → file_ok reserved f = true →
  shaped (file_cols f) (geojson_rows f).
Proof.
  intros Hin [Hres Hal]%file_ok_spec. split.
  - apply Name_notin. rewrite Forall_forall in Hres. by apply Hres.
  - apply Forall_forall. intros r (i&ft&->&Hi)%elem_of_lookup_imap. cbn.
    unfold file_cols. rewrite !length_fmap. rewrite Forall_forall in Hal. apply Hal.
    by eapply list_elem_of_lookup_2.
Qed.

Lemma file_cols_notin reserved f s :
  file_ok reserved f = true → s ∈ reserved → Name s ∉ file_cols f.
Proof.
  intros [Hres _]%file_ok_spec Hs. rewrite Forall_forall in Hres.
  by apply Name_notin, Hres.
Qed.

Lemma cols_ok_file reserved f :
  "geometry" ∈ reserved → "level_0" ∈ reserved → "level_1" ∈ reserved →
  file_ok reserved f = true → cols_ok (file_cols f).
Proof.
  intros Hg H0 H1 Hok.
  apply Forall_forall. intros k Hk Hin.
  apply elem_of_cons in Hin as [->|Hin]; [by apply (file_cols_notin reserved f "level_0")|].
  apply elem_of_cons in Hin as [->|Hin]; [by apply (file_cols_notin reserved f "level_1")|].
  apply elem_of_cons in Hin as [->|Hin]; [by apply (file_cols_notin reserved f "geometry")|].
  apply list_elem_of_singleton in Hin as ->. by apply Num_notin in Hk.
Qed.

Lemma index_cols_ok reserved reserved' f n :
  "index_left" ∈ reserved → "index_right" ∈ reserved →
  "index_left" ∈ reserved' → "index_right" ∈ reserved' →
  file_ok reserved f = true → file_ok reserved' n = true →
  Forall (λ k, k ∉ [Name "index_left"; Name "index_right"]) (file_cols f ++ file_cols n).
Proof.
  intros Hl Hr Hl' Hr' Hf Hn. apply Forall_forall. intros k Hk Hin.
  apply elem_of_cons in Hin as [->|Hin%list_elem_of_singleton].
  - apply elem_of_app in Hk as [Hk|Hk]; revert Hk;
      [by apply (file_cols_notin reserved)|by apply (file_cols_notin reserved')].
  - subst k. apply elem_of_app in Hk as [Hk|Hk]; revert Hk;
      [by apply (file_cols_notin reserved)|by apply (file_cols_notin reserved')].
Qed.

Lemma load_ntas_geo_frame `{GeoLib} fs :
  load_ntas fs
  = geo_frame (Some EPSG2263) (file_cols (nynta2020 fs)) (file_rows (nynta2020 fs)).
Proof. unfold load_ntas. by rewrite read_file_geo_frame. Qed.

Section Expected.
Context `{GeoLib}.

Lemma loaded_rows_labels flag c f : (loaded_rows flag c f).*1 = (geojson_rows f).*1.
Proof. destruct flag; [done|]. apply reproject_labels. Qed.

Lemma load_streets_geo_frame flag fs :
  shaped (file_cols (streets_file flag fs)) (geojson_rows (streets_file flag fs)) →
  load_streets flag fs
  = Ok (geo_frame (Some (loaded_crs flag (declared_crs (streets_file flag fs))))
          (file_cols (streets_file flag fs))
          (loaded_rows flag (declared_crs (streets_file flag fs)) (streets_file flag fs))).
Proof.
  intros Hs. unfold load_streets. destruct flag; cbn [negb streets_file] in *.
  - by rewrite read_file_geojson_geo_frame.
  - rewrite read_file_geojson_geo_frame. by rewrite to_crs_reproject.
Qed.

Lemma shaped_loaded flag c f :
  shaped (file_cols f) (geojson_rows f) → shaped (file_cols f) (loaded_rows flag c f).
Proof. intros Hs. destruct flag; [done|]. by apply shaped_reproject. Qed.

Lemma forallb_Forall {A} (P : A → bool) (l : list A) :
  forallb P l = true → Forall (λ x, P x) l.
Proof.
  rewrite forallb_forall. intros Hall. apply Forall_forall.
  intros x Hx%list_elem_of_In. apply Is_true_true. by apply Hall.
Qed.

Lemma files_ok_spec flag fs :
  files_ok flag fs = true →
  file_ok ["geometry"; "index_left"; "index_right"] (streets_file flag fs) = true
  ∧ file_ok ["geometry"; "index_left"; "index_right"] (nynta2020 fs) = true
  ∧ "NTAName" ∈ file_columns (nynta2020 fs)
  ∧ Forall (λ k, k ∉ file_cols (nynta2020 fs)) (file_cols (streets_file flag fs))
  ∧ features (streets_file flag fs) ≠ [].
Proof.
  unfold files_ok. cbv zeta.
  intros [[[[[[H1 H2]%andb_prop H3]%andb_prop H4]%andb_prop _]%andb_prop _]%andb_prop
            H7]%andb_prop.
  apply bool_decide_eq_true_1 in H3, H7.
  split_and!; [done..| |done].
  apply Forall_fmap, Forall_forall. intros s Hs. cbn.
  rewrite forallb_forall in H4.
  apply Name_notin, (bool_decide_eq_true_1 _ (H4 s (proj1 (list_elem_of_In _ _) Hs))).
Qed.

Lemma inputs_ok_spec flag fs :
  inputs_ok flag fs = true →
  let f := streets_file flag fs in
  let c := declared_crs f in
  file_ok ["geometry"; "level_0"; "level_1"; "index_left"; "index_right"] f = true
  ∧ file_ok ["geometry"; "index_left"; "index_right"] (nynta2020 fs) = true
  ∧ "NTAName" ∈ file_columns (nynta2020 fs)
  ∧ Forall (λ k, k ∉ file_cols (nynta2020 fs)) (file_cols f)
  ∧ forallb (drawable (loaded_crs flag c))
      (street_layers (loaded_rows flag c f)
         (noi_rows (file_cols (nynta2020 fs)) (file_rows (nynta2020 fs)))) = true
  ∧ features f ≠ []
  ∧ Forall (λ r : Z * (list cell * geometry), segmentizable r.2.2) (loaded_rows flag c f)
  ∧ Forall (λ r : Z * (list cell * geometry), segmentizable r.2.2)
      (prepared flag (loaded_rows flag c f)).
Proof.
  unfold inputs_ok. cbv zeta.
  intros [[[[H1 H2]%andb_prop H5]%andb_prop H7]%andb_prop H8]%andb_prop.
  apply files_ok_spec in H1 as (_&Hn&Hname&Hdis&H6).
  split_and!; [done..|by apply forallb_Forall|by apply forallb_Forall].
Qed.

Lemma notebook_spec flag fs :
  inputs_ok flag fs = true → notebook flag fs = Ok (expected flag fs).
Proof.
  intros (Hfile&Hnta&Hname&Hdis&Hproj&_&Hseg&Hseg')%inputs_ok_spec.
  assert (shaped (file_cols (streets_file flag fs)) (geojson_rows (streets_file flag fs)))
    as Hs by (eapply shaped_geojson_rows; [|done]; by_compute).
  apply notebook_run; try done.
  - by apply load_streets_geo_frame.
  - apply load_ntas_geo_frame.
  - by apply shaped_loaded.
  - eapply cols_ok_file; [..|done]; by_compute.
  - rewrite loaded_rows_labels. apply geojson_rows_NoDup.
  - eapply shaped_file_rows; [|done]. by_compute.
  - apply list_elem_of_fmap. eauto.
  - eapply index_cols_ok; [..|exact Hfile|exact Hnta]; by_compute.
Qed.
End Expected.

(** * The claims *)





Lemma Forall2_same_imap {A B} (P : A → B → Prop) (F : nat → A → B) (l : list A) :
  (∀ k x, l !! k = Some x → P x (F k x)) → Forall2 P l (imap F l).
Proof.
  revert F. induction l as [|a l IH]; intros F HP; [constructor|].
  cbn. constructor; [by apply (HP 0%nat)|].
  apply IH. intros k x Hk. by apply (HP (S k)).
Qed.

Lemma imap_of_imap {A B C} (f : nat → B → C) (g : nat → A → B) (l : list A) :
  imap f (imap g l) = imap (λ k x, f k (g k x)) l.
Proof.
  revert f g. induction l as [|a l IH]; intros f g; [done|].
  cbn. f_equal. apply IH.
Qed.



Lemma non_geometry_row c cols l i a g :
  geometry_col ∉ cols → length a = length cols →
  non_geometry (geo_frame c cols l) (i, a ++ [VGeom g]) = a.
Proof.
  intros Hg Hlen. unfold non_geometry, geo_frame. cbn [columns fst snd].
  rewrite drop_cells_app by done.
  change (drop_cells [geometry_col] [geometry_col] [VGeom g]) with (@nil cell).
  rewrite app_nil_r. apply drop_cells_keep; [|done].
  apply Forall_forall. by intros k Hk ->%list_elem_of_singleton.
Qed.

Lemma sum_list_with_fmap_list {A B} (f : B → nat) (g : A → B) (l : list A) :
  sum_list_with f (g <$> l) = sum_list_with (f ∘ g) l.
Proof. induction l as [|a l IH]; [done|]. cbn. by rewrite IH. Qed.

Section ClaimFacts.
Context `{GeoLib}.

Lemma length_joined d l :
  length (joined d l) = sum_list_with (λ r, length (derived_points d r.2.2)) l.
Proof.
  unfold joined. induction l as [|r l IH]; [done|].
  rewrite bind_cons, length_app, length_imap, IH. done.
Qed.

Lemma reproject_point_rows c t d l :
  reproject c t (point_rows d l)
  = imap (λ k x, (Z.of_nat k, (x.2.2.1, reprojection c t x.1.2))) (joined d l).
Proof.
  unfold reproject, reprojection, point_rows. destruct (decide (c = t)); [done|].
  unfold map_geometry. rewrite fmap_imap. by apply imap_ext.
Qed.

Lemma reprojection_point c t p :
  reprojection c t (Point p) = Point (reproject_point c t p).
Proof. unfold reprojection, reproject_point. by destruct (decide (c = t)). Qed.

Lemma attrs_map_geometry f l :
  (λ r, (r.1, r.2.1)) <$> map_geometry f l = (λ r, (r.1, r.2.1)) <$> l.
Proof. unfold map_geometry. by rewrite <-list_fmap_compose. Qed.

Lemma attrs_streets flag c f :
  (λ r, (r.1, r.2.1)) <$> prepared flag (loaded_rows flag c f)
  = imap (λ i ft, (Z.of_nat i, read_cell <$> ft.1)) (features f).
Proof.
  unfold prepared, loaded_rows, reproject, geojson_rows.
  destruct flag; [|rewrite attrs_map_geometry; destruct (decide _);
                   [|rewrite attrs_map_geometry]];
    rewrite fmap_imap; by apply imap_ext.
Qed.

Lemma geometry_streets flag c f :
  (λ r, (r.1, r.2.2)) <$> prepared flag (loaded_rows flag c f)
  = imap (λ i ft, (Z.of_nat i,
                   if flag then ft.2
                   else simplify_geometry (Qc_of_Z 10) (reprojection c EPSG2263 ft.2)))
         (features f).
Proof.
  unfold prepared, loaded_rows, reproject, reprojection, geojson_rows, map_geometry.
  destruct flag; [|destruct (decide _)]; rewrite <-?list_fmap_compose, fmap_imap;
    by apply imap_ext.
Qed.

Lemma geometry_loaded flag c f :
  (λ r, (r.1, r.2.2)) <$> loaded_rows flag c f
  = imap (λ i ft, (Z.of_nat i, if flag then ft.2 else reprojection c EPSG2263 ft.2))
         (features f).
Proof.
  unfold loaded_rows, reproject, reprojection, geojson_rows, map_geometry.
  destruct flag; [|destruct (decide _)]; rewrite <-?list_fmap_compose, fmap_imap;
    by apply imap_ext.
Qed.

Lemma streets_row_feature flag c f r :
  r ∈ prepared flag (loaded_rows flag c f) →
  ∃ i ft, features f !! i = Some ft ∧ r.1 = Z.of_nat i ∧ r.2.1 = read_cell <$> ft.1.
Proof.
  intros Hr.
  assert ((r.1, r.2.1) ∈ (λ r, (r.1, r.2.1)) <$> prepared flag (loaded_rows flag c f))
    as Hin by (apply list_elem_of_fmap; eauto).
  rewrite attrs_streets in Hin.
  apply elem_of_lookup_imap in Hin as (i&ft&[= Hi Ha]&Hft). eauto.
Qed.

Lemma shaped_input flag fs :
  inputs_ok flag fs = true →
  shaped (file_cols (streets_file flag fs))
    (loaded_rows flag (declared_crs (streets_file flag fs)) (streets_file flag fs)).
Proof.
  intros (Hfile&_)%inputs_ok_spec. apply shaped_loaded.
  eapply shaped_geojson_rows; [|done]. by_compute.
Qed.

Lemma shaped_streets flag fs :
  inputs_ok flag fs = true →
  shaped (file_cols (streets_file flag fs))
    (prepared flag
       (loaded_rows flag (declared_crs (streets_file flag fs)) (streets_file flag fs))).
Proof. intros Hok. by apply shaped_prepared, shaped_input. Qed.

Lemma shaped_ntas flag fs :
  inputs_ok flag fs = true → shaped (file_cols (nynta2020 fs)) (file_rows (nynta2020 fs)).
Proof.
  intros (_&Hnta&_)%inputs_ok_spec. eapply shaped_file_rows; [|done]. by_compute.
Qed.

Lemma shaped_final flag fs c :
  inputs_ok flag fs = true →
  shaped (file_cols (streets_file flag fs))
    (reproject c EPSG2263
       (point_rows (Qc_of_Z 50)
          (prepared flag
             (loaded_rows flag (declared_crs (streets_file flag fs))
                (streets_file flag fs))))).
Proof.
  intros Hok. by apply shaped_reproject, shaped_point_rows, shaped_streets.
Qed.

Lemma streets_labels flag c f :
  NoDup (prepared flag (loaded_rows flag c f)).*1.
Proof. rewrite prepared_labels, loaded_rows_labels. apply geojson_rows_NoDup. Qed.

Lemma streets_segmentizable flag fs :
  inputs_ok flag fs = true →
  Forall (λ r : Z * (list cell * geometry), segmentizable r.2.2)
    (prepared flag
       (loaded_rows flag (declared_crs (streets_file flag fs)) (streets_file flag fs))).
Proof. by intros (_&_&_&_&_&_&_&?)%inputs_ok_spec. Qed.
End ClaimFacts.

(** C2: in the table the notebook exports, the k-th point row comes from the
    k-th exploded item; the line row with the index label of that item's
    back-reference (level_0) is unique, and the non-geometry cells of the
    point row equal those of that line row, which are the attribute values of
    the feature at that position of the streets file as they are read.  The
    columns of the point table are those of the line table. *)
Theorem C2_rejoin_preserves_attributes `{GeoLib} (flag : bool) (fs : inputs) :
  inputs_ok flag fs = true →
  ∃ r, notebook flag fs = Ok r
    ∧ columns (segmentized r) = columns (nyc_streets r)
    ∧ Forall2 (λ it row,
         ∃ parent ft,
           filter (λ p, p.1 = it.1.1) (rows (nyc_streets r)) = [parent]
           ∧ non_geometry (segmentized r) row = non_geometry (nyc_streets r) parent
           ∧ features (streets_file flag fs) !! Z.to_nat it.1.1 = Some ft
           ∧ non_geometry (segmentized r) row = read_cell <$> ft.1)
       (items (segmentized_exploded r)) (rows (segmentized r)).
Proof.
  intros Hok. pose proof (notebook_spec flag fs Hok) as Hrun.
  pose proof (shaped_streets flag fs Hok) as [Hg Hal].
  exists (expected flag fs). split; [done|]. split; [done|].
  unfold expected, run_of.
  cbn [segmentized segmentized_exploded nyc_streets items].
  rewrite reproject_point_rows.
  set (c := declared_crs (streets_file flag fs)) in *.
  set (streets := prepared flag (loaded_rows flag c (streets_file flag fs))) in *.
  rewrite !rows_geo_frame, fmap_imap.
  apply Forall2_fmap_l, Forall2_same_imap.
  intros k x Hk. cbn [compose fst snd].
  apply list_elem_of_lookup_2, joined_parent in Hk as [Hx Hlabel].
  destruct (streets_row_feature flag c _ _ Hx) as (i&ft&Hft&Hi&Ha).
  rewrite Forall_forall in Hal. pose proof (Hal _ Hx) as Hlen.
  exists (x.2.1, x.2.2.1 ++ [VGeom x.2.2.2]), ft.
  rewrite Hlabel. split_and!.
  - apply (filter_label_rows (λ r, r.2.1 ++ [VGeom r.2.2])); [apply streets_labels|done].
  - by rewrite !non_geometry_row.
  - by rewrite Hi, Nat2Z.id.
  - by rewrite non_geometry_row.
Qed.

Lemma C2_witness :
  inputs_ok (H:=reference_library) true (sample_inputs (three_lines EPSG2263)) = true
  ∧ ∃ r, notebook (H:=reference_library) true (sample_inputs (three_lines EPSG2263)) = Ok r
      ∧ columns (segmentized r) = columns (nyc_streets r).
Proof.
  assert (inputs_ok (H:=reference_library) true (sample_inputs (three_lines EPSG2263)) = true)
    as Hok by (vm_compute; reflexivity).
  split; [exact Hok|].
  destruct (C2_rejoin_preserves_attributes (H:=reference_library) true _ Hok)
    as (r&Hr&Hcols&_).
  exists r. split; [exact Hr|exact Hcols].
Defined.

(** C3: the exported file is [to_csv] of the full point table of line 175,
    whose reference system is EPSG:2263: it holds, in order, every point
    derived from every line of the streets table (no clipping), one record
    each, made of the row's integer index 0, 1, 2, ..., the attribute cells
    of the line the point comes from, and the point with its coordinates
    transformed from the reference system of the streets table to EPSG:2263;
    the first header field is unnamed. *)
Theorem C3_export_full_table `{GeoLib} (flag : bool) (fs : inputs) :
  inputs_ok flag fs = true →
  ∃ r s c, notebook flag fs = Ok r
    ∧ segmentized_nyc_sidewalks_csv r = to_csv (segmentized r)
    ∧ crs (segmentized r) = Some EPSG2263
    ∧ crs (nyc_streets r) = Some c
    ∧ geometry_series (nyc_streets r) = Ok s
    ∧ items (segmentized_exploded r)
      = (ig ← items s;
         imap (λ j part, ((ig.1, Z.of_nat j), part)) (derived_points (Qc_of_Z 50) ig.2))
    ∧ length (records (segmentized_nyc_sidewalks_csv r))
      = sum_list_with (λ it, length (derived_points (Qc_of_Z 50) it.2)) (items s)
    ∧ length (records (segmentized_nyc_sidewalks_csv r))
      = length (items (segmentized_exploded r))
    ∧ (∀ k it, items (segmentized_exploded r) !! k = Some it →
         ∃ p parent,
           it.2 = Point p
           ∧ filter (λ row, row.1 = it.1.1) (rows (nyc_streets r)) = [parent]
           ∧ records (segmentized_nyc_sidewalks_csv r) !! k
             = Some (VInt (Z.of_nat k)
                       :: non_geometry (nyc_streets r) parent
                       ++ [VGeom (Point (reproject_point c EPSG2263 p))]))
    ∧ header (segmentized_nyc_sidewalks_csv r) = None :: (Some <$> columns (nyc_streets r)).
Proof.
  intros Hok. pose proof (notebook_spec flag fs Hok) as Hrun.
  pose proof (shaped_streets flag fs Hok) as Hs.
  exists (expected flag fs). do 2 eexists. split; [done|].
  unfold expected, run_of.
  cbn [segmentized segmentized_exploded nyc_streets segmentized_nyc_sidewalks_csv items].
  set (f := streets_file flag fs) in *.
  set (c := loaded_crs flag (declared_crs f)) in *.
  set (streets := prepared flag (loaded_rows flag (declared_crs f) f)) in *.
  split_and!; [done|done|done|by apply geometry_series_geo_frame|..|done].
  - cbn [items]. unfold joined.
    rewrite bind_fmap_list, fmap_bind_list. apply bind_ext_list.
    intros r _. cbn [compose fst snd]. rewrite fmap_imap. by apply imap_ext.
  - cbn [items]. unfold to_csv. cbn [records].
    rewrite rows_geo_frame, reproject_point_rows.
    rewrite !length_fmap, length_imap, length_joined.
    by rewrite sum_list_with_fmap_list.
  - unfold to_csv. cbn [records].
    rewrite rows_geo_frame, reproject_point_rows.
    by rewrite !length_fmap, length_imap.
  - intros k it Hit. rewrite list_lookup_fmap in Hit.
    destruct (joined (Qc_of_Z 50) streets !! k) as [x|] eqn:Hx; [|done].
    injection Hit as <-.
    pose proof (list_elem_of_lookup_2 _ _ _ Hx) as Hin.
    destruct (joined_parent _ _ _ Hin) as [Hparent Hlabel].
    assert (is_point x.1.2) as Hpt.
    { pose proof (point_rows_are_points (Qc_of_Z 50) streets) as Hall.
      rewrite Forall_forall in Hall.
      apply (Hall (Z.of_nat k, (x.2.2.1, x.1.2))).
      unfold point_rows. apply elem_of_lookup_imap. eauto. }
    destruct (x.1.2) as [p| | | |] eqn:Hg; try done.
    exists p, (x.2.1, x.2.2.1 ++ [VGeom x.2.2.2]). split; [done|].
    rewrite Hlabel. split.
    + rewrite rows_geo_frame.
      apply (filter_label_rows (λ r, r.2.1 ++ [VGeom r.2.2])); [apply streets_labels|done].
    + unfold to_csv. cbn [records].
      rewrite rows_geo_frame, reproject_point_rows, <-list_fmap_compose.
      rewrite list_lookup_fmap, list_lookup_imap, Hx. cbn [fmap option_fmap option_map compose fst snd].
      rewrite Hg, reprojection_point.
      rewrite non_geometry_row; [done|by destruct Hs|by eapply shaped_length].
Qed.

Lemma C3_witness :
  inputs_ok (H:=reference_library) false (sample_inputs bent_line) = true
  ∧ ∃ r, notebook (H:=reference_library) false (sample_inputs bent_line) = Ok r
      ∧ crs (segmentized r) = Some EPSG2263.
Proof.
  assert (inputs_ok (H:=reference_library) false (sample_inputs bent_line) = true) as Hok
    by (vm_compute; reflexivity).
  split; [exact Hok|].
  destruct (C3_export_full_table (H:=reference_library) false _ Hok)
    as (r&s&c&Hr&_&Hcrs&_).
  exists r. split; [exact Hr|exact Hcrs].
Defined.

(** C8: every row of the clipped point table is a row of the exported point
    table, unchanged, and appears in the exported records; the clipped table
    has no more rows than the export has records. *)
Theorem C8_clip_subset `{GeoLib} (flag : bool) (fs : inputs) :
  inputs_ok flag fs = true →
  ∃ r, notebook flag fs = Ok r
    ∧ (∀ row, row ∈ rows (segmentized_crop r) →
         row ∈ rows (segmentized r)
         ∧ VInt row.1 :: row.2 ∈ records (segmentized_nyc_sidewalks_csv r))
    ∧ (length (rows (segmentized_crop r))
       ≤ length (records (segmentized_nyc_sidewalks_csv r)))%nat.
Proof.
  intros Hok. pose proof (notebook_spec flag fs Hok) as Hrun.
  exists (expected flag fs). split; [done|].
  unfold expected, run_of.
  cbn [segmentized segmentized_crop segmentized_nyc_sidewalks_csv].
  rewrite !rows_geo_frame. unfold to_csv. cbn [records]. rewrite rows_geo_frame.
  split.
  - intros row (x&->&Hx%clip_rows_sub)%list_elem_of_fmap.
    assert ((x.1, x.2.1 ++ [VGeom x.2.2])
              ∈ (λ r : Z * (list cell * geometry), (r.1, r.2.1 ++ [VGeom r.2.2])) <$>
                reproject (loaded_crs flag (declared_crs (streets_file flag fs))) EPSG2263
                  (point_rows (Qc_of_Z 50)
                     (prepared flag
                        (loaded_rows flag (declared_crs (streets_file flag fs))
                           (streets_file flag fs))))) as Hin
      by (apply list_elem_of_fmap; eauto).
    split; [done|]. apply list_elem_of_fmap. eauto.
  - rewrite !length_fmap. apply clip_rows_length.
Qed.

Lemma C8_witness :
  inputs_ok (H:=reference_library) true (sample_inputs (three_lines EPSG2263)) = true
  ∧ ∃ r, notebook (H:=reference_library) true (sample_inputs (three_lines EPSG2263)) = Ok r
      ∧ (length (rows (segmentized_crop r))
         ≤ length (records (segmentized_nyc_sidewalks_csv r)))%nat.
Proof.
  assert (inputs_ok (H:=reference_library) true (sample_inputs (three_lines EPSG2263)) = true)
    as Hok by (vm_compute; reflexivity).
  split; [exact Hok|].
  destruct (C8_clip_subset (H:=reference_library) true _ Hok) as (r&Hr&_&Hlen).
  exists r. split; [exact Hr|exact Hlen].
Defined.

(** C10: the assignment [nyc_ntas.crs = "EPSG:2263"] sets the reference
    system of the boundary table and leaves its columns and rows, with every
    geometry cell exactly as read from the file, unchanged, whatever
    reference system the file declares. *)
Theorem C10_crs_assigned_not_transformed (fs : inputs) :
  crs (load_ntas fs) = Some EPSG2263
  ∧ columns (load_ntas fs) = columns (read_file (nynta2020 fs))
  ∧ rows (load_ntas fs) = rows (read_file (nynta2020 fs))
  ∧ ∀ i ft, features (nynta2020 fs) !! i = Some ft →
      rows (load_ntas fs) !! i = Some (Z.of_nat i, ft.1 ++ [VGeom ft.2]).
Proof.
  split_and!; [done..|]. intros i ft Hft.
  unfold load_ntas, assign_crs, read_file. cbn [rows].
  by rewrite list_lookup_imap, Hft.
Qed.








Section Counting.
Context `{GeoLib}.

Lemma joined_cons d r l :
  joined d (r :: l)
  = imap (λ j part, (((r.1, Z.of_nat j), part), r)) (derived_points d r.2.2) ++ joined d l.
Proof. done. Qed.

Lemma filter_joined_absent d l i :
  i ∉ l.*1 →
  filter (λ it : Z * Z * geometry, it.1.1 = i) ((joined d l).*1) = [].
Proof.
  intros Hi. apply filter_none, Forall_forall.
  intros it (x&->&Hx)%list_elem_of_fmap Heq.
  apply joined_parent in Hx as [Hx Hlabel]. apply Hi.
  rewrite <-Heq, Hlabel. apply list_elem_of_fmap. eauto.
Qed.

Lemma filter_line_parts (r : Z * (list cell * geometry)) (i : Z) (parts : list geometry) :
  filter (λ it : Z * Z * geometry, it.1.1 = i)
    ((imap (λ j part, (((r.1, Z.of_nat j), part), r)) parts).*1)
  = if decide (r.1 = i) then imap (λ j part, ((r.1, Z.of_nat j), part)) parts else [].
Proof.
  rewrite fmap_imap. destruct (decide (r.1 = i)) as [Hi|Hi].
  - rewrite filter_keep; [by apply imap_ext|].
    apply Forall_forall. by intros it (j&part&->&_)%elem_of_lookup_imap.
  - apply filter_none, Forall_forall. by intros it (j&part&->&_)%elem_of_lookup_imap.
Qed.

Lemma points_of_line_joined c d l r :
  NoDup (l.*1) → r ∈ l →
  points_of_line (mkGeoSeries c ((joined d l).*1)) r.1 = derived_points d r.2.2.
Proof.
  unfold points_of_line. cbn [items].
  induction l as [|r' l IH]; [by intros _ ?%elem_of_nil|].
  rewrite fmap_cons. intros [Hr' Hnd]%NoDup_cons Hr.
  rewrite joined_cons, fmap_app, filter_app, fmap_app, filter_line_parts.
  apply elem_of_cons in Hr as [->|Hr].
  - rewrite decide_True by done. rewrite filter_joined_absent by done.
    rewrite app_nil_r, fmap_imap.
    rewrite (imap_ext _ (λ _ part, part)) by done.
    by rewrite (imap_const id), list_fmap_id.
  - rewrite decide_False; [by apply IH|].
    intros Heq. apply Hr'. rewrite Heq. apply list_elem_of_fmap. eauto.
Qed.

Lemma attrs_joined d l :
  (λ x : Z * Z * geometry * (Z * (list cell * geometry)), x.2.2.1) <$> joined d l
  = l ≫= λ r, replicate (length (derived_points d r.2.2)) r.2.1.
Proof.
  induction l as [|r l IH]; [done|].
  rewrite joined_cons, fmap_app, bind_cons, IH. f_equal.
  rewrite fmap_imap. rewrite (imap_ext _ (λ _ _, r.2.1)) by done.
  generalize (derived_points d r.2.2). intros parts.
  rewrite (imap_const (λ _, r.2.1)). induction parts as [|p parts IHp]; [done|].
  cbn. by rewrite IHp.
Qed.

Lemma segment_point_count (p q : point) (len : Z) (n : nat) :
  cut_as_exact (Qc_of_Z 50) p q →
  dist2 p q = Qc_of_Z (len * len) →
  (2 + Z.to_nat (Z.sqrt_up (Qceiling (Qc_of_Z (len * len) / (Qc_of_Z 50 * Qc_of_Z 50))%Qc) - 1))%nat = n →
  length (derived_points (Qc_of_Z 50) (LineString [p; q])) = n.
Proof.
  intros Hcut Hd <-. rewrite derived_points_segment_length by done.
  by rewrite (segment_count_of_dist2 _ _ _ _ Hd).
Qed.
End Counting.

(** C5 (amended): under either value of the flag, the points derived from a
    line are [derived_points 50] of the geometry that the line has in
    [nyc_streets] when line 136 runs, so their number is a function of the
    vertices of that geometry and the spacing.  With the flag true that
    geometry is the one of the file and the table is the file as it is read;
    with the flag false it is the geometry of the file reprojected to
    EPSG:2263 and simplified at tolerance 10. *)
Theorem C5_point_counts `{GeoLib} (flag : bool) (fs : inputs) :
  inputs_ok flag fs = true →
  ∃ r s, notebook flag fs = Ok r
    ∧ geometry_series (nyc_streets r) = Ok s
    ∧ (∀ i g, (i, g) ∈ items s →
         points_of_line (segmentized_exploded r) i = derived_points (Qc_of_Z 50) g)
    ∧ items s
      = imap (λ i ft,
                (Z.of_nat i,
                 if flag then ft.2
                 else simplify_geometry (Qc_of_Z 10)
                        (reprojection (declared_crs (streets_file flag fs)) EPSG2263 ft.2)))
             (features (streets_file flag fs))
    ∧ (flag = true → nyc_streets r = read_file_geojson (sidewalkwidths_nyc fs)).
Proof.
  intros Hok. pose proof (notebook_spec flag fs Hok) as Hrun.
  pose proof (shaped_streets flag fs Hok) as Hs.
  exists (expected flag fs). eexists. split; [done|].
  unfold expected, run_of. cbn [segmentized_exploded nyc_streets].
  split; [by apply geometry_series_geo_frame|]. cbn [items]. split_and!.
  - intros i g (r&[= -> ->]&Hr)%list_elem_of_fmap.
    apply points_of_line_joined; [apply streets_labels|done].
  - apply geometry_streets.
  - intros ->. cbn. by rewrite read_file_geojson_geo_frame.
Qed.

Lemma C5_witness :
  inputs_ok (H:=reference_library) false (sample_inputs bent_line) = true
  ∧ ∃ r s, notebook (H:=reference_library) false (sample_inputs bent_line) = Ok r
      ∧ geometry_series (nyc_streets r) = Ok s.
Proof.
  assert (inputs_ok (H:=reference_library) false (sample_inputs bent_line) = true) as Hok
    by (vm_compute; reflexivity).
  split; [exact Hok|].
  destruct (C5_point_counts (H:=reference_library) false _ Hok) as (r&s&Hr&Hs&_).
  exists r, s. split; [exact Hr|exact Hs].
Defined.

Lemma C5_counterexample :
  (λ r, length (points_of_line (segmentized_exploded r) 0))
    <$> notebook (H:=reference_library) true (sample_inputs bent_line) = Ok 3%nat
  ∧ (λ r, length (points_of_line (segmentized_exploded r) 0))
      <$> notebook (H:=reference_library) false (sample_inputs bent_line) = Ok 2%nat.
Proof. split; vm_compute; reflexivity. Qed.

(** C6 (amended): the geometry that feeds line 136 is that of [nyc_streets]:
    with the flag true it is the loaded geometry, unchanged; with the flag
    false it is [simplify(10)] of the loaded geometry, itself the file
    reprojected to EPSG:2263.  The attribute cells are the loaded ones in
    both cases. *)
Theorem C6_geometry_fed_to_segmentize `{GeoLib} (flag : bool) (fs : inputs) :
  inputs_ok flag fs = true →
  ∃ r loaded fed, notebook flag fs = Ok r
    ∧ segmentize_explode (nyc_streets r) = Ok (segmentized_exploded r)
    ∧ geometry_series (nyc_streets_loaded r) = Ok loaded
    ∧ geometry_series (nyc_streets r) = Ok fed
    ∧ items fed
      = prod_map id (if flag then id else simplify_geometry (Qc_of_Z 10)) <$> items loaded
    ∧ non_geometry (nyc_streets r) <$> rows (nyc_streets r)
      = non_geometry (nyc_streets_loaded r) <$> rows (nyc_streets_loaded r)
    ∧ (flag = true → nyc_streets_loaded r = read_file_geojson (sidewalkwidths_nyc fs))
    ∧ (flag = false →
         to_crs EPSG2263 (read_file_geojson (Sidewalk fs)) = Ok (nyc_streets_loaded r)).
Proof.
  intros Hok. pose proof (notebook_spec flag fs Hok) as Hrun.
  pose proof (shaped_streets flag fs Hok) as Hs.
  pose proof (shaped_input flag fs Hok) as Hl.
  pose proof (streets_segmentizable flag fs Hok) as Hseg.
  exists (expected flag fs). do 2 eexists. split; [done|].
  unfold expected, run_of. cbn [segmentized_exploded nyc_streets nyc_streets_loaded].
  set (c := declared_crs (streets_file flag fs)) in *.
  split_and!.
  - by apply segmentize_explode_geo_frame.
  - by apply geometry_series_geo_frame.
  - by apply geometry_series_geo_frame.
  - cbn [items]. unfold prepared. destruct flag.
    + rewrite <-list_fmap_compose. apply list_fmap_ext. by intros i [? [? ?]] _.
    + unfold map_geometry. rewrite <-!list_fmap_compose. by apply list_fmap_ext.
  - rewrite !rows_geo_frame, <-!list_fmap_compose.
    destruct Hs as [Hg Hals], Hl as [_ Hall].
    trans ((λ r : Z * (list cell * geometry), r.2.1)
             <$> prepared flag (loaded_rows flag c (streets_file flag fs))).
    + apply Forall_fmap_ext. eapply Forall_impl; [exact Hals|].
      intros [i [a g]] Hlen. cbn [fst snd compose] in *. by apply non_geometry_row.
    + trans ((λ r : Z * (list cell * geometry), r.2.1)
               <$> loaded_rows flag c (streets_file flag fs)).
      * unfold prepared. destruct flag; [done|].
        unfold map_geometry. by rewrite <-list_fmap_compose.
      * symmetry. apply Forall_fmap_ext. eapply Forall_impl; [exact Hall|].
        intros [i [a g]] Hlen. cbn [fst snd compose] in *. by apply non_geometry_row.
  - intros ->. cbn in *. by rewrite read_file_geojson_geo_frame.
  - intros ->. cbn [streets_file loaded_crs loaded_rows negb] in *.
    rewrite read_file_geojson_geo_frame. apply to_crs_reproject.
    eapply shaped_geojson_rows; [|by apply inputs_ok_spec in Hok as (?&_)]. by_compute.
Qed.

Lemma C6_witness :
  inputs_ok (H:=reference_library) false (sample_inputs bent_line) = true
  ∧ ∃ r, notebook (H:=reference_library) false (sample_inputs bent_line) = Ok r
      ∧ segmentize_explode (H:=reference_library) (nyc_streets r)
        = Ok (segmentized_exploded r).
Proof.
  assert (inputs_ok (H:=reference_library) false (sample_inputs bent_line) = true) as Hok
    by (vm_compute; reflexivity).
  split; [exact Hok|].
  destruct (C6_geometry_fed_to_segmentize (H:=reference_library) false _ Hok)
    as (r&loaded&fed&Hr&Hseg&_).
  exists r. split; [exact Hr|exact Hseg].
Defined.

Lemma C6_counterexample :
  (λ r, (rows (nyc_streets_loaded r), rows (nyc_streets r)))
    <$> notebook (H:=reference_library) false (sample_inputs bent_line)
  = Ok ([(0%Z, [VInt 8; VGeom (LineString [pt 0 0; pt 20 1; pt 40 0])])],
        [(0%Z, [VInt 8; VGeom (LineString [pt 0 0; pt 40 0])])]).
Proof. by_compute. Qed.

(** C4 (amended): for a streets file of exactly three single-segment lines
    of lengths 10, 60 and 120 that the library cuts as exact arithmetic
    does, and the flag true, the lines yield 2, 3 and 4 points, the export
    has 9 records, and the attribute cells of the rows are those of the
    first line, as they are read, twice, of the second three times and of
    the third four times. *)
Theorem C4_three_lines `{GeoLib} (fs : inputs) (a0 a1 a2 : list cell)
    (p0 q0 p1 q1 p2 q2 : point) :
  features (sidewalkwidths_nyc fs)
  = [(a0, LineString [p0; q0]); (a1, LineString [p1; q1]); (a2, LineString [p2; q2])] →
  dist2 p0 q0 = Qc_of_Z (10 * 10) →
  dist2 p1 q1 = Qc_of_Z (60 * 60) →
  dist2 p2 q2 = Qc_of_Z (120 * 120) →
  cut_as_exact (Qc_of_Z 50) p0 q0 →
  cut_as_exact (Qc_of_Z 50) p1 q1 →
  cut_as_exact (Qc_of_Z 50) p2 q2 →
  inputs_ok true fs = true →
  ∃ r, notebook true fs = Ok r
    ∧ (λ i, length (points_of_line (segmentized_exploded r) i)) <$> [0; 1; 2]%Z
      = [2; 3; 4]%nat
    ∧ length (records (segmentized_nyc_sidewalks_csv r)) = 9%nat
    ∧ non_geometry (segmentized r) <$> rows (segmentized r)
      = replicate 2 (read_cell <$> a0) ++ replicate 3 (read_cell <$> a1)
          ++ replicate 4 (read_cell <$> a2).
Proof.
  intros Hfeat H10 H60 H120 Hc0 Hc1 Hc2 Hok.
  pose proof (notebook_spec true fs Hok) as Hrun.
  pose proof (shaped_streets true fs Hok) as Hs.
  pose proof (streets_labels true (declared_crs (streets_file true fs))
                (streets_file true fs)) as Hnd.
  assert (length (derived_points (Qc_of_Z 50) (LineString [p0; q0])) = 2%nat) as Hn0
    by (eapply segment_point_count; [done|exact H10|by vm_compute]).
  assert (length (derived_points (Qc_of_Z 50) (LineString [p1; q1])) = 3%nat) as Hn1
    by (eapply segment_point_count; [done|exact H60|by vm_compute]).
  assert (length (derived_points (Qc_of_Z 50) (LineString [p2; q2])) = 4%nat) as Hn2
    by (eapply segment_point_count; [done|exact H120|by vm_compute]).
  exists (expected true fs). split; [done|].
  unfold expected, run_of in *.
  cbn [segmentized segmentized_exploded segmentized_nyc_sidewalks_csv
       prepared loaded_rows loaded_crs streets_file] in *.
  assert (geojson_rows (sidewalkwidths_nyc fs)
          = [(0%Z, (read_cell <$> a0, LineString [p0; q0]));
             (1%Z, (read_cell <$> a1, LineString [p1; q1]));
             (2%Z, (read_cell <$> a2, LineString [p2; q2]))]) as Hrows
    by (unfold geojson_rows; by rewrite Hfeat).
  rewrite Hrows in *. split_and!.
  - rewrite !fmap_cons, fmap_nil.
    rewrite (points_of_line_joined _ _ _ (0%Z, (read_cell <$> a0, LineString [p0; q0])));
      [|done|by left].
    rewrite (points_of_line_joined _ _ _ (1%Z, (read_cell <$> a1, LineString [p1; q1])));
      [|done|right; by left].
    rewrite (points_of_line_joined _ _ _ (2%Z, (read_cell <$> a2, LineString [p2; q2])));
      [|done|right; right; by left].
    cbn [fst snd]. by rewrite Hn0, Hn1, Hn2.
  - unfold to_csv. cbn [records].
    rewrite rows_geo_frame, reproject_point_rows, !length_fmap, length_imap, length_joined.
    cbn [sum_list_with fst snd]. by rewrite Hn0, Hn1, Hn2.
  - destruct Hs as [Hg Hal].
    rewrite rows_geo_frame, reproject_point_rows, <-list_fmap_compose, fmap_imap.
    trans ((λ x : Z * Z * geometry * (Z * (list cell * geometry)), x.2.2.1)
             <$> joined (Qc_of_Z 50)
                   [(0%Z, (read_cell <$> a0, LineString [p0; q0]));
                    (1%Z, (read_cell <$> a1, LineString [p1; q1]));
                    (2%Z, (read_cell <$> a2, LineString [p2; q2]))]).
    + rewrite <-(imap_const (λ x : Z * Z * geometry * (Z * (list cell * geometry)), x.2.2.1)).
      apply imap_ext. intros k x Hk. cbn [compose fst snd const].
      apply non_geometry_row; [done|].
      apply list_elem_of_lookup_2, joined_parent in Hk as [Hx _].
      rewrite Forall_forall in Hal. by apply Hal.
    + rewrite attrs_joined, !bind_cons. cbn [fst snd].
      by rewrite Hn0, Hn1, Hn2.
Qed.

Lemma C4_witness :
  inputs_ok (H:=reference_library) true (sample_inputs (three_lines EPSG2263)) = true
  ∧ ∃ r, notebook (H:=reference_library) true (sample_inputs (three_lines EPSG2263)) = Ok r
      ∧ length (records (segmentized_nyc_sidewalks_csv r)) = 9%nat.
Proof.
  assert (inputs_ok (H:=reference_library) true (sample_inputs (three_lines EPSG2263)) = true)
    as Hok by (vm_compute; reflexivity).
  split; [exact Hok|].
  destruct (C4_three_lines (H:=reference_library) (sample_inputs (three_lines EPSG2263))
              [VInt 8; VStr "Java St"] [VInt 12; VStr "Kent St"] [VInt 15; VStr "India St"]
              (pt 0 0) (pt 10 0) (pt 0 10) (pt 60 10) (pt 0 20) (pt 120 20)
              eq_refl ltac:(by_compute) ltac:(by_compute) ltac:(by_compute)
              ltac:(split; [vm_compute; reflexivity|by_compute])
              ltac:(split; [vm_compute; reflexivity|by_compute])
              ltac:(split; [vm_compute; reflexivity|by_compute]) Hok)
    as (r&Hr&_&Hlen&_).
  exists r. split; [exact Hr|exact Hlen].
Defined.

Lemma C4_counterexample :
  (λ r, ((λ i, length (points_of_line (segmentized_exploded r) i)) <$> [0; 1; 2]%Z,
         length (records (segmentized_nyc_sidewalks_csv r))))
    <$> notebook (H:=reference_library) true (sample_inputs (three_lines EPSG2263))
  = Ok ([2; 3; 4]%nat, 9%nat).
Proof. vm_compute. reflexivity. Qed.

(** C7: a streets file in EPSG:32118 (metres) with one straight line of 40
    metres.  With the flag true the table reaches line 136 in EPSG:32118 and
    the line, shorter than 50 of its units, yields 2 points; with the flag
    false the same file is reprojected first and yields 4 points. *)
Lemma C7_metric_file_segmentized_in_metres :
  (λ r, (crs (nyc_streets r), length (records (segmentized_nyc_sidewalks_csv r))))
    <$> notebook (H:=reference_library) true (sample_inputs metric_line)
  = Ok (Some (EPSG 32118), 2%nat)
  ∧ (λ r, (crs (nyc_streets r), length (records (segmentized_nyc_sidewalks_csv r))))
      <$> notebook (H:=reference_library) false (sample_inputs metric_line)
    = Ok (Some EPSG2263, 4%nat).
Proof. split; vm_compute; reflexivity. Qed.

(** * Further properties of the notebook *)

(** ** Segmentize and unique points *)




(** ** Reading the files *)


Lemma int64_id z : (- 2 ^ 63 ≤ z ≤ 2 ^ 63 - 1)%Z → int64 z = z.
Proof. unfold int64. lia. Qed.



(** X5: a GeoJSON file without a crs member is read as EPSG:4326.  With the
    flag true the streets table is the file in EPSG:4326; with the flag
    false line 56 transforms its coordinates from EPSG:4326 to EPSG:2263, and
    does not raise. *)
Theorem undeclared_crs_read_as_4326 `{GeoLib} (flag : bool) (fs : inputs) :
  file_crs (streets_file flag fs) = None →
  file_ok ["geometry"] (streets_file flag fs) = true →
  crs (read_file_geojson (streets_file flag fs)) = Some EPSG4326
  ∧ load_streets flag fs
    = Ok (geo_frame (Some (if flag then EPSG4326 else EPSG2263))
            (file_cols (streets_file flag fs))
            (if flag then geojson_rows (streets_file flag fs)
             else map_geometry (map_coords (transform EPSG4326 EPSG2263))
                    (geojson_rows (streets_file flag fs)))).
Proof.
  intros Hc Hok. split.
  - unfold read_file_geojson. cbn [crs]. by rewrite Hc.
  - rewrite load_streets_geo_frame by (eapply shaped_geojson_rows; [|done]; by_compute).
    unfold declared_crs, loaded_crs, loaded_rows, reproject. rewrite Hc.
    cbn [default from_option id]. destruct flag; [done|].
    by rewrite decide_False by done.
Qed.

Lemma undeclared_crs_read_as_4326_witness :
  file_crs (streets_file false (sample_inputs undeclared_line)) = None
  ∧ (λ df, crs df) <$> load_streets (H:=reference_library) false (sample_inputs undeclared_line)
    = Ok (Some EPSG2263).
Proof.
  split; [reflexivity|].
  destruct (undeclared_crs_read_as_4326 (H:=reference_library) false
              (sample_inputs undeclared_line) eq_refl ltac:(vm_compute; reflexivity))
    as [_ Hload].
  rewrite Hload. reflexivity.
Defined.

(** ** Runs that stop with an exception *)

Lemma traverse_raises {A B} (f : A → result B) (l : list A) e :
  Forall (λ a, (∃ b, f a = Ok b) ∨ f a = Raise e) l →
  Exists (λ a, f a = Raise e) l →
  traverse f l = Raise e.
Proof.
  induction l as [|a l IH]; intros Hall Hex; [by apply Exists_nil in Hex|].
  apply Forall_cons in Hall as [Ha Hall]. cbn [traverse].
  destruct Ha as [[b Hb]| ->]; [|done]. rewrite Hb. cbn [mbind result_bind].
  apply Exists_cons in Hex as [Hex|Hex]; [congruence|].
  by rewrite IH.
Qed.

Lemma traverse_ok_or_raises {A B} (f : A → result B) (l : list A) e :
  Forall (λ a, (∃ b, f a = Ok b) ∨ f a = Raise e) l →
  (∃ bs, traverse f l = Ok bs) ∨ traverse f l = Raise e.
Proof.
  induction l as [|a l IH]; intros Hall; [left; by eexists|].
  apply Forall_cons in Hall as [Ha Hall]. cbn [traverse].
  destruct Ha as [[b Hb]| ->]; [|by right]. rewrite Hb. cbn [mbind result_bind].
  destruct (IH Hall) as [[bs ->]| ->]; [left; by eexists|by right].
Qed.

Section ErrorPaths.
Context `{GeoLib}.

Lemma zero_length_spec g :
  zero_length g = true → ∃ cs a, g = LineString cs ∧ cs ≠ [] ∧ ∀ p, p ∈ cs → p = a.
Proof.
  destruct g as [|cs| | |]; try done. cbn [zero_length].
  intros Hlen%bool_decide_eq_true_1. destruct cs as [|a cs]; [done|].
  exists (a :: cs), a. split; [done|]. split; [done|].
  intros p Hp. destruct (decide (p = a)) as [|Hne]; [done|].
  assert (2 ≤ length (remove_repeated (a :: cs)))%nat
    by (apply (remove_repeated_two _ p a); [done|by left|done]).
  lia.
Qed.

Lemma zero_length_raises d g :
  zero_length g = true →
  segmentize_geometry d g = Raise (GEOSException "point array must contain 0 or >1 elements").
Proof.
  intros (cs&a&->&Hne&Hall)%zero_length_spec. by apply (segmentize_point_line d cs a).
Qed.

Lemma line_ok_or_raises d g :
  is_line g = true →
  (∃ g', segmentize_geometry d g = Ok g')
  ∨ segmentize_geometry d g = Raise (GEOSException "point array must contain 0 or >1 elements").
Proof.
  destruct g as [|cs| | |]; try done. intros _. unfold segmentize_geometry.
  destruct (densify d cs) as [|x [|y l]]; [left|right|left]; by eauto.
Qed.

Lemma segmentize_lines d df s :
  geometry_series df = Ok s →
  Forall (λ it : Z * geometry, is_line it.2) (items s) →
  (∃ s', segmentize d df = Ok s' ∧ series_crs s' = series_crs s)
  ∨ segmentize d df = Raise (GEOSException "point array must contain 0 or >1 elements").
Proof.
  intros Hs Hall. unfold segmentize. rewrite Hs. cbn [mbind result_bind].
  destruct (traverse_ok_or_raises
              (λ it : Z * geometry, g ← segmentize_geometry d it.2; Ok (it.1, g)) (items s)
              (GEOSException "point array must contain 0 or >1 elements"))
    as [[gs ->]| ->]; [|left; by eexists|by right].
  eapply Forall_impl; [exact Hall|]. intros it Hit.
  destruct (line_ok_or_raises d it.2) as [[g' ->]| ->]; [by apply Is_true_true|left|right];
    by eauto.
Qed.

Lemma segmentize_zero_length d df s :
  geometry_series df = Ok s →
  Forall (λ it : Z * geometry, is_line it.2) (items s) →
  Exists (λ it : Z * geometry, zero_length it.2) (items s) →
  segmentize d df = Raise (GEOSException "point array must contain 0 or >1 elements").
Proof.
  intros Hs Hall Hex. unfold segmentize. rewrite Hs. cbn [mbind result_bind].
  rewrite (traverse_raises _ _ (GEOSException "point array must contain 0 or >1 elements"));
    [done| |].
  - eapply Forall_impl; [exact Hall|]. intros it Hit.
    destruct (line_ok_or_raises d it.2) as [[g' ->]| ->]; [by apply Is_true_true|left|right];
      by eauto.
  - eapply Exists_impl; [exact Hex|]. intros it Hit.
    by rewrite zero_length_raises by (by apply Is_true_true).
Qed.

Lemma notebook_plot_raises flag fs c cols l ncols nl :
  load_streets flag fs = Ok (geo_frame (Some c) cols l) →
  load_ntas fs = geo_frame (Some EPSG2263) ncols nl →
  shaped cols l → shaped ncols nl → Name "NTAName" ∈ ncols →
  Forall (λ k, k ∉ [Name "index_left"; Name "index_right"]) (cols ++ ncols) →
  Forall (λ k, k ∉ ncols) cols →
  is_geographic c = true →
  sjoin_pairs l (noi_rows ncols nl) = [] →
  notebook flag fs = Raise (ValueError "aspect must be finite and positive").
Proof.
  intros Hload Hntas Hs Hns Hname Hres Hdis Hgeo Hempty.
  assert (Name "NTAName" ∈ ncols ++ [geometry_col]) as Hname'
    by (apply elem_of_app; by left).
  assert (shaped ncols (noi_rows ncols nl)) as Hnoi
    by (eapply shaped_sub; [apply filter_subseteq|done]).
  unfold notebook. cbv zeta. rewrite Hload, Hntas. cbn [mbind result_bind].
  rewrite !select_eq_geo_frame by done. cbn [mbind result_bind].
  fold (noi_rows ncols nl).
  rewrite sjoin_geo_frame by done. cbn [mbind result_bind].
  rewrite simplify_crop by done. cbn [mbind result_bind].
  rewrite (segmentize_series _ _ (Qc_of_Z 10)
             (geometry_series_crop (Some c) cols ncols l (noi_rows ncols nl) Hs))
    by (cbn [items]; rewrite Hempty; constructor).
  cbn [mbind result_bind].
  match goal with |- context [plot (map_series ?f ?s)] =>
    rewrite (plot_empty_geographic (map_series f s) c)
  end; [reflexivity|reflexivity|exact Hgeo|].
  unfold map_series. cbn [items]. by rewrite Hempty.
Qed.

Lemma notebook_rejoin_raises flag fs c cols l ncols nl e :
  load_streets flag fs = Ok (geo_frame (Some c) cols l) →
  load_ntas fs = geo_frame (Some EPSG2263) ncols nl →
  shaped cols l → shaped ncols nl → Name "NTAName" ∈ ncols →
  Forall (λ k, k ∉ [Name "index_left"; Name "index_right"]) (cols ++ ncols) →
  Forall (λ k, k ∉ ncols) cols →
  is_geographic c = false →
  Forall (λ r : Z * (list cell * geometry), segmentizable r.2.2) l →
  Forall (λ r : Z * (list cell * geometry), segmentizable r.2.2) (prepared flag l) →
  rejoin (reset_index (mkGeoSeries (Some c) (fst <$> joined (Qc_of_Z 50) (prepared flag l))))
         (geo_frame (Some c) cols (prepared flag l)) = Raise e →
  notebook flag fs = Raise e.
Proof.
  intros Hload Hntas Hs Hns Hname Hres Hdis Hproj Hseg Hseg' Hrejoin.
  assert (Name "NTAName" ∈ ncols ++ [geometry_col]) as Hname'
    by (apply elem_of_app; by left).
  assert (shaped ncols (noi_rows ncols nl)) as Hnoi
    by (eapply shaped_sub; [apply filter_subseteq|done]).
  pose proof (shaped_prepared flag cols l Hs) as Hprep.
  unfold notebook. cbv zeta. rewrite Hload, Hntas. cbn [mbind result_bind].
  rewrite !select_eq_geo_frame by done. cbn [mbind result_bind].
  fold (noi_rows ncols nl).
  rewrite sjoin_geo_frame by done. cbn [mbind result_bind].
  rewrite simplify_crop by done. cbn [mbind result_bind].
  rewrite segmentize_crop by done. cbn [mbind result_bind].
  rewrite !plot_fmap by done. cbn [mbind result_bind].
  rewrite apply_simplification_geo_frame by done. cbn [mbind result_bind].
  fold (prepared flag l).
  assert ((if flag then geo_frame (Some c) cols l
           else geo_frame (Some c) cols (map_geometry (simplify_geometry (Qc_of_Z 10)) l))
          = geo_frame (Some c) cols (prepared flag l)) as -> by (by destruct flag).
  rewrite segmentize_explode_geo_frame by done. cbn [mbind result_bind].
  rewrite Hrejoin. reflexivity.
Qed.

Lemma notebook_segmentize_raises flag fs c cols l ncols nl :
  load_streets flag fs = Ok (geo_frame (Some c) cols l) →
  load_ntas fs = geo_frame (Some EPSG2263) ncols nl →
  shaped cols l → shaped ncols nl → Name "NTAName" ∈ ncols →
  Forall (λ k, k ∉ [Name "index_left"; Name "index_right"]) (cols ++ ncols) →
  Forall (λ k, k ∉ ncols) cols →
  is_geographic c = false →
  Forall (λ r : Z * (list cell * geometry), is_line r.2.2) l →
  Forall (λ r : Z * (list cell * geometry), is_line r.2.2) (prepared flag l) →
  Exists (λ r : Z * (list cell * geometry), zero_length r.2.2) (prepared flag l) →
  notebook flag fs = Raise (GEOSException "point array must contain 0 or >1 elements").
Proof.
  intros Hload Hntas Hs Hns Hname Hres Hdis Hproj Hlines Hlines' Hzero.
  assert (Name "NTAName" ∈ ncols ++ [geometry_col]) as Hname'
    by (apply elem_of_app; by left).
  assert (shaped ncols (noi_rows ncols nl)) as Hnoi
    by (eapply shaped_sub; [apply filter_subseteq|done]).
  pose proof (shaped_prepared flag cols l Hs) as Hprep.
  unfold notebook. cbv zeta. rewrite Hload, Hntas. cbn [mbind result_bind].
  rewrite !select_eq_geo_frame by done. cbn [mbind result_bind].
  fold (noi_rows ncols nl).
  rewrite sjoin_geo_frame by done. cbn [mbind result_bind].
  rewrite simplify_crop by done. cbn [mbind result_bind].
  destruct (segmentize_lines (Qc_of_Z 10) _ _
              (geometry_series_crop (Some c) cols ncols l (noi_rows ncols nl) Hs))
    as [(s'&->&Hcrs)| ->]; [|cbn [mbind result_bind]|done].
  { cbn [items]. apply Forall_fmap, Forall_forall. intros x Hx%sjoin_pairs_left.
    rewrite Forall_forall in Hlines. by apply Hlines. }
  rewrite (plot_projected s') by (rewrite Hcrs; exact Hproj). cbn [mbind result_bind].
  rewrite apply_simplification_geo_frame by done. cbn [mbind result_bind].
  fold (prepared flag l).
  assert ((if flag then geo_frame (Some c) cols l
           else geo_frame (Some c) cols (map_geometry (simplify_geometry (Qc_of_Z 10)) l))
          = geo_frame (Some c) cols (prepared flag l)) as -> by (by destruct flag).
  unfold segmentize_explode.
  rewrite (segmentize_zero_length _ _ _ (geometry_series_geo_frame _ _ _ Hprep)); [done|..];
    cbn [items].
  - by apply Forall_fmap.
  - by apply Exists_fmap.
Qed.

Lemma level_1_absent_after_merge cols :
  level_1 ∈ cols → level_0 ∉ cols → geometry_col ∉ cols →
  let merged :=
    (suffixed "_x" (cols ++ [geometry_col]) <$> [level_0; level_1; Num 0])
      ++ (suffixed "_y" [level_0; level_1; Num 0] <$> (cols ++ [geometry_col])) in
  level_0 ∈ merged ∧ level_1 ∉ merged.
Proof.
  intros H1 H0 Hg merged.
  assert (level_0 ∉ cols ++ [geometry_col]) as H0'.
  { intros [?|Hin%list_elem_of_singleton]%elem_of_app; [done|discriminate]. }
  assert (level_1 ∈ cols ++ [geometry_col]) as H1' by (apply elem_of_app; by left).
  split.
  - apply elem_of_app. left. rewrite fmap_cons. rewrite suffixed_id by done. by left.
  - intros [Hl|Hr]%elem_of_app.
    + rewrite !fmap_cons, fmap_nil in Hl. rewrite suffixed_id in Hl by done.
      apply elem_of_cons in Hl as [Hl|Hl]; [discriminate|].
      apply elem_of_cons in Hl as [Hl|Hl].
      { unfold suffixed in Hl. rewrite decide_True in Hl by done.
        vm_compute in Hl. discriminate. }
      apply list_elem_of_singleton in Hl. unfold suffixed in Hl.
      destruct (decide _); [|discriminate]. vm_compute in Hl. discriminate.
    + apply list_elem_of_fmap in Hr as (k&Hk&Hin). unfold suffixed in Hk.
      destruct (decide (k ∈ [level_0; level_1; Num 0])) as [Hmem|Hmem].
      * apply elem_of_cons in Hmem as [->|Hmem]; [vm_compute in Hk; discriminate|].
        apply elem_of_cons in Hmem as [->|Hmem]; [vm_compute in Hk; discriminate|].
        apply list_elem_of_singleton in Hmem as ->. vm_compute in Hk. discriminate.
      * apply Hmem. rewrite <-Hk. right. by left.
Qed.

Lemma rejoin_level_1_raises (c : option CRS) s cols l :
  level_1 ∈ cols → level_0 ∉ cols → geometry_col ∉ cols →
  rejoin (reset_index s) (geo_frame c cols l) = Raise (KeyError level_1).
Proof.
  intros H1 H0 Hg.
  destruct (level_1_absent_after_merge cols H1 H0 Hg) as [Hin0 Hnotin1].
  assert (geometry_col ∈
            (suffixed "_x" (cols ++ [geometry_col]) <$> [level_0; level_1; Num 0])
            ++ (suffixed "_y" [level_0; level_1; Num 0] <$> (cols ++ [geometry_col])))
    as Hing.
  { apply elem_of_app. right. apply list_elem_of_fmap. exists geometry_col.
    split; [|apply geometry_in_columns].
    symmetry. apply suffixed_id.
    intros Hmem. apply elem_of_cons in Hmem as [?|Hmem]; [discriminate|].
    apply elem_of_cons in Hmem as [?|Hmem]; [discriminate|].
    apply list_elem_of_singleton in Hmem. discriminate. }
  unfold rejoin, merge. cbn [columns reset_index geo_frame crs rows].
  rewrite decide_True by (by left). cbn [mbind result_bind].
  unfold drop. cbn [columns].
  change (Name "level_0") with level_0. change (Name "level_1") with level_1.
  rewrite filter_cons_False by (intros Hn; by apply Hn).
  rewrite filter_cons_True by done. done.
Qed.

End ErrorPaths.

(** X6: with the flag true and a streets file in a geographic reference
    system (one that declares none is read as EPSG:4326), when no line of the
    file is within a boundary row named Greenpoint the crop is empty and the
    plot of line 99 raises ValueError; nothing is exported. *)
Theorem empty_geographic_crop_raises `{GeoLib} (fs : inputs) :
  files_ok true fs = true →
  is_geographic (declared_crs (sidewalkwidths_nyc fs)) = true →
  Forall (λ ft : list cell * geometry,
            Forall (λ n : Z * (list cell * geometry), within ft.2 n.2.2 = false)
              (noi_rows (file_cols (nynta2020 fs)) (file_rows (nynta2020 fs))))
    (features (sidewalkwidths_nyc fs)) →
  notebook true fs = Raise (ValueError "aspect must be finite and positive").
Proof.
  intros (Hok&Hnta&Hname&Hdis&_)%files_ok_spec Hgeo Hout. cbn [streets_file] in Hok, Hdis.
  assert (shaped (file_cols (sidewalkwidths_nyc fs)) (geojson_rows (sidewalkwidths_nyc fs)))
    as Hs by (eapply shaped_geojson_rows; [|done]; by_compute).
  eapply (notebook_plot_raises true fs (declared_crs (sidewalkwidths_nyc fs))).
  - by rewrite (load_streets_geo_frame true fs).
  - apply load_ntas_geo_frame.
  - exact Hs.
  - eapply shaped_file_rows; [|done]. by_compute.
  - apply list_elem_of_fmap. eauto.
  - eapply index_cols_ok; [..|exact Hok|exact Hnta]; by_compute.
  - done.
  - done.
  - cbn [loaded_rows]. apply elem_of_nil_inv. intros x Hx.
    apply sjoin_pairs_elem in Hx as (Hl&Hm&Hw&_).
    apply elem_of_lookup_imap in Hl as (i&ft&Hx1&Hft).
    rewrite Forall_forall in Hout.
    pose proof (Hout ft (list_elem_of_lookup_2 _ _ _ Hft)) as Hall.
    rewrite Forall_forall in Hall. specialize (Hall _ Hm).
    rewrite Hx1 in Hw. cbn [fst snd] in Hw. congruence.
Qed.

Lemma empty_geographic_crop_raises_witness :
  is_geographic (GeoLib:=reference_library) (declared_crs undeclared_line) = true
  ∧ notebook (H:=reference_library) true (mkInputs other_ntas bent_line undeclared_line)
    = Raise (ValueError "aspect must be finite and positive").
Proof.
  split; [reflexivity|].
  apply (empty_geographic_crop_raises (H:=reference_library)
           (mkInputs other_ntas bent_line undeclared_line));
    [vm_compute; reflexivity|reflexivity|by_compute].
Defined.

(** X7: when the boundary file has no column NTAName, the notebook stops at
    line 77 with AttributeError as soon as the streets are loaded, although
    the export does not use the boundaries. *)
Theorem missing_NTAName_raises `{GeoLib} (flag : bool) (fs : inputs) (df : DataFrame) :
  "NTAName" ∉ file_columns (nynta2020 fs) →
  load_streets flag fs = Ok df →
  notebook flag fs = Raise (AttributeError "NTAName").
Proof.
  intros Hname Hload.
  assert (select_eq (AttributeError "NTAName") (Name "NTAName") (VStr NOI) (load_ntas fs)
          = Raise (AttributeError "NTAName")) as Hsel.
  { unfold select_eq. rewrite decide_False; [done|].
    unfold load_ntas, assign_crs, read_file. cbn [columns].
    intros [Hin|Hin%list_elem_of_singleton]%elem_of_app; [|discriminate].
    by apply Name_notin in Hin. }
  unfold notebook. cbv zeta. rewrite Hload. cbn [mbind result_bind].
  rewrite Hsel. reflexivity.
Qed.

Lemma missing_NTAName_raises_witness :
  ("NTAName" ∉ file_columns unnamed_ntas)
  ∧ notebook (H:=reference_library) true
      (mkInputs unnamed_ntas bent_line (three_lines EPSG2263))
    = Raise (AttributeError "NTAName").
Proof.
  assert ("NTAName" ∉ file_columns unnamed_ntas) as Hn by by_compute.
  split; [exact Hn|].
  apply (missing_NTAName_raises (H:=reference_library) true
           (mkInputs unnamed_ntas bent_line (three_lines EPSG2263))
           (read_file_geojson (three_lines EPSG2263)));
    [exact Hn|reflexivity].
Defined.

(** X8: a streets file with an attribute column named level_1, whose lines
    all have two vertices that differ and whose table is in a projected
    reference system, passes line 136; the merge of line 164 then renames
    both level_1 columns, and the drop that follows raises KeyError for
    level_1. *)
Theorem level_1_column_raises `{GeoLib} (flag : bool) (fs : inputs) :
  files_ok flag fs = true →
  "level_0" ∉ file_columns (streets_file flag fs) →
  "level_1" ∈ file_columns (streets_file flag fs) →
  is_geographic (loaded_crs flag (declared_crs (streets_file flag fs))) = false →
  forallb (λ r : Z * (list cell * geometry), segmentizable r.2.2)
    (loaded_rows flag (declared_crs (streets_file flag fs)) (streets_file flag fs)) = true →
  forallb (λ r : Z * (list cell * geometry), segmentizable r.2.2)
    (prepared flag
       (loaded_rows flag (declared_crs (streets_file flag fs)) (streets_file flag fs)))
  = true →
  notebook flag fs = Raise (KeyError (Name "level_1")).
Proof.
  intros (Hok&Hnta&Hname&Hdis&_)%files_ok_spec Hl0 Hl1 Hproj
    Hseg%forallb_Forall Hseg'%forallb_Forall.
  assert (shaped (file_cols (streets_file flag fs)) (geojson_rows (streets_file flag fs)))
    as Hs by (eapply shaped_geojson_rows; [|done]; by_compute).
  eapply notebook_rejoin_raises.
  - by apply load_streets_geo_frame.
  - apply load_ntas_geo_frame.
  - by apply shaped_loaded.
  - eapply shaped_file_rows; [|done]. by_compute.
  - apply list_elem_of_fmap. eauto.
  - eapply index_cols_ok; [..|exact Hok|exact Hnta]; by_compute.
  - done.
  - done.
  - done.
  - done.
  - apply rejoin_level_1_raises.
    + apply list_elem_of_fmap. eauto.
    + by apply Name_notin.
    + eapply file_cols_notin; [exact Hok|by_compute].
Qed.

Lemma level_1_column_raises_witness :
  "level_1" ∈ file_columns (streets_file true (sample_inputs level_1_line))
  ∧ notebook (H:=reference_library) true (sample_inputs level_1_line)
    = Raise (KeyError (Name "level_1")).
Proof.
  assert ("level_1" ∈ file_columns (streets_file true (sample_inputs level_1_line)))
    as Hl by by_compute.
  split; [exact Hl|].
  apply (level_1_column_raises (H:=reference_library) true (sample_inputs level_1_line));
    [vm_compute; reflexivity|by_compute|exact Hl
    |reflexivity|vm_compute; reflexivity|vm_compute; reflexivity].
Defined.

(** X19: a streets file of line strings, in a projected reference system,
    one of which reaches line 136 with all its vertices at one location:
    segmentize raises GEOSException, at line 99 when such a line is in the
    crop and at line 136 otherwise; nothing is exported. *)
Theorem zero_length_line_raises `{GeoLib} (flag : bool) (fs : inputs) :
  files_ok flag fs = true →
  is_geographic (loaded_crs flag (declared_crs (streets_file flag fs))) = false →
  forallb (λ r : Z * (list cell * geometry), is_line r.2.2)
    (loaded_rows flag (declared_crs (streets_file flag fs)) (streets_file flag fs)) = true →
  forallb (λ r : Z * (list cell * geometry), is_line r.2.2)
    (prepared flag
       (loaded_rows flag (declared_crs (streets_file flag fs)) (streets_file flag fs)))
  = true →
  existsb (λ r : Z * (list cell * geometry), zero_length r.2.2)
    (prepared flag
       (loaded_rows flag (declared_crs (streets_file flag fs)) (streets_file flag fs)))
  = true →
  notebook flag fs = Raise (GEOSException "point array must contain 0 or >1 elements").
Proof.
  intros (Hok&Hnta&Hname&Hdis&_)%files_ok_spec Hproj
    Hlines%forallb_Forall Hlines'%forallb_Forall Hzero.
  assert (shaped (file_cols (streets_file flag fs)) (geojson_rows (streets_file flag fs)))
    as Hs by (eapply shaped_geojson_rows; [|done]; by_compute).
  eapply notebook_segmentize_raises.
  - by apply load_streets_geo_frame.
  - apply load_ntas_geo_frame.
  - by apply shaped_loaded.
  - eapply shaped_file_rows; [|done]. by_compute.
  - apply list_elem_of_fmap. eauto.
  - eapply index_cols_ok; [..|exact Hok|exact Hnta]; by_compute.
  - done.
  - done.
  - done.
  - done.
  - apply existsb_exists in Hzero as (r&Hr%list_elem_of_In&Hz).
    apply Exists_exists. exists r. split; [done|]. by apply Is_true_true.
Qed.

Lemma zero_length_line_raises_witness :
  existsb (λ r : Z * (list cell * geometry), zero_length r.2.2)
    (prepared (H:=reference_library) true
       (loaded_rows (H:=reference_library) true (declared_crs zero_length_line)
          zero_length_line)) = true
  ∧ notebook (H:=reference_library) true (sample_inputs zero_length_line)
    = Raise (GEOSException "point array must contain 0 or >1 elements").
Proof.
  split; [vm_compute; reflexivity|].
  apply (zero_length_line_raises (H:=reference_library) true (sample_inputs zero_length_line));
    [vm_compute; reflexivity
    |reflexivity|vm_compute; reflexivity|vm_compute; reflexivity|vm_compute; reflexivity].
Defined.

(** ** The data path, the crop and the figures *)

Lemma bind_Ok {A B} (m : result A) (f : A → result B) (b : B) :
  m ≫= f = Ok b → ∃ a, m = Ok a ∧ f a = Ok b.
Proof. destruct m as [a|e]; [by exists a|done]. Qed.

Lemma elem_of_rows_geo_frame c cols l row :
  row ∈ rows (geo_frame c cols l)
  ↔ ∃ r, r ∈ l ∧ row = (r.1, r.2.1 ++ [VGeom r.2.2]).
Proof.
  rewrite rows_geo_frame, list_elem_of_fmap. split; intros (r&?&?); eauto.
Qed.



Lemma rows_noi_rows c ncols nl :
  rows (geo_frame c ncols (noi_rows ncols nl))
  = filter (λ m : Z * list cell,
              get_col (Name "NTAName") (ncols ++ [geometry_col]) m.2 = Some (VStr NOI))
      (rows (geo_frame c ncols nl)).
Proof. rewrite !rows_geo_frame. unfold noi_rows. by rewrite filter_fmap_list. Qed.

Section DataPath.
Context `{GeoLib}.

(** The cells that lead to the export, in a run that completes. *)
Lemma notebook_data_path flag fs r :
  notebook flag fs = Ok r →
  load_streets flag fs = Ok (nyc_streets_loaded r)
  ∧ apply_simplification flag (nyc_streets_loaded r) = Ok (nyc_streets r)
  ∧ segmentize_explode (nyc_streets r) = Ok (segmentized_exploded r)
  ∧ rejoin (reset_index (segmentized_exploded r)) (nyc_streets r)
    = Ok (segmentized_rejoined r)
  ∧ to_crs EPSG2263 (segmentized_rejoined r) = Ok (segmentized r)
  ∧ segmentized_nyc_sidewalks_csv r = to_csv (segmentized r).
Proof.
  unfold notebook. cbv zeta. intros Hrun.
  apply bind_Ok in Hrun as (loaded&Hload&Hrun).
  apply bind_Ok in Hrun as (noi&_&Hrun).
  apply bind_Ok in Hrun as (crop&_&Hrun).
  apply bind_Ok in Hrun as (simplified&_&Hrun).
  apply bind_Ok in Hrun as (crop10&_&Hrun).
  apply bind_Ok in Hrun as (layer&_&Hrun).
  apply bind_Ok in Hrun as (streets&Hstreets&Hrun).
  apply bind_Ok in Hrun as (ex&Hex&Hrun).
  apply bind_Ok in Hrun as (rejoined&Hrej&Hrun).
  apply bind_Ok in Hrun as (final&Hfinal&Hrun).
  apply bind_Ok in Hrun as (ntac&_&Hrun).
  apply bind_Ok in Hrun as (clipped&_&Hrun).
  apply bind_Ok in Hrun as (l1&_&Hrun).
  apply bind_Ok in Hrun as (l2&_&Hrun).
  apply bind_Ok in Hrun as (l3&_&Hrun).
  apply bind_Ok in Hrun as (l4&_&Hrun).
  apply bind_Ok in Hrun as (l5&_&Hrun).
  apply bind_Ok in Hrun as (l6&_&Hrun).
  apply bind_Ok in Hrun as (l7&_&Hrun).
  injection Hrun as <-.
  cbn [nyc_streets_loaded nyc_streets segmentized_exploded segmentized_rejoined
       segmentized segmentized_nyc_sidewalks_csv].
  done.
Qed.

Lemma load_streets_file flag fs fs' :
  streets_file flag fs = streets_file flag fs' → load_streets flag fs = load_streets flag fs'.
Proof. unfold load_streets, streets_file. destruct flag; cbn [negb]; by intros ->. Qed.
End DataPath.

(** X9: the exported table depends on the selected streets file only: two
    runs that complete and whose inputs agree on that file have the same
    line table, exploded points, point table and exported file, whatever the
    boundary file and the file that the flag does not select. *)
Theorem export_independent_of_boundary `{GeoLib} (flag : bool) (fs fs' : inputs)
    (r r' : run) :
  streets_file flag fs = streets_file flag fs' →
  notebook flag fs = Ok r → notebook flag fs' = Ok r' →
  nyc_streets_loaded r = nyc_streets_loaded r'
  ∧ nyc_streets r = nyc_streets r'
  ∧ segmentized_exploded r = segmentized_exploded r'
  ∧ segmentized_rejoined r = segmentized_rejoined r'
  ∧ segmentized r = segmentized r'
  ∧ segmentized_nyc_sidewalks_csv r = segmentized_nyc_sidewalks_csv r'.
Proof.
  intros Heq (Hl&Hs&He&Hj&Ht&Hc)%notebook_data_path
    (Hl'&Hs'&He'&Hj'&Ht'&Hc')%notebook_data_path.
  rewrite (load_streets_file flag fs fs' Heq), Hl' in Hl. injection Hl as Hl.
  rewrite <-Hl, Hs' in Hs. injection Hs as Hs.
  rewrite <-Hs, He' in He. injection He as He.
  rewrite <-Hs, <-He, Hj' in Hj. injection Hj as Hj.
  rewrite <-Hj, Ht' in Ht. injection Ht as Ht.
  rewrite Hc, Hc', Ht. done.
Qed.

Lemma export_independent_of_boundary_witness :
  notebook (H:=reference_library) true (sample_inputs (three_lines EPSG2263))
  = Ok (expected (H:=reference_library) true (sample_inputs (three_lines EPSG2263)))
  ∧ notebook (H:=reference_library) true
      (mkInputs other_ntas bent_line (three_lines EPSG2263))
    = Ok (expected (H:=reference_library) true
            (mkInputs other_ntas bent_line (three_lines EPSG2263)))
  ∧ segmentized_nyc_sidewalks_csv
      (expected (H:=reference_library) true (sample_inputs (three_lines EPSG2263)))
    = segmentized_nyc_sidewalks_csv
        (expected (H:=reference_library) true
           (mkInputs other_ntas bent_line (three_lines EPSG2263))).
Proof.
  assert (notebook (H:=reference_library) true (sample_inputs (three_lines EPSG2263))
          = Ok (expected (H:=reference_library) true (sample_inputs (three_lines EPSG2263))))
    as Hr by (vm_compute; reflexivity).
  assert (notebook (H:=reference_library) true
            (mkInputs other_ntas bent_line (three_lines EPSG2263))
          = Ok (expected (H:=reference_library) true
                  (mkInputs other_ntas bent_line (three_lines EPSG2263))))
    as Hr' by (vm_compute; reflexivity).
  split; [exact Hr|]. split; [exact Hr'|].
  destruct (export_independent_of_boundary (H:=reference_library) true
              (sample_inputs (three_lines EPSG2263))
              (mkInputs other_ntas bent_line (three_lines EPSG2263)) _ _
              eq_refl Hr Hr') as (_&_&_&_&_&Hcsv).
  exact Hcsv.
Defined.



(** X10: when the streets table is in EPSG:2263 (always so with the flag
    false), the [to_crs] of line 175 returns the rejoined table unchanged. *)
Theorem final_to_crs_identity `{GeoLib} (flag : bool) (fs : inputs) :
  inputs_ok flag fs = true →
  flag = false ∨ declared_crs (streets_file flag fs) = EPSG2263 →
  ∃ r, notebook flag fs = Ok r
    ∧ crs (nyc_streets r) = Some EPSG2263
    ∧ segmentized r = segmentized_rejoined r.
Proof.
  intros Hok Hcase. pose proof (notebook_spec flag fs Hok) as Hrun.
  exists (expected flag fs). split; [done|].
  assert (loaded_crs flag (declared_crs (streets_file flag fs)) = EPSG2263) as Hcrs.
  { destruct Hcase as [->|Hc']; [done|]. unfold loaded_crs. by destruct flag. }
  unfold expected, run_of. cbn [nyc_streets segmentized segmentized_rejoined].
  rewrite Hcrs. split; [done|]. unfold reproject. by rewrite decide_True.
Qed.

Lemma final_to_crs_identity_witness :
  inputs_ok (H:=reference_library) false (sample_inputs metric_line) = true
  ∧ ∃ r, notebook (H:=reference_library) false (sample_inputs metric_line) = Ok r
      ∧ segmentized r = segmentized_rejoined r.
Proof.
  assert (inputs_ok (H:=reference_library) false (sample_inputs metric_line) = true) as Hok
    by (vm_compute; reflexivity).
  split; [exact Hok|].
  destruct (final_to_crs_identity (H:=reference_library) false _ Hok (or_introl eq_refl))
    as (r&Hr&_&Hid).
  exists r. split; [exact Hr|exact Hid].
Defined.

(** X11: shape of the export: the columns are the attribute columns of the
    streets file followed by the geometry column; every record has as many
    fields as the header; every geometry is a single point; the index of the
    point table and of the line table is the default one. *)
Theorem export_shape `{GeoLib} (flag : bool) (fs : inputs) :
  inputs_ok flag fs = true →
  ∃ r, notebook flag fs = Ok r
    ∧ columns (segmentized r)
      = (Name <$> file_columns (streets_file flag fs)) ++ [geometry_col]
    ∧ Forall (λ rec, length rec = length (header (segmentized_nyc_sidewalks_csv r)))
        (records (segmentized_nyc_sidewalks_csv r))
    ∧ Forall (λ row, ∃ p, get_col geometry_col (columns (segmentized r)) row.2
                          = Some (VGeom (Point p)))
        (rows (segmentized r))
    ∧ default_index (segmentized r)
    ∧ default_index (nyc_streets r).
Proof.
  intros Hok. pose proof (notebook_spec flag fs Hok) as Hrun.
  pose proof (shaped_final flag fs
                (loaded_crs flag (declared_crs (streets_file flag fs))) Hok) as Hfin.
  pose proof (shaped_streets flag fs Hok) as Hst.
  exists (expected flag fs). split; [done|].
  unfold expected, run_of.
  cbn [nyc_streets segmentized segmentized_nyc_sidewalks_csv].
  set (c := declared_crs (streets_file flag fs)) in *.
  set (final := reproject _ _ _) in *.
  set (cols := file_cols (streets_file flag fs)) in *.
  assert (Forall (λ r : Z * (list cell * geometry), is_point r.2.2) final) as Hpts
    by apply reproject_points, point_rows_are_points.
  split_and!.
  - done.
  - unfold to_csv. cbn [records header]. rewrite rows_geo_frame, columns_geo_frame.
    rewrite <-list_fmap_compose. apply Forall_fmap, Forall_forall.
    intros r Hr. cbn. rewrite length_fmap, !length_app.
    by rewrite (shaped_length cols final r Hfin Hr).
  - rewrite rows_geo_frame, columns_geo_frame. apply Forall_fmap.
    rewrite Forall_forall in Hpts. apply Forall_forall. intros r Hr. cbn.
    rewrite get_geometry; [|by destruct Hfin|exact (shaped_length cols final r Hfin Hr)].
    specialize (Hpts r Hr). destruct (r.2.2) as [p| | | |]; try done. by exists p.
  - unfold default_index. rewrite rows_geo_frame, length_fmap, <-list_fmap_compose.
    subst final. rewrite reproject_point_rows, fmap_imap, length_imap.
    rewrite (imap_ext _ (λ k _, Z.of_nat k)) by done. apply imap_seq_0.
  - unfold default_index. rewrite rows_geo_frame, length_fmap, <-list_fmap_compose.
    change ((prepared flag (loaded_rows flag c (streets_file flag fs))).*1
            = Z.of_nat <$> seq 0 (length (prepared flag (loaded_rows flag c (streets_file flag fs))))).
    rewrite prepared_labels, loaded_rows_labels, geojson_rows_labels.
    do 2 f_equal. rewrite <-(length_fmap fst (prepared _ _)).
    by rewrite prepared_labels, loaded_rows_labels, geojson_rows_labels, length_fmap,
      length_seq.
Qed.

Lemma export_shape_witness :
  inputs_ok (H:=reference_library) true (sample_inputs (three_lines EPSG2263)) = true
  ∧ ∃ r, notebook (H:=reference_library) true (sample_inputs (three_lines EPSG2263)) = Ok r
      ∧ default_index (segmentized r).
Proof.
  assert (inputs_ok (H:=reference_library) true (sample_inputs (three_lines EPSG2263)) = true)
    as Hok by (vm_compute; reflexivity).
  split; [exact Hok|].
  destruct (export_shape (H:=reference_library) true _ Hok) as (r&Hr&_&_&_&Hidx&_).
  exists r. split; [exact Hr|exact Hidx].
Defined.

(** X12: the two-level index that explode produces: the points of the line
    labelled [i] are labelled [(i, 0), (i, 1), ...], as many as the library
    derives from the line, and the lines are labelled by their position in
    the file. *)
Theorem exploded_index_labels `{GeoLib} (flag : bool) (fs : inputs) :
  inputs_ok flag fs = true →
  ∃ r s, notebook flag fs = Ok r
    ∧ geometry_series (nyc_streets r) = Ok s
    ∧ fst <$> items (segmentized_exploded r)
      = (ig ← items s;
         (λ j, (ig.1, Z.of_nat j))
           <$> seq 0 (length (derived_points (Qc_of_Z 50) ig.2)))
    ∧ fst <$> items s = Z.of_nat <$> seq 0 (length (features (streets_file flag fs))).
Proof.
  intros Hok. pose proof (notebook_spec flag fs Hok) as Hrun.
  pose proof (shaped_streets flag fs Hok) as Hst.
  exists (expected flag fs). eexists. split; [done|].
  unfold expected, run_of. cbn [nyc_streets segmentized_exploded].
  set (c := declared_crs (streets_file flag fs)) in *.
  split; [by apply geometry_series_geo_frame|]. cbn [items]. split.
  - unfold joined. rewrite <-list_fmap_compose, fmap_bind_list, bind_fmap_list.
    apply bind_ext_list. intros r _. cbn. rewrite fmap_imap.
    rewrite (imap_ext _ (λ j _, (r.1, Z.of_nat j))) by done. apply imap_seq_0.
  - rewrite <-list_fmap_compose.
    change ((prepared flag (loaded_rows flag c (streets_file flag fs))).*1
            = Z.of_nat <$> seq 0 (length (features (streets_file flag fs)))).
    by rewrite prepared_labels, loaded_rows_labels, geojson_rows_labels.
Qed.

Lemma exploded_index_labels_witness :
  inputs_ok (H:=reference_library) true (sample_inputs (three_lines EPSG2263)) = true
  ∧ ∃ r s, notebook (H:=reference_library) true (sample_inputs (three_lines EPSG2263)) = Ok r
      ∧ fst <$> items s = Z.of_nat <$> seq 0 3.
Proof.
  assert (inputs_ok (H:=reference_library) true (sample_inputs (three_lines EPSG2263)) = true)
    as Hok by (vm_compute; reflexivity).
  split; [exact Hok|].
  destruct (exploded_index_labels (H:=reference_library) true _ Hok) as (r&s&Hr&_&_&Hl).
  exists r, s. split; [exact Hr|exact Hl].
Defined.



(** X14: line 185-186: the boundary selection has the boundary rows named
    Greenpoint; the clipped point table has the reference system and the
    columns of the exported table and exactly those of its rows whose point
    intersects the union of the selected boundary geometries, each once; it
    is empty when no boundary row is selected. *)
Theorem clip_rows_intersecting `{GeoLib} (flag : bool) (fs : inputs) :
  inputs_ok flag fs = true →
  ∃ r ms, notebook flag fs = Ok r
    ∧ rows (nta_crop r)
      = filter (λ m, get_col (Name "NTAName") (columns (nyc_ntas r)) m.2 = Some (VStr NOI))
          (rows (nyc_ntas r))
    ∧ geometry_series (nta_crop r) = Ok ms
    ∧ crs (segmentized_crop r) = crs (segmentized r)
    ∧ columns (segmentized_crop r) = columns (segmentized r)
    ∧ NoDup (rows (segmentized_crop r))
    ∧ ∀ row, row ∈ rows (segmentized_crop r) ↔
        row ∈ rows (segmentized r)
        ∧ rows (nta_crop r) ≠ []
        ∧ ∃ p, get_col geometry_col (columns (segmentized r)) row.2 = Some (VGeom (Point p))
               ∧ intersects (Point p) (unary_union (snd <$> items ms)) = true.
Proof.
  intros Hok. pose proof (notebook_spec flag fs Hok) as Hrun.
  pose proof (shaped_final flag fs
                (loaded_crs flag (declared_crs (streets_file flag fs))) Hok) as Hfin.
  pose proof (shaped_ntas flag fs Hok) as Hn.
  exists (expected flag fs). eexists. split; [done|].
  unfold expected, run_of. cbn [segmentized_crop segmentized nyc_ntas nta_crop].
  set (final := reproject _ _ _) in *.
  set (cols := file_cols (streets_file flag fs)) in *.
  set (nl := file_rows (nynta2020 fs)) in *.
  set (ncols := file_cols (nynta2020 fs)) in *.
  assert (shaped ncols (noi_rows ncols nl)) as Hnoi
    by (eapply shaped_sub; [apply filter_subseteq|done]).
  assert (Forall (λ r : Z * (list cell * geometry), is_point r.2.2) final) as Hpts
    by apply reproject_points, point_rows_are_points.
  rewrite Forall_forall in Hpts.
  split_and!.
  - rewrite columns_geo_frame. apply rows_noi_rows.
  - by apply geometry_series_geo_frame.
  - done.
  - done.
  - rewrite rows_geo_frame.
    apply (NoDup_fmap_1 fst). rewrite <-list_fmap_compose.
    apply clip_rows_labels_NoDup. subst final.
    rewrite reproject_labels. unfold point_rows. rewrite fmap_imap.
    rewrite (imap_ext _ (λ k _, Z.of_nat k)) by done.
    rewrite imap_seq_0. apply labels_NoDup.
  - intros row. cbn [items]. rewrite <-list_fmap_compose.
    change ((snd ∘ (λ r : Z * (list cell * geometry), (r.1, r.2.2))) <$> noi_rows ncols nl)
      with (geometries (noi_rows ncols nl)).
    rewrite !elem_of_rows_geo_frame, !columns_geo_frame. split.
    + intros (r&Hr&->). apply clip_rows_elem in Hr as (Hr&Hne&Hi).
      split; [eauto|]. split.
      { rewrite rows_geo_frame. by destruct (noi_rows ncols nl). }
      specialize (Hpts r Hr). destruct (r.2.2) as [p| | | |] eqn:Hg; try done.
      exists p. split; [|done]. cbn [snd].
      apply get_geometry; [by destruct Hfin|by eapply shaped_length].
    + intros ((r&Hr&->)&Hne&p&Hg&Hi). cbn [snd] in Hg.
      rewrite get_geometry in Hg; [|by destruct Hfin|by eapply shaped_length].
      injection Hg as Hg. exists r. split; [|done].
      apply clip_rows_elem. split; [done|]. split.
      { intros Hnil. apply Hne. by rewrite rows_geo_frame, Hnil. }
      by rewrite Hg.
Qed.

Lemma clip_rows_intersecting_witness :
  inputs_ok (H:=reference_library) true (sample_inputs (three_lines EPSG2263)) = true
  ∧ ∃ r, notebook (H:=reference_library) true (sample_inputs (three_lines EPSG2263)) = Ok r
      ∧ columns (segmentized_crop r) = columns (segmentized r).
Proof.
  assert (inputs_ok (H:=reference_library) true (sample_inputs (three_lines EPSG2263)) = true)
    as Hok by (vm_compute; reflexivity).
  split; [exact Hok|].
  destruct (clip_rows_intersecting (H:=reference_library) true _ Hok)
    as (r&ms&Hr&_&_&_&Hcols&_&_).
  exists r. split; [exact Hr|exact Hcols].
Defined.

(** X15: the layers of the three figures: the first figure shows the
    geometries of the cropped streets, each as segmentize at spacing 10
    returns it; the second the boundary selection and the clipped points;
    the third the boundary selection, the cropped streets, their
    simplification at tolerance 10, the boundary selection again and the
    clipped points. *)
Theorem figure_layers `{GeoLib} (flag : bool) (fs : inputs) :
  inputs_ok flag fs = true →
  ∃ r streets nta pts layer, notebook flag fs = Ok r
    ∧ plot_frame (nyc_streets_crop r) = Ok streets
    ∧ plot_frame (nta_crop r) = Ok nta
    ∧ plot_frame (segmentized_crop r) = Ok pts
    ∧ greenpoint_sidewalks_png r = [layer]
    ∧ Forall2 (λ g g', segmentize_geometry (Qc_of_Z 10) g = Ok g') streets layer
    ∧ plot (nyc_streets_crop_simplified r) = Ok (simplify_geometry (Qc_of_Z 10) <$> streets)
    ∧ greenpoint_sidewalks_segmentized_png r = [nta; pts]
    ∧ sidewalk_segmentization_png r
      = [nta; streets; simplify_geometry (Qc_of_Z 10) <$> streets; nta; pts].
Proof.
  intros Hok. pose proof (notebook_spec flag fs Hok) as Hrun.
  pose proof (shaped_input flag fs Hok) as Hl.
  pose proof (shaped_ntas flag fs Hok) as Hn.
  pose proof (shaped_final flag fs
                (loaded_crs flag (declared_crs (streets_file flag fs))) Hok) as Hfin.
  apply inputs_ok_spec in Hok
    as (_&_&_&_&(Hd10&Hdcrop&Hdsimp)%street_layers_drawable&_&Hseg&_).
  pose proof is_geographic_2263 as H2263.
  exists (expected flag fs). do 4 eexists. split; [done|].
  unfold expected, run_of.
  cbn [nyc_streets_crop nta_crop segmentized_crop greenpoint_sidewalks_png
       nyc_streets_crop_simplified greenpoint_sidewalks_segmentized_png
       sidewalk_segmentization_png].
  split_and!.
  - by apply plot_frame_crop.
  - apply plot_frame_geo_frame; [|done].
    eapply shaped_sub; [apply filter_subseteq|done].
  - apply plot_frame_geo_frame; [|done].
    eapply shaped_sub; [apply clip_rows_sub|done].
  - done.
  - apply Forall2_fmap, Forall_Forall2_diag, Forall_forall.
    intros x Hx%sjoin_pairs_left. cbn [compose].
    rewrite Forall_forall in Hseg.
    apply segmentizable_segmented, Is_true_true, Hseg, Hx.
  - rewrite (plot_drawable _
               (λ x : (Z * (list cell * geometry)) * (Z * (list cell * geometry)),
                  (x.1.1, simplify_geometry (Qc_of_Z 10) x.1.2.2)) _ Hdsimp).
    by rewrite <-list_fmap_compose.
  - done.
  - by rewrite <-list_fmap_compose.
Qed.

Lemma figure_layers_witness :
  inputs_ok (H:=reference_library) false (sample_inputs bent_line) = true
  ∧ ∃ r nta pts, notebook (H:=reference_library) false (sample_inputs bent_line) = Ok r
      ∧ greenpoint_sidewalks_segmentized_png r = [nta; pts].
Proof.
  assert (inputs_ok (H:=reference_library) false (sample_inputs bent_line) = true) as Hok
    by (vm_compute; reflexivity).
  split; [exact Hok|].
  destruct (figure_layers (H:=reference_library) false _ Hok)
    as (r&streets&nta&pts&layer&Hr&_&_&_&_&_&_&Hfig&_).
  exists r, nta, pts. split; [exact Hr|exact Hfig].
Defined.

(** X16: when no boundary row is named Greenpoint, on inputs that pass every
    cell (the streets table is then in a reference system that is not
    geographic), the crop and the clip are empty and every figure layer is
    empty, while the export still has one record per derived point. *)
Theorem no_neighborhood_row `{GeoLib} (flag : bool) (fs : inputs) :
  inputs_ok flag fs = true →
  Forall (λ row, get_col (Name "NTAName") (columns (load_ntas fs)) row.2 ≠ Some (VStr NOI))
    (rows (load_ntas fs)) →
  ∃ r c, notebook flag fs = Ok r
    ∧ crs (nyc_streets_loaded r) = Some c
    ∧ is_geographic c = false
    ∧ rows (nta_crop r) = []
    ∧ rows (nyc_streets_crop r) = []
    ∧ rows (segmentized_crop r) = []
    ∧ greenpoint_sidewalks_png r = [[]]
    ∧ greenpoint_sidewalks_segmentized_png r = [[]; []]
    ∧ sidewalk_segmentization_png r = [[]; []; []; []; []]
    ∧ length (records (segmentized_nyc_sidewalks_csv r))
      = length (items (segmentized_exploded r)).
Proof.
  intros Hok Hnone. pose proof (notebook_spec flag fs Hok) as Hrun.
  exists (expected flag fs), (loaded_crs flag (declared_crs (streets_file flag fs))).
  split; [done|]. split; [done|].
  rewrite load_ntas_geo_frame, rows_geo_frame, columns_geo_frame in Hnone.
  rewrite Forall_fmap in Hnone.
  assert (noi_rows (file_cols (nynta2020 fs)) (file_rows (nynta2020 fs)) = []) as Hnoi.
  { unfold noi_rows. apply filter_none. exact Hnone. }
  split.
  { apply inputs_ok_spec in Hok as (_&_&_&_&Hdraw&_).
    rewrite Hnoi in Hdraw. unfold street_layers in Hdraw.
    rewrite sjoin_pairs_nil in Hdraw. cbn [forallb fmap list_fmap] in Hdraw.
    apply andb_prop in Hdraw as [Hdraw _]. unfold drawable in Hdraw.
    rewrite bool_decide_eq_true_2 in Hdraw by done. cbn [negb andb] in Hdraw.
    rewrite orb_false_r in Hdraw. by apply negb_true_iff in Hdraw. }
  unfold expected, run_of. rewrite Hnoi, sjoin_pairs_nil.
  assert (∀ l, clip_rows l [] = []) as Hcl by done.
  rewrite Hcl.
  cbn [nta_crop nyc_streets_crop segmentized_crop greenpoint_sidewalks_png
       greenpoint_sidewalks_segmentized_png sidewalk_segmentization_png
       segmentized_nyc_sidewalks_csv segmentized_exploded].
  split_and!; try done.
  unfold to_csv. cbn [records items].
  rewrite rows_geo_frame, reproject_point_rows.
  by rewrite !length_fmap, length_imap.
Qed.

Lemma no_neighborhood_row_witness :
  inputs_ok (H:=reference_library) true
    (mkInputs other_ntas bent_line (three_lines EPSG2263)) = true
  ∧ ∃ r, notebook (H:=reference_library) true
           (mkInputs other_ntas bent_line (three_lines EPSG2263)) = Ok r
      ∧ rows (segmentized_crop r) = []
      ∧ length (records (segmentized_nyc_sidewalks_csv r))
        = length (items (segmentized_exploded r)).
Proof.
  assert (inputs_ok (H:=reference_library) true
            (mkInputs other_ntas bent_line (three_lines EPSG2263)) = true)
    as Hok by (vm_compute; reflexivity).
  split; [exact Hok|].
  destruct (no_neighborhood_row (H:=reference_library) true _ Hok ltac:(by_compute))
    as (r&c&Hr&_&_&_&_&Hcrop&_&_&_&Hlen).
  exists r. split; [exact Hr|]. split; [exact Hcrop|exact Hlen].
Defined.


